(** * Python-UNO: a shallow embedding of [main.py] and its verification

    The game keeps Python objects (cards, players) that are shared between
    lists and mutated in place.  Card objects live in an object store and
    the deck, the pile and the hands hold references (positions in the
    store); players are identified by their position in [player_list],
    which never changes once the game is built.

    [random.choice] and [get_input] are answered by a decision oracle: the
    n-th request receives [oracle n], reduced modulo the number of offered
    options. *)

From Stdlib Require Import List ZArith String Ascii Bool Arith Lia.
From Stdlib Require Import Permutation DecimalString DecimalZ.
Import ListNotations.

Local Open Scope string_scope.
Local Open Scope list_scope.

(** ** Cards *)

Inductive Colour : Type := Red | Yellow | Green | Blue.

Definition COLOUR_LIST : list Colour := [Red; Yellow; Green; Blue].

(** The concrete subclasses of [BaseUnoCard]. *)
Inductive Class : Type :=
  CNumbered | CSkip | CDrawTwo | CReverse | CDrawFour | CWild.

(** A card object: its class decides which slots exist.  [WildCard] and
    [DrawFourCard] are built with [colour = None] and receive a colour when
    played; every other class is built with a colour of [COLOUR_LIST]. *)
Inductive Card : Type :=
| NumberedCard (colour : Colour) (number : Z)
| SkipCard (colour : Colour)
| DrawTwoCard (colour : Colour)
| ReverseCard (colour : Colour)
| DrawFourCard (colour : option Colour)
| WildCard (colour : option Colour).

Definition Colour_eqb (a b : Colour) : bool :=
  match a, b with
  | Red, Red | Yellow, Yellow | Green, Green | Blue, Blue => true
  | _, _ => false
  end.

Definition Class_eqb (a b : Class) : bool :=
  match a, b with
  | CNumbered, CNumbered | CSkip, CSkip | CDrawTwo, CDrawTwo
  | CReverse, CReverse | CDrawFour, CDrawFour | CWild, CWild => true
  | _, _ => false
  end.

Definition class_of (c : Card) : Class :=
  match c with
  | NumberedCard _ _ => CNumbered
  | SkipCard _ => CSkip
  | DrawTwoCard _ => CDrawTwo
  | ReverseCard _ => CReverse
  | DrawFourCard _ => CDrawFour
  | WildCard _ => CWild
  end.

Definition isinstance (c : Card) (cls : Class) : bool :=
  Class_eqb (class_of c) cls.

(** The [colour] slot, [None] while a wild card has no colour. *)
Definition colour_of (c : Card) : option Colour :=
  match c with
  | NumberedCard k _ | SkipCard k | DrawTwoCard k | ReverseCard k => Some k
  | DrawFourCard k | WildCard k => k
  end.

Definition opt_colour_eqb (a b : option Colour) : bool :=
  match a, b with
  | Some x, Some y => Colour_eqb x y
  | None, None => true
  | _, _ => false
  end.

(** [card.number == current.number], read only once both are known to be
    numbered cards. *)
Definition same_number (c d : Card) : bool :=
  match c, d with
  | NumberedCard _ n, NumberedCard _ m => (n =? m)%Z
  | _, _ => false
  end.

(** [BaseUnoCard.__eq__], refined by [NumberedCard.__eq__]: same class, same
    colour and, for numbered cards, the same number. *)
Definition card_eq (c d : Card) : bool :=
  match c with
  | NumberedCard _ _ =>
      (isinstance d (class_of c) && opt_colour_eqb (colour_of c) (colour_of d))
      && same_number c d
  | _ => isinstance d (class_of c) && opt_colour_eqb (colour_of c) (colour_of d)
  end.

Definition set_colour (c : Card) (k : option Colour) : Card :=
  match c with
  | DrawFourCard _ => DrawFourCard k
  | WildCard _ => WildCard k
  | other => other
  end.

(** ** Legality filter: [Player.playable_cards]

    Written over any representation [A] of the cards of a hand, with [look]
    reading the card object behind an element: hands of the running game
    hold references, the statements about plain hands take [A := Card]. *)

Section Playable.
Context {A : Type} (look : A -> Card).
Variable stacking_on : bool.
Variable current : Card.

(** What one iteration of the first loop appends for [card]. *)
Definition first_loop_step (card : A) : list A :=
  let c := look card in
  (if isinstance c CWild then [card] else [])
  ++ (if isinstance c CDrawFour && isinstance current CDrawFour && stacking_on
      then [card]
      else if isinstance c CNumbered && isinstance current CNumbered
              && same_number c current
      then [card]
      else if opt_colour_eqb (colour_of c) (colour_of current)
              && negb (isinstance c CWild || isinstance c CDrawFour)
      then [card]
      else flat_map
             (fun cls =>
                if isinstance c cls && isinstance current cls
                then [card] else [])
             [CSkip; CReverse; CDrawTwo]).

(** The second loop: a draw four is appended only while the list is still
    empty, so at most the first one of the hand gets in. *)
Fixpoint second_loop (playable : list A) (hand : list A) : list A :=
  match hand with
  | [] => playable
  | card :: rest =>
      second_loop
        (match playable with
         | [] => if isinstance (look card) CDrawFour
                 then playable ++ [card] else playable
         | _ :: _ => playable
         end) rest
  end.

Definition playable_of (hand : list A) : list A :=
  second_loop (flat_map first_loop_step hand) hand.
End Playable.

(** ** Players and the game object *)

Record Player : Type := mkPlayer {
  name : string;
  human : bool;
  hand : list nat
}.

(** Lines written to the console that matter for the rules, plus one entry
    per jump-in question (a prompt for a human, a coin flip for a robot). *)
Inductive Line : Type :=
| LPlayed (who : string) (card : Card)
| LWon (who : string)
| LOneLeft (who : string)
| LMustDraw (who : string) (amount : nat)
| LChose (who : string) (k : Colour)
| LSwapped (who other : string)
| LPassHands
| LJumpQuestion (player : nat) (card : nat)
| LJumpingIn (who : string) (card : Card)
| LNoPlayable (who : string)
| LDrew (who : string) (card : Card)
| LTurn (who : string)
| LTopCard (card : Card).

Record UnoGame : Type := mkGame {
  objects : list Card;        (* the card objects, by reference *)
  player_list : list Player;
  deck : list nat;
  pile : list nat;
  turn : Z;
  spin : Z;
  jump_in : bool;
  stacking : bool;
  seven_zero : bool;
  console : list Line;        (* newest line last *)
  asked : nat                 (* decisions requested so far *)
}.

Definition card_at (g : UnoGame) (r : nat) : Card :=
  nth r (objects g) (WildCard None).

Definition with_objects (g : UnoGame) (o : list Card) : UnoGame :=
  mkGame o (player_list g) (deck g) (pile g) (turn g) (spin g)
         (jump_in g) (stacking g) (seven_zero g) (console g) (asked g).

Definition with_players (g : UnoGame) (ps : list Player) : UnoGame :=
  mkGame (objects g) ps (deck g) (pile g) (turn g) (spin g)
         (jump_in g) (stacking g) (seven_zero g) (console g) (asked g).

Definition with_deck (g : UnoGame) (d : list nat) : UnoGame :=
  mkGame (objects g) (player_list g) d (pile g) (turn g) (spin g)
         (jump_in g) (stacking g) (seven_zero g) (console g) (asked g).

Definition with_pile (g : UnoGame) (p : list nat) : UnoGame :=
  mkGame (objects g) (player_list g) (deck g) p (turn g) (spin g)
         (jump_in g) (stacking g) (seven_zero g) (console g) (asked g).

Definition with_turn (g : UnoGame) (t : Z) : UnoGame :=
  mkGame (objects g) (player_list g) (deck g) (pile g) t (spin g)
         (jump_in g) (stacking g) (seven_zero g) (console g) (asked g).

Definition with_spin (g : UnoGame) (s : Z) : UnoGame :=
  mkGame (objects g) (player_list g) (deck g) (pile g) (turn g) s
         (jump_in g) (stacking g) (seven_zero g) (console g) (asked g).

Definition with_console (g : UnoGame) (l : list Line) : UnoGame :=
  mkGame (objects g) (player_list g) (deck g) (pile g) (turn g) (spin g)
         (jump_in g) (stacking g) (seven_zero g) l (asked g).

Definition with_asked (g : UnoGame) (n : nat) : UnoGame :=
  mkGame (objects g) (player_list g) (deck g) (pile g) (turn g) (spin g)
         (jump_in g) (stacking g) (seven_zero g) (console g) n.

(** [l[i] = x] on a list that is long enough. *)
Fixpoint list_set {A : Type} (l : list A) (i : nat) (x : A) : list A :=
  match l, i with
  | [], _ => []
  | _ :: t, O => x :: t
  | h :: t, S j => h :: list_set t j x
  end.

Definition hand_of (g : UnoGame) (p : nat) : list nat :=
  match nth_error (player_list g) p with
  | Some pl => hand pl
  | None => []
  end.

Definition name_of (g : UnoGame) (p : nat) : string :=
  match nth_error (player_list g) p with
  | Some pl => name pl
  | None => ""
  end.

Definition human_of (g : UnoGame) (p : nat) : bool :=
  match nth_error (player_list g) p with
  | Some pl => human pl
  | None => false
  end.

(** [player.hand = h] *)
Definition set_hand (g : UnoGame) (p : nat) (h : list nat) : UnoGame :=
  match nth_error (player_list g) p with
  | Some pl =>
      with_players g (list_set (player_list g) p (mkPlayer (name pl) (human pl) h))
  | None => g
  end.

(** [card.colour = k] on the object behind reference [r]. *)
Definition assign_colour (g : UnoGame) (r : nat) (k : option Colour) : UnoGame :=
  with_objects g (list_set (objects g) r (set_colour (card_at g r) k)).

(** [a == b] on two card references. *)
Definition ref_eq (g : UnoGame) (a b : nat) : bool :=
  card_eq (card_at g a) (card_at g b).

(** ** Control: results, exceptions and the game monad *)

Inductive Exn : Type := IndexError | ValueError | AttributeError | SystemExit.

(** A call returns a value, raises, or never returns ([Diverge]: a loop that
    cannot end, or the recursion budget of the model used up).  The game
    object as it stands is kept in every case: [main] saves it when an
    exception escapes [run_game]. *)
Inductive Result (A : Type) : Type :=
| Ok (a : A) (g : UnoGame)
| Raise (e : Exn) (g : UnoGame)
| Diverge (g : UnoGame).

Arguments Ok {A} a g.
Arguments Raise {A} e g.
Arguments Diverge {A} g.

Definition M (A : Type) : Type := UnoGame -> Result A.

Definition ret {A : Type} (a : A) : M A := fun g => Ok a g.

Definition bind {A B : Type} (m : M A) (k : A -> M B) : M B :=
  fun g =>
    match m g with
    | Ok a g' => k a g'
    | Raise e g' => Raise e g'
    | Diverge g' => Diverge g'
    end.

Declare Scope game_scope.
Delimit Scope game_scope with game.
Notation "x <- m ;; k" := (bind m (fun x => k))
  (at level 61, m at next level, right associativity) : game_scope.
Notation "m ;; k" := (bind m (fun _ => k))
  (at level 61, right associativity) : game_scope.
Local Open Scope game_scope.

Definition raise {A : Type} (e : Exn) : M A := fun g => Raise e g.
Definition diverge {A : Type} : M A := fun g => Diverge g.
Definition get : M UnoGame := fun g => Ok g g.
Definition modify (f : UnoGame -> UnoGame) : M unit := fun g => Ok tt (f g).
Definition print (l : Line) : M unit :=
  modify (fun g => with_console g (console g ++ [l])).

(** The game object a result carries. *)
Definition final {A : Type} (r : Result A) : UnoGame :=
  match r with
  | Ok _ g | Raise _ g | Diverge g => g
  end.

(** [for x in xs: body(x)] without [break]. *)
Fixpoint for_each {A : Type} (xs : list A) (body : A -> M unit) : M unit :=
  match xs with
  | [] => ret tt
  | x :: rest => body x ;; for_each rest body
  end.

(** [for _ in range(n): body()] *)
Fixpoint repeat_do (n : nat) (body : M unit) : M unit :=
  match n with
  | O => ret tt
  | S k => body ;; repeat_do k body
  end.

(** ** Strings: [str(int)], [sub in s], [s[-1]], [int(s)] *)

Definition str_of_int (z : Z) : string := NilZero.string_of_int (Z.to_int z).

(** [int(s)] on a decimal literal with an optional minus sign. *)
Definition int_of_str (s : string) : option Z :=
  option_map Z.of_int (NilZero.int_of_string s).

Fixpoint contains (sub s : string) : bool :=
  prefix sub s
  || match s with
     | EmptyString => false
     | String _ rest => contains sub rest
     end.

Fixpoint last_char (s : string) : option ascii :=
  match s with
  | EmptyString => None
  | String a EmptyString => Some a
  | String _ rest => last_char rest
  end.

(** ** Lists of references *)

(** [l.remove(x)]: drops the first element that compares equal to [x],
    [None] standing for the [ValueError] of a list without one. *)
Fixpoint remove_first (eqx : nat -> bool) (l : list nat) : option (list nat) :=
  match l with
  | [] => None
  | y :: rest =>
      if eqx y then Some rest
      else option_map (cons y) (remove_first eqx rest)
    end.

(** Length of the longest prefix whose elements satisfy [f]. *)
Fixpoint run_length {A : Type} (f : A -> bool) (l : list A) : nat :=
  match l with
  | [] => O
  | x :: rest => if f x then S (run_length f rest) else O
  end.

Fixpoint find_index {A : Type} (f : A -> bool) (l : list A) : option nat :=
  match l with
  | [] => None
  | x :: rest => if f x then Some O else option_map S (find_index f rest)
  end.

Definition last_opt {A : Type} (l : list A) : option A :=
  match rev l with
  | [] => None
  | x :: _ => Some x
  end.

(** ** Decisions *)

Section Engine.
(** Answer to the n-th decision request. *)
Variable oracle : nat -> nat.

(** [random.choice(options)] *)
Definition choice {A : Type} (options : list A) : M A :=
  fun g =>
    match nth_error options (oracle (asked g) mod List.length options) with
    | Some a => Ok a (with_asked g (S (asked g)))
    | None => Raise IndexError g
    end.

(** [get_input(question, choices)]: the answer finally accepted.  With
    nothing to choose from the prompt comes back forever. *)
Definition get_input {A : Type} (choices : list A) : M A :=
  match choices with
  | [] => diverge
  | _ :: _ => choice choices
  end.

(** ** Turn order *)

(** The [next_turn] property. *)
Definition next_turn (g : UnoGame) : Z :=
  let next_turn_int := (turn g + spin g)%Z in
  if (next_turn_int >? Z.of_nat (List.length (player_list g)))%Z then 1%Z
  else if (next_turn_int =? 0)%Z then Z.of_nat (List.length (player_list g))
  else next_turn_int.

(** [player_from_turn]: the first player whose name contains [str(turn)],
    [None] when the loop falls through. *)
Definition player_from_turn (g : UnoGame) (t : Z) : option nat :=
  find_index (fun pl => contains (str_of_int t) (name pl)) (player_list g).

(** Reading an attribute of what [player_from_turn] returned. *)
Definition deref (p : option nat) : M nat :=
  match p with
  | Some i => ret i
  | None => raise AttributeError
  end.

Definition show_player (g : UnoGame) (p : option nat) : string :=
  match p with
  | Some i => name_of g i
  | None => "None"
  end.

(** ** Deck and pile *)

(** [some_list.remove(card)] on the deck, the pile or a hand. *)
Definition list_remove (l : list nat) (card : nat) : M (list nat) :=
  fun g =>
    match remove_first (fun y => ref_eq g y card) l with
    | Some l' => Ok l' g
    | None => Raise ValueError g
    end.

(** One round of the refill loop of [deal_card]. *)
Definition refill_step : M unit :=
  g <- get ;;
  match pile g with
  | [] => raise IndexError
  | _card :: _ =>
      pile' <- list_remove (pile g) _card ;;
      modify (fun g => with_pile g pile') ;;
      modify (fun g => with_deck g (deck g ++ [_card]))
  end.

Definition deal_card (player : option nat) : M nat :=
  g <- get ;;
  card <- choice (deck g) ;;
  deck' <- list_remove (deck g) card ;;
  modify (fun g => with_deck g deck') ;;
  p <- deref player ;;
  modify (fun g => set_hand g p (hand_of g p ++ [card])) ;;
  g <- get ;;
  (match deck g with
   | [] => repeat_do (List.length (pile g) - 1) refill_step
   | _ :: _ => ret tt
   end) ;;
  ret card.

(** The [top_pile_card] property.  On an empty pile it keeps drawing from
    the deck until a numbered card comes up, which then seeds the pile:
    the pick that ends the loop is any numbered card of the deck, and
    with none the loop never ends. *)
Definition top_pile_card : M nat :=
  g <- get ;;
  match last_opt (pile g) with
  | Some top => ret top
  | None =>
      match deck g with
      | [] => raise IndexError
      | _ :: _ =>
          match filter (fun r => isinstance (card_at g r) CNumbered) (deck g) with
          | [] => diverge
          | numbered =>
              card <- choice numbered ;;
              deck' <- list_remove (deck g) card ;;
              modify (fun g => with_deck g deck') ;;
              modify (fun g => with_pile g (pile g ++ [card])) ;;
              ret card
          end
      end
  end.

(** [Player.playable_cards] *)
Definition playable_cards (p : nat) : M (list nat) :=
  current <- top_pile_card ;;
  g <- get ;;
  ret (playable_of (card_at g) (stacking g) (card_at g current) (hand_of g p)).

(** ** Card effects: the [play] methods *)

(** The counting loop of [activate]: one for the card itself, one more
    for every card of class [cls] met walking down from [pile[-2]]. *)
Definition stack_count (g : UnoGame) (cls : Class) : nat :=
  if stacking g
  then 1 + run_length (fun r => isinstance (card_at g r) cls)
                      (rev (removelast (pile g)))
  else 1.

Definition DrawTwoCard_activate (player : option nat) : M unit :=
  g <- get ;;
  let count := stack_count g CDrawTwo in
  print (LMustDraw (show_player g player) (2 * count)) ;;
  repeat_do 2 (deal_card player ;; ret tt) ;;
  modify (fun g => with_turn g (next_turn g)).

Definition DrawFourCard_activate (player : option nat) : M unit :=
  g <- get ;;
  let count := stack_count g CDrawFour in
  print (LMustDraw (show_player g player) (4 * count)) ;;
  repeat_do (4 * count) (deal_card player ;; ret tt) ;;
  modify (fun g => with_turn g (next_turn g)).

(** [for card in next_player.hand: if isinstance(card, cls): break] with
    [activate] in the [else] of the loop. *)
Definition unless_holding (cls : Class) (next_player : option nat)
           (activate : option nat -> M unit) : M unit :=
  g <- get ;;
  if negb (stacking g) then activate next_player
  else
    p <- deref next_player ;;
    if existsb (fun r => isinstance (card_at g r) cls) (hand_of g p)
    then ret tt
    else activate next_player.

Definition SkipCard_play : M unit :=
  modify (fun g => with_turn g (next_turn g)).

Definition ReverseCard_play : M unit :=
  modify (fun g => with_spin g (spin g * -1)%Z).

Definition DrawTwoCard_play : M unit :=
  g <- get ;;
  unless_holding CDrawTwo (player_from_turn g (next_turn g)) DrawTwoCard_activate.

(** The colour choice shared by [WildCard.play] and [DrawFourCard.play]. *)
Definition choose_colour (self : nat) : M unit :=
  g <- get ;;
  current_player <- deref (player_from_turn g (turn g)) ;;
  k <- (if human_of g current_player
        then get_input COLOUR_LIST else choice COLOUR_LIST) ;;
  modify (fun g => assign_colour g self (Some k)) ;;
  print (LChose (name_of g current_player) k).

Definition WildCard_play (self : nat) : M unit := choose_colour self.

Definition DrawFourCard_play (self : nat) : M unit :=
  choose_colour self ;;
  g <- get ;;
  unless_holding CDrawFour (player_from_turn g (next_turn g)) DrawFourCard_activate.

(** Number 7 under the seven-zero rule. *)
Definition swap_hands : M unit :=
  g <- get ;;
  let current := player_from_turn g (turn g) in
  let other_player_list :=
    filter (fun i => match current with
                     | Some c => negb (Nat.eqb i c)
                     | None => true
                     end)
           (seq 0 (List.length (player_list g))) in
  current_player <- deref current ;;
  new_player <-
    (if human_of g current_player
     then
       new_player_name <- get_input (map (name_of g) other_player_list) ;;
       match find_index (fun pl => String.eqb (name pl) new_player_name)
                        (player_list g) with
       | Some i => ret i
       | None => raise IndexError
       end
     else choice other_player_list) ;;
  let current_player_hand := hand_of g current_player in
  let new_player_hand := hand_of g new_player in
  modify (fun g => set_hand g current_player new_player_hand) ;;
  modify (fun g => set_hand g new_player current_player_hand) ;;
  print (LSwapped (name_of g current_player) (name_of g new_player)).

(** Number 0 under the seven-zero rule. *)
Definition rotate_hands : M unit :=
  g <- get ;;
  let player_hands := map hand (player_list g) in
  let n := List.length player_hands in
  (if (spin g =? 1)%Z
   then
     for_each (seq 0 (n - 1))
              (fun i => modify (fun g => set_hand g (i + 1) (nth i player_hands []))) ;;
     match last_opt player_hands with
     | Some h => modify (fun g => set_hand g 0 h)
     | None => raise IndexError
     end
   else
     for_each (seq 0 (n - 1))
              (fun i => modify (fun g => set_hand g i (nth (i + 1) player_hands []))) ;;
     match player_hands with
     | h :: _ => modify (fun g => set_hand g (n - 1) h)
     | [] => raise IndexError
     end) ;;
  print LPassHands.

Definition NumberedCard_play (number : Z) : M unit :=
  g <- get ;;
  if seven_zero g
  then
    if (number =? 7)%Z then swap_hands
    else if (number =? 0)%Z then rotate_hands
    else ret tt
  else ret tt.

(** [card.play()], dispatched on the class of the object. *)
Definition play (card : nat) : M unit :=
  g <- get ;;
  match card_at g card with
  | NumberedCard _ number => NumberedCard_play number
  | SkipCard _ => SkipCard_play
  | DrawTwoCard _ => DrawTwoCard_play
  | ReverseCard _ => ReverseCard_play
  | DrawFourCard _ => DrawFourCard_play card
  | WildCard _ => WildCard_play card
  end.

(** ** Jump-in and playing a card *)

(** [self.turn = int(player.name[-1])] *)
Definition turn_of_name (nm : string) : M Z :=
  match last_char nm with
  | None => raise IndexError
  | Some a =>
      match int_of_str (String a EmptyString) with
      | Some z => ret z
      | None => raise ValueError
      end
  end.

Section JumpIn.
(** The call back into [play_card]. *)
Variable play_card_rec : nat -> nat -> M unit.
Variable card : nat.

(** The inner loop over the cards of [player.hand]; it stops at the
    first question answered with yes ([break]). *)
Fixpoint jump_in_hand (player : nat) (cards : list nat) : M unit :=
  match cards with
  | [] => ret tt
  | player_card :: rest =>
      g <- get ;;
      if isinstance (card_at g card) CWild || isinstance (card_at g card) CDrawFour
      then jump_in_hand player rest
      else if ref_eq g player_card card
      then
        print (LJumpQuestion player player_card) ;;
        jump_in <- (if human_of g player
                    then get_input [true; false] else choice [true; false]) ;;
        if jump_in : bool
        then
          print (LJumpingIn (name_of g player) (card_at g player_card)) ;;
          t <- turn_of_name (name_of g player) ;;
          modify (fun g => with_turn g t) ;;
          play_card_rec player player_card
        else jump_in_hand player rest
      else jump_in_hand player rest
  end.

(** The outer loop over [player_list].  Nothing in its body leaves it:
    the [break] above ends the inner loop only. *)
Definition jump_in_players (players : list nat) : M unit :=
  for_each players
    (fun player =>
       g <- get ;;
       if match player_from_turn g (next_turn g) with
          | Some p => Nat.eqb player p
          | None => false
          end && isinstance (card_at g card) CSkip
       then ret tt
       else jump_in_hand player (hand_of g player)).

(** [play_jump_in]: the [else] belongs to the outer [for], which is
    never left by [break], so it runs whenever the loop comes to its
    end. *)
Definition play_jump_in : M unit :=
  g <- get ;;
  jump_in_players (seq 0 (List.length (player_list g))) ;;
  play card.
End JumpIn.

(** [play_card]; [depth] bounds the nesting of jump-ins. *)
Fixpoint play_card (depth : nat) (player card : nat) {struct depth} : M unit :=
  g <- get ;;
  print (LPlayed (name_of g player) (card_at g card)) ;;
  hand' <- list_remove (hand_of g player) card ;;
  modify (fun g => set_hand g player hand') ;;
  modify (fun g => with_pile g (pile g ++ [card])) ;;
  g <- get ;;
  (match List.length (hand_of g player) with
   | 0 => print (LWon (name_of g player)) ;; raise SystemExit
   | 1 => print (LOneLeft (name_of g player))
   | _ => ret tt
   end) ;;
  if jump_in g
  then play_jump_in
         (match depth with
          | O => fun _ _ => diverge
          | S d => play_card d
          end) card
  else play card.

(** ** The game loop *)

Definition is_nil {A : Type} (l : list A) : bool :=
  match l with
  | [] => true
  | _ :: _ => false
  end.

(** [Player.get_played_card].  A human is asked again until the chosen
    card compares equal to a playable one: the answer that gets through
    is some card of the hand with that property. *)
Definition get_played_card (p : nat) : M nat :=
  g <- get ;;
  if human_of g p
  then
    playable <- playable_cards p ;;
    g <- get ;;
    get_input (filter (fun chosen_card =>
                         existsb (fun c => ref_eq g c chosen_card) playable)
                      (hand_of g p))
  else
    playable <- playable_cards p ;;
    choice playable.

(** One round of the [while True] loop of [run_game]. *)
Definition take_turn (depth : nat) : M unit :=
  g <- get ;;
  current_player <- deref (player_from_turn g (turn g)) ;;
  for_each (hand_of g current_player)
    (fun card =>
       g <- get ;;
       if isinstance (card_at g card) CWild || isinstance (card_at g card) CDrawFour
       then modify (fun g => assign_colour g card None)
       else ret tt) ;;
  print (LTurn (name_of g current_player)) ;;
  playable <- playable_cards current_player ;;
  (if is_nil playable
   then
     print (LNoPlayable (name_of g current_player)) ;;
     new_card <- deal_card (Some current_player) ;;
     g <- get ;;
     (if human_of g current_player
      then print (LDrew (name_of g current_player) (card_at g new_card))
      else ret tt) ;;
     match playable with
     | first :: _ => play_card depth current_player first
     | [] => ret tt
     end
   else
     card <- get_played_card current_player ;;
     play_card depth current_player card) ;;
  modify (fun g => with_turn g (next_turn g)) ;;
  top <- top_pile_card ;;
  g <- get ;;
  print (LTopCard (card_at g top)).

(** What [run_game] does before it enters the loop. *)
Definition start_game : M unit :=
  top <- top_pile_card ;;
  g <- get ;;
  (match colour_of (card_at g top) with
   | None =>
       k <- choice COLOUR_LIST ;;
       top <- top_pile_card ;;
       modify (fun g => assign_colour g top (Some k))
   | Some _ => ret tt
   end) ;;
  top <- top_pile_card ;;
  g <- get ;;
  print (LTopCard (card_at g top)).

(** [turns] rounds of the loop; the loop itself only ends by an
    exception. *)
Fixpoint play_turns (depth turns : nat) : M unit :=
  match turns with
  | O => ret tt
  | S k => take_turn depth ;; play_turns depth k
  end.

(** ** A new game: [UnoGame.__init__] with [new_game=True] *)

(** Creating a card object and appending it to the deck. *)
Definition deck_append_new (c : Card) : M unit :=
  modify (fun g =>
            with_deck (with_objects g (objects g ++ [c]))
                      (deck g ++ [List.length (objects g)])).

Definition init_cards : M unit :=
  for_each COLOUR_LIST
    (fun colour =>
       deck_append_new (WildCard None) ;;
       deck_append_new (DrawFourCard None) ;;
       repeat_do 2
         (for_each (seq 1 9)
                   (fun i => deck_append_new (NumberedCard colour (Z.of_nat i))) ;;
          deck_append_new (SkipCard colour) ;;
          deck_append_new (DrawTwoCard colour) ;;
          deck_append_new (ReverseCard colour)) ;;
       deck_append_new (NumberedCard colour 0)) ;;
  g <- get ;;
  repeat_do 7
    (for_each (seq 0 (List.length (player_list g)))
              (fun player => deal_card (Some player) ;; ret tt)).

Definition new_players (player_count human_count : nat) : list Player :=
  map (fun count => mkPlayer ("Player " ++ str_of_int (Z.of_nat count))%string true [])
      (seq 1 human_count)
  ++ map (fun count => mkPlayer ("Player " ++ str_of_int (Z.of_nat count))%string false [])
         (seq (1 + human_count) (player_count - human_count)).

Definition new_game (player_count human_count : nat)
           (jump_in_rule stacking_rule seven_zero_rule : bool) : Result unit :=
  init_cards
    (mkGame [] (new_players player_count human_count) [] [] 1 1
            jump_in_rule stacking_rule seven_zero_rule [] 0).
End Engine.

(** ** Saving and loading: [repr], [from_string], [save_game], [__init__] *)

Definition class_name (c : Card) : string :=
  match c with
  | NumberedCard _ _ => "NumberedCard"
  | SkipCard _ => "SkipCard"
  | DrawTwoCard _ => "DrawTwoCard"
  | ReverseCard _ => "ReverseCard"
  | DrawFourCard _ => "DrawFourCard"
  | WildCard _ => "WildCard"
  end.

Definition colour_name (k : Colour) : string :=
  match k with
  | Red => "Red"
  | Yellow => "Yellow"
  | Green => "Green"
  | Blue => "Blue"
  end.

(** [str(self.colour)] inside an f-string. *)
Definition str_colour (k : option Colour) : string :=
  match k with
  | Some c => colour_name c
  | None => "None"
  end.

(** [__repr__] *)
Definition repr (c : Card) : string :=
  let base := (class_name c ++ ":" ++ str_colour (colour_of c))%string in
  match c with
  | NumberedCard _ number => (base ++ ":" ++ str_of_int number)%string
  | _ => base
  end.

(** [string.split(':')] *)
Fixpoint split_colon (s : string) : list string :=
  match s with
  | EmptyString => [EmptyString]
  | String a rest =>
      if Ascii.eqb a ":"%char then EmptyString :: split_colon rest
      else match split_colon rest with
           | h :: t => String a h :: t
           | [] => [String a EmptyString]
           end
  end.

(** The colour strings the game itself writes. *)
Definition colour_of_name (s : string) : option Colour :=
  if String.eqb s "Red" then Some Red
  else if String.eqb s "Yellow" then Some Yellow
  else if String.eqb s "Green" then Some Green
  else if String.eqb s "Blue" then Some Blue
  else None.

(** [BaseUnoCard.from_string]; [None] gathers the exceptions of a string
    the game did not write (missing component, no integer, unknown class)
    and the colour strings outside [COLOUR_LIST]. *)
Definition from_string (s : string) : option Card :=
  let components := split_colon s in
  match components with
  | [] => None
  | c0 :: args =>
      if String.eqb c0 "NumberedCard" then
        match args with
        | c1 :: c2 :: _ =>
            match colour_of_name c1, int_of_str c2 with
            | Some k, Some n => Some (NumberedCard k n)
            | _, _ => None
            end
        | _ => None
        end
      else if String.eqb c0 "DrawFourCard" then Some (DrawFourCard None)
      else if String.eqb c0 "WildCard" then Some (WildCard None)
      else
        match args with
        | c1 :: _ =>
            match colour_of_name c1 with
            | Some k =>
                if String.eqb c0 "SkipCard" then Some (SkipCard k)
                else if String.eqb c0 "DrawTwoCard" then Some (DrawTwoCard k)
                else if String.eqb c0 "ReverseCard" then Some (ReverseCard k)
                else None
            | None => None
            end
        | [] => None
        end
  end.

(** The values of the [JSON] type hint. *)
Inductive Field : Type :=
| FBool (b : bool)
| FStrings (l : list string).

Inductive JSON : Type :=
| JInt (z : Z)
| JBool (b : bool)
| JStrings (l : list string)
| JDict (d : list (string * Field)).

(** A [dict] with string keys, in insertion order. *)
Fixpoint dict_get {V : Type} (d : list (string * V)) (key : string) : option V :=
  match d with
  | [] => None
  | (k, v) :: rest => if String.eqb k key then Some v else dict_get rest key
  end.

(** [d[key] = v] *)
Fixpoint dict_set {V : Type} (d : list (string * V)) (key : string) (v : V)
  : list (string * V) :=
  match d with
  | [] => [(key, v)]
  | (k, w) :: rest =>
      if String.eqb k key then (k, v) :: rest
      else (k, w) :: dict_set rest key v
  end.

(** The dictionary [save_game] hands to [SaveData.write_data]. *)
Definition save_game (g : UnoGame) : list (string * JSON) :=
  let game_data :=
    [ ("deck", JStrings (map (fun r => repr (card_at g r)) (deck g)));
      ("pile", JStrings (map (fun r => repr (card_at g r)) (pile g)));
      ("turn", JInt (turn g));
      ("spin", JInt (spin g));
      ("jump_in", JBool (jump_in g));
      ("stacking", JBool (stacking g));
      ("seven_zero", JBool (seven_zero g)) ] in
  fold_left
    (fun game_data player =>
       dict_set game_data (name player)
                (JDict [ ("human", FBool (human player));
                         ("cards", FStrings (map (fun r => repr (card_at g r))
                                                 (hand player))) ]))
    (player_list g) game_data.

(** [[BaseUnoCard.from_string(self, card) for card in cards]]: the new
    objects are added to the store [objs], the list holds their
    references. *)
Fixpoint load_cards (objs : list Card) (cards : list string)
  : option (list Card * list nat) :=
  match cards with
  | [] => Some (objs, [])
  | s :: rest =>
      match from_string s with
      | None => None
      | Some c =>
          match load_cards (objs ++ [c]) rest with
          | Some (objs', refs) => Some (objs', List.length objs :: refs)
          | None => None
          end
      end
  end.

(** The loop over the entries whose key contains ['Player']. *)
Fixpoint load_players (objs : list Card) (entries : list (string * JSON))
  : option (list Card * list Player) :=
  match entries with
  | [] => Some (objs, [])
  | (entry, data) :: rest =>
      if contains "Player" entry
      then
        match data with
        | JDict d =>
            let human :=
              match dict_get d "human" with
              | Some (FBool b) => Some b
              | Some (FStrings _) => None
              | None => Some true
              end in
            let cards :=
              match dict_get d "cards" with
              | Some (FStrings l) => Some l
              | Some (FBool _) => None
              | None => Some []
              end in
            match human, cards with
            | Some h, Some l =>
                match load_cards objs l with
                | Some (objs', refs) =>
                    match load_players objs' rest with
                    | Some (objs'', players) =>
                        Some (objs'', mkPlayer entry h refs :: players)
                    | None => None
                    end
                | None => None
                end
            | _, _ => None
            end
        | _ => None
        end
      else load_players objs rest
  end.

Definition get_strings (d : list (string * JSON)) (key : string) : option (list string) :=
  match dict_get d key with
  | Some (JStrings l) => Some l
  | Some _ => None
  | None => Some []
  end.

Definition get_int (d : list (string * JSON)) (key : string) (default : Z) : option Z :=
  match dict_get d key with
  | Some (JInt z) => Some z
  | Some _ => None
  | None => Some default
  end.

Definition get_bool (d : list (string * JSON)) (key : string) (default : bool) : option bool :=
  match dict_get d key with
  | Some (JBool b) => Some b
  | Some _ => None
  | None => Some default
  end.

(** [UnoGame.__init__] with [new_game=False], from the dictionary read
    back; [None] when a value has another type than [save_game] writes or
    a card string does not parse. *)
Definition load_game (all_data : list (string * JSON)) : option UnoGame :=
  match load_players [] all_data with
  | None => None
  | Some (objs1, players) =>
      match get_strings all_data "deck" with
      | None => None
      | Some deck_strings =>
          match load_cards objs1 deck_strings with
          | None => None
          | Some (objs2, deck_refs) =>
              match get_strings all_data "pile" with
              | None => None
              | Some pile_strings =>
                  match load_cards objs2 pile_strings with
                  | None => None
                  | Some (objs3, pile_refs) =>
                      match get_int all_data "turn" 1, get_int all_data "spin" 1,
                            get_bool all_data "jump_in" false,
                            get_bool all_data "stacking" false,
                            get_bool all_data "seven_zero" false with
                      | Some t, Some s, Some j, Some st, Some sz =>
                          Some (mkGame objs3 players deck_refs pile_refs t s j st sz [] 0)
                      | _, _, _, _, _ => None
                      end
                  end
              end
          end
      end
  end.

(** What a saved game is compared by: the cards behind every reference. *)
Record Snapshot : Type := mkSnapshot {
  snap_players : list (string * bool * list Card);
  snap_deck : list Card;
  snap_pile : list Card;
  snap_turn : Z;
  snap_spin : Z;
  snap_rules : bool * bool * bool
}.

Definition snapshot (g : UnoGame) : Snapshot :=
  mkSnapshot
    (map (fun pl => (name pl, human pl, map (card_at g) (hand pl))) (player_list g))
    (map (card_at g) (deck g))
    (map (card_at g) (pile g))
    (turn g) (spin g)
    (jump_in g, stacking g, seven_zero g).

(** A card as [from_string] rebuilds it: the colour of a wild card or a
    draw four is not read back. *)
Definition reloaded (c : Card) : Card :=
  match c with
  | DrawFourCard _ => DrawFourCard None
  | WildCard _ => WildCard None
  | other => other
  end.

Definition reloaded_snapshot (s : Snapshot) : Snapshot :=
  mkSnapshot
    (map (fun '(nm, h, cs) => (nm, h, map reloaded cs)) (snap_players s))
    (map reloaded (snap_deck s))
    (map reloaded (snap_pile s))
    (snap_turn s) (snap_spin s) (snap_rules s).

(** ** Observations and scenarios *)

(** The players a jump-in question went to, in order. *)
Definition questioned (lines : list Line) : list nat :=
  flat_map (fun l => match l with
                     | LJumpQuestion p _ => [p]
                     | _ => []
                     end) lines.

Definition holds_equal (g : UnoGame) (p card : nat) : bool :=
  existsb (fun r => ref_eq g r card) (hand_of g p).

(** [player is self.player_from_turn(self.next_turn)] *)
Definition is_next_player (g : UnoGame) (p : nat) : bool :=
  match player_from_turn g (next_turn g) with
  | Some q => Nat.eqb p q
  | None => false
  end.

Definition never_jumped_on (c : Card) : bool :=
  isinstance c CWild || isinstance c CDrawFour.

(** Who is asked by [play_jump_in]: the guard of its outer loop leaves out
    the next player when the card is a skip. *)
Definition jump_in_eligible (g : UnoGame) (card p : nat) : bool :=
  negb (never_jumped_on (card_at g card))
  && holds_equal g p card
  && negb (is_next_player g p && isinstance (card_at g card) CSkip).

(** Who is asked in the words of the specification: everyone but the next
    player, who is asked too when the card is a skip. *)
Definition spec_jump_in_eligible (g : UnoGame) (card p : nat) : bool :=
  negb (never_jumped_on (card_at g card))
  && holds_equal g p card
  && (negb (is_next_player g p) || isinstance (card_at g card) CSkip).

(** Every reference the game holds: deck, pile and all hands. *)
Definition all_refs (g : UnoGame) : list nat :=
  deck g ++ pile g ++ flat_map hand (player_list g).

(** [|deck| + |pile| + sum of |hand|] *)
Definition card_total (g : UnoGame) : nat := List.length (all_refs g).

(** Decision sequences used below: always the first option (for a yes/no
    question: yes), always the second (no). *)
Definition first_option : nat -> nat := fun _ => 0.
Definition second_option : nat -> nat := fun _ => 1.

(** Robot players named as [__init__] names them, with the given hands. *)
Definition robots (hands : list (list nat)) : list Player :=
  map (fun '(i, h) =>
         mkPlayer ("Player " ++ str_of_int (Z.of_nat (S i)))%string false h)
      (combine (seq 0 (List.length hands)) hands).

(** Stacking on, two draw twos on top of the pile once player 1 has played
    the blue one; player 2 holds no draw two. *)
Definition stacked_draw_two : UnoGame :=
  mkGame [NumberedCard Red 3; DrawTwoCard Red; DrawTwoCard Blue;
          NumberedCard Blue 1; NumberedCard Red 9; NumberedCard Green 1;
          NumberedCard Green 2; NumberedCard Green 3; NumberedCard Green 4;
          NumberedCard Green 5]
         (robots [[2; 3]; [4]]) [5; 6; 7; 8; 9] [0; 1]
         1 1 false true false [] 0.

(** Jump-in on: player 1 is about to play the green draw two (reference 1),
    player 3 holds the other green draw two (reference 4). *)
Definition draw_two_jump_in : UnoGame :=
  mkGame [NumberedCard Green 1; DrawTwoCard Green; NumberedCard Red 2;
          NumberedCard Red 3; DrawTwoCard Green; NumberedCard Blue 4;
          NumberedCard Blue 6; NumberedCard Blue 8; NumberedCard Yellow 6;
          NumberedCard Yellow 8; NumberedCard Yellow 1; NumberedCard Yellow 2]
         (robots [[1; 2]; [3]; [4; 5]]) [6; 7; 8; 9; 10; 11] [0]
         1 1 true false false [] 0.

(** Player 1 cannot play the red 5 on the blue 3; the card on top of the
    deck is a blue 7. *)
Definition drawn_card_playable : UnoGame :=
  mkGame [NumberedCard Blue 3; NumberedCard Red 5; NumberedCard Yellow 1;
          NumberedCard Blue 7; NumberedCard Green 9]
         (robots [[1]; [2]]) [3; 4] [0]
         1 1 false false false [] 0.

(** Player 1 holds a single card, playable on the top card. *)
Definition last_card_game : UnoGame :=
  mkGame [NumberedCard Blue 3; WildCard None; NumberedCard Yellow 1;
          NumberedCard Blue 7]
         (robots [[1]; [2]]) [3] [0]
         1 1 true true true [] 0.

(** The game after the refill loop of [deal_card] has run to its end: the
    pile keeps its last card, the others are appended to the deck. *)
Definition refilled (g : UnoGame) : UnoGame :=
  match rev (pile g) with
  | [] => g
  | top :: older => with_deck (with_pile g [top]) (deck g ++ rev older)
  end.

(** One card left in the deck, three cards on the pile. *)
Definition refill_game : UnoGame :=
  mkGame [NumberedCard Red 1; NumberedCard Red 2; NumberedCard Red 3;
          NumberedCard Red 4; NumberedCard Blue 5; NumberedCard Blue 6]
         (robots [[4]; [5]]) [3] [0; 1; 2]
         1 1 false false false [] 0.

(** One card left in the deck, a single card on the pile. *)
Definition single_card_pile : UnoGame :=
  mkGame [NumberedCard Red 1; NumberedCard Red 2; NumberedCard Blue 5;
          NumberedCard Blue 6]
         (robots [[2]; [3]]) [0] [1]
         1 1 false false false [] 0.

(** Everything of the game object but the hands, the rule flags, the
    console and the decision counter. *)
Definition table (g : UnoGame) :=
  (objects g, map name (player_list g), deck g, pile g, turn g, spin g).

(** The bodies of the two loops of the zero rule, [g] being the game the
    hands were copied from. *)
Definition pass_forward (g g' : UnoGame) (i : nat) : UnoGame :=
  set_hand g' (i + 1) (nth i (map hand (player_list g)) []).

Definition pass_backward (g g' : UnoGame) (i : nat) : UnoGame :=
  set_hand g' i (nth (i + 1) (map hand (player_list g)) []).

(** Seven-zero on, four players, a red 0 just played by player 1. *)
Definition zero_game (direction : Z) : UnoGame :=
  mkGame [NumberedCard Red 0; NumberedCard Red 1; NumberedCard Red 2;
          NumberedCard Red 3; NumberedCard Red 4]
         (robots [[1]; [2]; [3]; [4]]) [] [0]
         1 direction false false true [] 0.

(** The jump-in questions asked when every answer is no. *)
Section Questions.
Variable g : UnoGame.
Variable card : nat.
(** The questions one hand gives rise to: one per card equal to [card]. *)
Definition hand_questions (p : nat) (cards : list nat) : list Line :=
  if never_jumped_on (card_at g card) then []
  else map (LJumpQuestion p) (filter (fun r => ref_eq g r card) cards).

Definition player_questions (players : list nat) : list Line :=
  flat_map (fun p =>
              if is_next_player g p && isinstance (card_at g card) CSkip
              then [] else hand_questions p (hand_of g p))
           players.

End Questions.

(** The jump-in window after player 1 has played a red 5 (reference 0, on
    top of the pile): player 2, who is next, holds the other red 5. *)
Definition red_five_window : UnoGame :=
  mkGame [NumberedCard Red 5; NumberedCard Red 5; NumberedCard Blue 1;
          NumberedCard Blue 2; NumberedCard Blue 3]
         (robots [[2]; [1; 3]; [4]]) [] [0]
         1 1 true false false [] 0.

(** The same window for a green skip. *)
Definition green_skip_window : UnoGame :=
  mkGame [SkipCard Green; SkipCard Green; NumberedCard Blue 1;
          NumberedCard Blue 2; NumberedCard Blue 3]
         (robots [[2]; [1; 3]; [4]]) [] [0]
         1 1 true false false [] 0.

(** ** The saved dictionary, piece by piece *)

Fixpoint no_colon (s : string) : bool :=
  match s with
  | EmptyString => true
  | String a rest => negb (Ascii.eqb a ":"%char) && no_colon rest
  end.

Definition base_data (g : UnoGame) : list (string * JSON) :=
  [ ("deck", JStrings (map (fun r => repr (card_at g r)) (deck g)));
    ("pile", JStrings (map (fun r => repr (card_at g r)) (pile g)));
    ("turn", JInt (turn g));
    ("spin", JInt (spin g));
    ("jump_in", JBool (jump_in g));
    ("stacking", JBool (stacking g));
    ("seven_zero", JBool (seven_zero g)) ].

Definition player_data (g : UnoGame) (player : Player) : JSON :=
  JDict [ ("human", FBool (human player));
          ("cards", FStrings (map (fun r => repr (card_at g r)) (hand player))) ].

Definition player_entry (g : UnoGame) (player : Player) : string * JSON :=
  (name player, player_data g player).

(** The cards a hand holds, as [from_string] rebuilds them. *)
Definition reloaded_hand (g : UnoGame) (player : Player) : list Card :=
  map reloaded (map (card_at g) (hand player)).

(** The players of the loaded game: the hands refer to the new objects,
    created in order from reference [start] on. *)
Fixpoint loaded_players (start : nat) (players : list Player) : list Player :=
  match players with
  | [] => []
  | pl :: rest =>
      mkPlayer (name pl) (human pl) (seq start (List.length (hand pl)))
      :: loaded_players (start + List.length (hand pl)) rest
  end.

(** A wild card lies on the pile with the colour chosen for it. *)
Definition coloured_wild_game : UnoGame :=
  mkGame [NumberedCard Blue 3; WildCard (Some Red); NumberedCard Yellow 1;
          NumberedCard Blue 7; NumberedCard Green 2]
         (robots [[2]; [3]]) [4] [0; 1]
         2 1 false false false [] 0.

(** ** Sizes *)

(** The number of cards held in hands. *)
Definition hands_total (g : UnoGame) : nat :=
List.length (flat_map hand (player_list g)).

(** The size invariant: [N] cards in all, [n] players. *)
Definition sized (N n : nat) (g : UnoGame) : Prop :=
card_total g = N /\ List.length (player_list g) = n.

(** A call that ended on a missing player: [None] was used as a player. *)
Definition crashed {A : Type} (r : Result A) : bool :=
match r with
| Raise AttributeError _ => true
| _ => false
end.

(** A result that, unless crashed, carries a game of the right size. *)
Definition fine {A : Type} (N n : nat) (r : Result A) : Prop :=
crashed r = false -> sized N n (final r).

(** [m] keeps the size invariant whenever it does not crash. *)
Definition keeps {A : Type} (N n : nat) (m : M A) : Prop :=
forall g, sized N n g -> fine N n (m g).

(** Running [m] on the game a call has built. *)
Definition and_then {A : Type} (built : Result unit) (m : M A) : Result A :=
match built with
| Ok _ g => m g
| Raise e g => Raise e g
| Diverge g => Diverge g
end.

(** [main] on a new game: building it, then [run_game] for some rounds. *)
Definition run_new_game (oracle : nat -> nat) (player_count human_count : nat)
           (jump_in_rule stacking_rule seven_zero_rule : bool)
           (depth turns : nat) : Result unit :=
and_then (new_game oracle player_count human_count
                   jump_in_rule stacking_rule seven_zero_rule)
         (start_game oracle ;; play_turns oracle depth turns).

(** The cards [init_cards] creates, in the order of their creation. *)
Definition new_cards : list Card :=
flat_map (fun colour =>
            [WildCard None; DrawFourCard None]
            ++ List.concat (List.repeat (map (fun i => NumberedCard colour (Z.of_nat i)) (seq 1 9)
                               ++ [SkipCard colour; DrawTwoCard colour; ReverseCard colour])
                              2)
            ++ [NumberedCard colour 0])
         COLOUR_LIST.

(** Decisions of a new game whose very first draw takes the card at
    position 27 of the deck, the second of the four wild cards; every
    later request takes the first option. *)
Definition second_wild_first : nat -> nat :=
fun k => match k with
         | 0 => 27
         | _ => 0
         end.

(** ** Further observations *)

(** What lets a card other than a draw four onto the top card [current],
    read off the branches of the first loop of [playable_cards]. *)
Definition matches_top (c current : Card) : Prop :=
  class_of c = CWild
  \/ (exists k k' n, c = NumberedCard k n /\ current = NumberedCard k' n)
  \/ (class_of c <> CWild /\ colour_of c = colour_of current)
  \/ (class_of c = class_of current
      /\ (class_of c = CSkip \/ class_of c = CReverse \/ class_of c = CDrawTwo)).

(** What dealing leaves alone: the card objects, the players' names and
    kinds, turn, spin, the rules and the console. *)
Definition same_seats (g g' : UnoGame) : Prop :=
  objects g' = objects g
  /\ map name (player_list g') = map name (player_list g)
  /\ map human (player_list g') = map human (player_list g)
  /\ turn g' = turn g /\ spin g' = spin g
  /\ jump_in g' = jump_in g /\ stacking g' = stacking g /\ seven_zero g' = seven_zero g
  /\ console g' = console g.

(** The name [__init__] gives the player created with [count]. *)
Definition player_name (count : nat) : string :=
  ("Player " ++ str_of_int (Z.of_nat count))%string.

(** For [m] players named by [__init__]: every turn number from 1 to [m]
    is looked up to the player at that seat. *)
Definition seats_found (m : nat) : bool :=
  forallb (fun t =>
             match find_index (contains (str_of_int (Z.of_nat t)))
                              (map player_name (seq 1 m)) with
             | Some i => Nat.eqb (S i) t
             | None => false
             end)
          (seq 1 m).

(** Stacking on, two draw fours on top of the pile; player 2 is to draw
    and the deck holds nine cards. *)
Definition stacked_draw_four : UnoGame :=
  mkGame [NumberedCard Red 3; DrawFourCard (Some Red); DrawFourCard (Some Blue);
          NumberedCard Blue 1; NumberedCard Red 9; NumberedCard Green 1;
          NumberedCard Green 2; NumberedCard Green 3; NumberedCard Green 4;
          NumberedCard Green 5; NumberedCard Yellow 1; NumberedCard Yellow 2;
          NumberedCard Yellow 3; NumberedCard Yellow 4]
         (robots [[3]; [4]]) [5; 6; 7; 8; 9; 10; 11; 12; 13] [0; 1; 2]
         1 1 false true false [] 0.

(** Stacking on, player 1 has played the blue draw two (reference 2);
    player 2 holds the green one (reference 4). *)
Definition draw_two_answerable : UnoGame :=
  mkGame [NumberedCard Red 3; DrawTwoCard Red; DrawTwoCard Blue;
          NumberedCard Blue 1; DrawTwoCard Green; NumberedCard Green 1;
          NumberedCard Green 2; NumberedCard Green 3]
         (robots [[3]; [4]]) [5; 6; 7] [0; 1; 2]
         1 1 false true false [] 0.

(** Seven-zero on, four players, a red 7 just played by player 1. *)
Definition seven_game : UnoGame :=
  mkGame [NumberedCard Red 7; NumberedCard Red 1; NumberedCard Red 2;
          NumberedCard Red 3; NumberedCard Red 4]
         (robots [[1]; [2]; [3]; [4]]) [] [0]
         1 1 false false true [] 0.

(** A game about to start: nothing on the pile yet. *)
Definition unstarted_game : UnoGame :=
  mkGame [WildCard None; NumberedCard Red 2; SkipCard Red;
          NumberedCard Blue 5; NumberedCard Blue 6]
         (robots [[3]; [4]]) [0; 1; 2] []
         1 1 false false false [] 0.

(** A loaded game not yet started: the wild card on top of the pile has
    come back without its colour. *)
Definition colourless_top_game : UnoGame :=
  mkGame [NumberedCard Blue 3; WildCard None; NumberedCard Yellow 1;
          NumberedCard Blue 7; NumberedCard Green 2]
         (robots [[2]; [3]]) [4] [0; 1]
         2 1 false false false [] 0.

(** No stacking: player 1 has played the draw four (reference 1). *)
Definition draw_four_game : UnoGame :=
  mkGame [NumberedCard Red 3; DrawFourCard None; NumberedCard Blue 1;
          NumberedCard Red 9; NumberedCard Green 1; NumberedCard Green 2;
          NumberedCard Green 3; NumberedCard Green 4; NumberedCard Green 5]
         (robots [[2]; [3]]) [4; 5; 6; 7; 8] [0; 1]
         1 1 false false false [] 0.

(** The card the [i]-th coming [random.choice(self.deck)] returns, the
    deck staying as it is. *)
Definition picked (oracle : nat -> nat) (g : UnoGame) (i : nat) : option nat :=
  nth_error (deck g) (oracle (asked g + i) mod List.length (deck g)).

(** The [while True] loop of [top_pile_card] round by round: every round
    draws one card of the deck at random and ends the loop only if it is
    numbered.  [rounds] bounds the rounds followed; the loop itself has no
    bound. *)
Fixpoint seed_pile (oracle : nat -> nat) (rounds : nat) : M unit :=
  match rounds with
  | O => diverge
  | S rest =>
      g <- get ;;
      card <- choice oracle (deck g) ;;
      if isinstance (card_at g card) CNumbered
      then
        deck' <- list_remove (deck g) card ;;
        modify (fun g => with_deck g deck') ;;
        modify (fun g => with_pile g (pile g ++ [card]))
      else seed_pile oracle rest
  end.

(** [top_pile_card] with that loop: [self.pile[-1]], and on an empty pile
    the loop followed by [self.pile[-1]] again. *)
Definition top_pile_card_loop (oracle : nat -> nat) (rounds : nat) : M nat :=
  g <- get ;;
  match last_opt (pile g) with
  | Some top => ret top
  | None =>
      seed_pile oracle rounds ;;
      g <- get ;;
      match last_opt (pile g) with
      | Some top => ret top
      | None => raise IndexError
      end
  end.

(** Random picks that go through the deck position by position. *)
Definition in_turn : nat -> nat := fun i => i.

(** * Properties *)

Local Open Scope nat_scope.

(** ** The legality filter *)

Section PlayableFacts.
Context {A : Type} (look : A -> Card).
Variable st : bool.
Variable current : Card.

Let step := first_loop_step look st current.

Lemma first_loop_step_self (x y : A) : In y (step x) -> y = x.
Proof.
  unfold step, first_loop_step; cbn.
  repeat match goal with
         | |- context [if ?b then _ else _] => destruct b
         end; cbn; intuition congruence.
Qed.

(** The first loop lets a draw four in only to stack it on a draw four. *)
Lemma first_loop_step_draw_four (x : A) :
  isinstance (look x) CDrawFour = true ->
  step x = if isinstance current CDrawFour && st then [x] else [].
Proof.
  unfold step, first_loop_step; cbn.
  destruct (look x); cbn; try discriminate; intros _.
  destruct (isinstance current CDrawFour), st; cbn; try reflexivity;
    destruct current; cbn; try reflexivity;
    repeat match goal with
           | |- context [opt_colour_eqb ?a ?b] => destruct (opt_colour_eqb a b)
           end; reflexivity.
Qed.

Lemma first_loop_in_hand (hand : list A) (y : A) :
  In y (flat_map step hand) -> In y hand /\ In y (step y).
Proof.
  intros H. apply in_flat_map in H. destruct H as [x [Hx Hy]].
  pose proof (first_loop_step_self _ _ Hy) as E. subst y. auto.
Qed.

Lemma second_loop_nonempty (p : list A) (hand : list A) :
  p <> [] -> second_loop look p hand = p.
Proof.
  revert p. induction hand as [|c rest IH]; intros p Hp; cbn; [reflexivity|].
  destruct p as [|a p']; [congruence|]. apply IH. discriminate.
Qed.

(** On an empty list the second loop appends the first draw four. *)
Lemma second_loop_empty (hand : list A) :
  second_loop look [] hand =
  match find (fun c => isinstance (look c) CDrawFour) hand with
  | Some d => [d]
  | None => []
  end.
Proof.
  induction hand as [|c rest IH]; cbn; [reflexivity|].
  destruct (isinstance (look c) CDrawFour); cbn; [|exact IH].
  apply second_loop_nonempty. discriminate.
Qed.
End PlayableFacts.

(** With a draw four in the hand, the playable list contains a draw four
    exactly when stacking is on and the top card is a draw four, or the
    list holds no other card of the hand. *)
Lemma draw_four_in_filter {A : Type} (look : A -> Card)
        (st : bool) (current : Card) (hand : list A) :
  (exists d, In d hand /\ isinstance (look d) CDrawFour = true) ->
  ((exists d, In d (playable_of look st current hand)
              /\ isinstance (look d) CDrawFour = true)
   <->
   ((st = true /\ isinstance current CDrawFour = true)
    \/ (forall y, In y hand -> isinstance (look y) CDrawFour = false ->
                  ~ In y (playable_of look st current hand)))).
Proof.
  intros [d [Hd Hdf]]. unfold playable_of.
  set (F := flat_map (first_loop_step look st current) hand).
  destruct (isinstance current CDrawFour && st) eqn:Estack.
  - (* stacking on a draw four: every draw four passes the first loop *)
    apply andb_prop in Estack. destruct Estack as [Ecur Est].
    assert (HdF : In d F).
    { unfold F. apply in_flat_map. exists d. split; [assumption|].
      rewrite (first_loop_step_draw_four look st current d Hdf).
      rewrite Ecur, Est. cbn. auto. }
    rewrite second_loop_nonempty by (intros E; rewrite E in HdF; inversion HdF).
    split; intros _; [left; auto | exists d; auto].
  - (* otherwise the first loop holds no draw four *)
    assert (HnoDF : forall y, In y F -> isinstance (look y) CDrawFour = false).
    { intros y Hy. destruct (isinstance (look y) CDrawFour) eqn:E; [|reflexivity].
      apply first_loop_in_hand in Hy. destruct Hy as [_ Hy].
      rewrite (first_loop_step_draw_four look st current y E), Estack in Hy.
      inversion Hy. }
    destruct F as [|f F'] eqn:EF.
    + rewrite second_loop_empty.
      destruct (find (fun c => isinstance (look c) CDrawFour) hand) as [d0|] eqn:Efind.
      * apply find_some in Efind. destruct Efind as [Hd0 Hd0f].
        split; intros _.
        -- right. intros y _ Hy [E|[]]. subst y. congruence.
        -- exists d0. split; [left; reflexivity | assumption].
      * exfalso. pose proof (find_none _ _ Efind d Hd) as Hn. cbn in Hn. congruence.
    + rewrite second_loop_nonempty by discriminate.
      split.
      * intros [x [Hx Hxf]]. rewrite (HnoDF x Hx) in Hxf. discriminate.
      * intros [[Est Ecur] | Hall].
        -- rewrite Est, Ecur in Estack. discriminate.
        -- exfalso. apply (Hall f).
           ++ assert (Hf : In f (flat_map (first_loop_step look st current) hand)).
              { fold F. rewrite EF. left; reflexivity. }
              apply first_loop_in_hand in Hf. tauto.
           ++ apply HnoDF. left; reflexivity.
           ++ left; reflexivity.
Qed.

(** ** Basic facts about the game object *)

Lemma nth_error_list_set_same {A : Type} (l : list A) (i : nat) (x y : A) :
  nth_error l i = Some y -> nth_error (list_set l i x) i = Some x.
Proof.
  revert i; induction l as [|h t IH]; intros [|i] H; cbn in *;
    try discriminate; auto.
Qed.

Lemma nth_error_list_set_other {A : Type} (l : list A) (i j : nat) (x : A) :
  i <> j -> nth_error (list_set l i x) j = nth_error l j.
Proof.
  revert i j; induction l as [|h t IH]; intros [|i] [|j] H; cbn in *;
    try congruence; auto.
Qed.

Lemma length_list_set {A : Type} (l : list A) (i : nat) (x : A) :
  List.length (list_set l i x) = List.length l.
Proof.
  revert i; induction l as [|h t IH]; intros [|i]; cbn; auto.
Qed.

Lemma hand_of_set_hand_same (g : UnoGame) (p : nat) (h : list nat) (pl : Player) :
  nth_error (player_list g) p = Some pl -> hand_of (set_hand g p h) p = h.
Proof.
  intros H. unfold hand_of, set_hand. rewrite H. cbn.
  rewrite (nth_error_list_set_same _ _ _ _ H). reflexivity.
Qed.

Lemma hand_of_set_hand_other (g : UnoGame) (p q : nat) (h : list nat) :
  p <> q -> hand_of (set_hand g p h) q = hand_of g q.
Proof.
  intros H. unfold hand_of, set_hand.
  destruct (nth_error (player_list g) p) as [pl|]; [|reflexivity]. cbn.
  rewrite nth_error_list_set_other by assumption. reflexivity.
Qed.

Lemma name_of_set_hand (g : UnoGame) (p : nat) (h : list nat) (q : nat) :
  name_of (set_hand g p h) q = name_of g q.
Proof.
  unfold name_of, set_hand.
  destruct (nth_error (player_list g) p) as [pl|] eqn:E; [|reflexivity]. cbn.
  destruct (Nat.eq_dec p q) as [->|Hne].
  - rewrite (nth_error_list_set_same _ _ _ _ E), E. reflexivity.
  - rewrite nth_error_list_set_other by assumption. reflexivity.
Qed.

Lemma length_set_hand (g : UnoGame) (p : nat) (h : list nat) :
  List.length (player_list (set_hand g p h)) = List.length (player_list g).
Proof.
  unfold set_hand. destruct (nth_error (player_list g) p); [|reflexivity].
  cbn. apply length_list_set.
Qed.

Lemma play_card_unfold (oracle : nat -> nat) (depth player card : nat) :
  play_card oracle depth player card =
  (g <- get ;;
   print (LPlayed (name_of g player) (card_at g card)) ;;
   hand' <- list_remove (hand_of g player) card ;;
   modify (fun g => set_hand g player hand') ;;
   modify (fun g => with_pile g (pile g ++ [card])) ;;
   g <- get ;;
   (match List.length (hand_of g player) with
    | 0 => print (LWon (name_of g player)) ;; raise SystemExit
    | 1 => print (LOneLeft (name_of g player))
    | _ => ret tt
    end) ;;
   if jump_in g
   then play_jump_in oracle
          (match depth with
           | O => fun _ _ => diverge
           | S d => play_card oracle d
           end) card
   else play oracle card).
Proof. destruct depth; reflexivity. Qed.

(** ** Winning ends the play *)

(** C10. When removing the played card leaves the hand empty, [play_card]
    ends in [SystemExit] right after the card went onto the pile: the game
    object differs from the one before only by that hand, the pile and the
    two console lines.  No colour was written, nothing was drawn, turn and
    spin are untouched, no hand was swapped or rotated and no decision (jump-in
    question or colour) was requested. *)
Theorem play_card_last_card_exits (oracle : nat -> nat) (depth : nat)
        (g : UnoGame) (player card : nat) :
  remove_first (fun y => ref_eq g y card) (hand_of g player) = Some [] ->
  play_card oracle depth player card g =
  Raise SystemExit
        (with_console
           (with_pile (set_hand g player []) (pile g ++ [card]))
           (console g ++ [LPlayed (name_of g player) (card_at g card);
                          LWon (name_of g player)])).
Proof.
  intros Hrem.
  assert (Hpl : exists pl, nth_error (player_list g) player = Some pl).
  { unfold hand_of in Hrem. destruct (nth_error (player_list g) player) as [pl|].
    - eauto.
    - discriminate. }
  destruct Hpl as [pl Hpl].
  rewrite play_card_unfold.
  set (L := console g ++ [LPlayed (name_of g player) (card_at g card)]).
  assert (E : list_remove (hand_of g player) card (with_console g L)
              = Ok [] (with_console g L)).
  { unfold list_remove.
    change (remove_first (fun y => ref_eq (with_console g L) y card) (hand_of g player))
      with (remove_first (fun y => ref_eq g y card) (hand_of g player)).
    rewrite Hrem. reflexivity. }
  unfold bind at 1. unfold get at 1. cbv beta iota.
  unfold bind at 1. unfold print at 1, modify at 1. cbv beta iota. fold L.
  unfold bind at 1. rewrite E.
  unfold bind at 1. unfold modify at 1. cbv beta iota.
  unfold bind at 1. unfold modify at 1. cbv beta iota.
  unfold bind at 1. unfold get at 1. cbv beta iota.
  set (g2 := with_pile _ _).
  assert (Hh : hand_of g2 player = []).
  { unfold g2.
    change (hand_of (set_hand (with_console g L) player []) player = []).
    apply (hand_of_set_hand_same _ _ _ pl). exact Hpl. }
  unfold bind at 1. rewrite Hh. cbn [List.length].
  unfold bind at 1. unfold print, modify, raise.
  assert (Hn : name_of g2 player = name_of g player).
  { unfold g2.
    change (name_of (set_hand (with_console g L) player []) player = name_of g player).
    rewrite name_of_set_hand. reflexivity. }
  rewrite Hn. f_equal. unfold g2, L.
  unfold set_hand. cbn [player_list with_console]. rewrite Hpl.
  unfold with_console, with_pile, with_players; cbn.
  rewrite <- app_assoc. reflexivity.
Qed.

Lemma play_card_last_card_exits_witness :
  remove_first (fun y => ref_eq last_card_game y 1) (hand_of last_card_game 0)
  = Some []
  /\ play_card first_option 3 0 1 last_card_game =
     Raise SystemExit
           (with_console
              (with_pile (set_hand last_card_game 0 []) (pile last_card_game ++ [1]))
              (console last_card_game
               ++ [LPlayed (name_of last_card_game 0) (card_at last_card_game 1);
                   LWon (name_of last_card_game 0)])).
Proof.
  split; [reflexivity|].
  apply (play_card_last_card_exits first_option 3 last_card_game 0 1).
  reflexivity.
Defined.

(** ** Forced draws *)

(** C1, at [stacked_draw_two]: player 1 plays the blue draw two onto the red
    one, so the run on the pile has length two and the console announces
    four cards, yet player 2 receives two cards only ([range(2)] in
    [DrawTwoCard.activate], where [DrawFourCard.activate] has
    [range(4 * count)]). *)
Example stacked_draw_two_deals_two :
  let r := play_card first_option 0 0 2 stacked_draw_two in
  (exists g', r = Ok tt g')
  /\ map (card_at (final r)) (pile (final r))
     = [NumberedCard Red 3; DrawTwoCard Red; DrawTwoCard Blue]
  /\ In (LMustDraw "Player 2" 4) (console (final r))
  /\ hand_of stacked_draw_two 1 = [4]
  /\ hand_of (final r) 1 = [4; 5; 6]
  /\ deck (final r) = [7; 8; 9].
Proof.
  vm_compute. repeat split; eauto.
Qed.

(** ** Jump-in *)

(** C3, at [draw_two_jump_in]: player 1 plays a green draw two, player 3
    answers yes and plays the other one.  The jump-in card makes player 1
    draw two cards, and when the loop over the players is through the
    first card is played as well: player 2 draws two more. *)
Example jump_in_applies_both_effects :
  let r := play_card first_option 5 0 1 draw_two_jump_in in
  (exists g', r = Ok tt g')
  /\ console (final r)
     = [LPlayed "Player 1" (DrawTwoCard Green); LOneLeft "Player 1";
        LJumpQuestion 2 4; LJumpingIn "Player 3" (DrawTwoCard Green);
        LPlayed "Player 3" (DrawTwoCard Green); LOneLeft "Player 3";
        LMustDraw "Player 1" 2; LMustDraw "Player 2" 2]
  /\ map hand (player_list draw_two_jump_in) = [[1; 2]; [3]; [4; 5]]
  /\ map hand (player_list (final r)) = [[2; 6; 7]; [3; 8; 9]; [5]]
  /\ pile (final r) = [0; 1; 4]
  /\ turn (final r) = 2%Z.
Proof.
  vm_compute. repeat split; eauto.
Qed.

(** ** Drawing when nothing can be played *)

(** C4, at [drawn_card_playable]: player 1 draws the blue 7, which can be
    played on the blue 3, and keeps it: the list tested after the draw is
    the one computed before it, which is empty.  The pile is unchanged and
    the turn moves on. *)
Example drawn_card_is_not_played :
  let r := take_turn first_option 3 drawn_card_playable in
  (exists g', r = Ok tt g')
  /\ playable_of (card_at drawn_card_playable) false
                 (NumberedCard Blue 3) (hand_of drawn_card_playable 0) = []
  /\ hand_of (final r) 0 = [1; 3]
  /\ playable_of (card_at (final r)) false
                 (NumberedCard Blue 3) (hand_of (final r) 0) = [3]
  /\ pile (final r) = pile drawn_card_playable
  /\ turn (final r) = 2%Z.
Proof.
  vm_compute. repeat split; eauto.
Qed.

(** ** Dealing and refilling the deck *)

Lemma Colour_eqb_refl k : Colour_eqb k k = true.
Proof. destruct k; reflexivity. Qed.

Lemma card_eq_refl c : card_eq c c = true.
Proof.
  destruct c as [k n|k|k|k|[k|]|[k|]]; cbn;
    rewrite ?Colour_eqb_refl, ?Z.eqb_refl; reflexivity.
Qed.

Lemma ref_eq_refl g r : ref_eq g r r = true.
Proof. apply card_eq_refl. Qed.

(** One round of the refill loop moves the bottom card of the pile. *)
Lemma refill_step_cons g c rest :
  pile g = c :: rest ->
  refill_step g = Ok tt (with_deck (with_pile g rest) (deck g ++ [c])).
Proof.
  intros Hp. unfold refill_step, bind, get, list_remove, modify.
  rewrite Hp. cbn [remove_first]. rewrite ref_eq_refl. reflexivity.
Qed.

Lemma refill_loop g older top :
  pile g = older ++ [top] ->
  repeat_do (List.length older) refill_step g
  = Ok tt (with_deck (with_pile g [top]) (deck g ++ older)).
Proof.
  revert g. induction older as [|c rest IH]; intros g Hp; cbn [List.length repeat_do].
  - cbn in Hp. unfold ret. rewrite app_nil_r. rewrite <- Hp.
    destruct g; reflexivity.
  - unfold bind. rewrite (refill_step_cons g c (rest ++ [top])) by exact Hp.
    rewrite IH by reflexivity. cbn. rewrite <- app_assoc. reflexivity.
Qed.

Lemma choice_singleton {A} oracle (x : A) g :
  choice oracle [x] g = Ok x (with_asked g (S (asked g))).
Proof.
  unfold choice. cbn [List.length]. rewrite Nat.mod_1_r. reflexivity.
Qed.

Lemma choice_nonempty {A} oracle (l : list A) g :
  l <> [] ->
  exists x, In x l /\ choice oracle l g = Ok x (with_asked g (S (asked g))).
Proof.
  intros Hl. unfold choice.
  assert (Hlen : List.length l <> 0) by (destruct l; cbn; congruence).
  destruct (nth_error l (oracle (asked g) mod List.length l)) as [x|] eqn:E.
  - exists x. split; [eapply nth_error_In; eauto | reflexivity].
  - exfalso. apply nth_error_None in E.
    pose proof (Nat.mod_upper_bound (oracle (asked g)) (List.length l) Hlen). lia.
Qed.


Lemma refill_all g :
  repeat_do (List.length (pile g) - 1) refill_step g = Ok tt (refilled g).
Proof.
  unfold refilled.
  destruct (rev (pile g)) as [|top older] eqn:E.
  - assert (Hp : pile g = []) by (destruct (pile g); [reflexivity | apply (f_equal (@List.length nat)) in E; rewrite length_rev in E; discriminate]).
    rewrite Hp. reflexivity.
  - assert (Hp : pile g = rev older ++ [top]).
    { rewrite <- (rev_involutive (pile g)), E. reflexivity. }
    rewrite Hp at 1. rewrite length_app. cbn [List.length].
    replace (List.length (rev older) + 1 - 1) with (List.length (rev older)) by lia.
    apply refill_loop. exact Hp.
Qed.

Lemma remove_first_In (f : nat -> bool) (l : list nat) (c : nat) :
  In c l -> f c = true ->
  exists l', remove_first f l = Some l' /\ List.length l = S (List.length l').
Proof.
  induction l as [|y rest IH]; intros Hin Hf; [inversion Hin|].
  cbn. destruct (f y) eqn:Ey.
  - eauto.
  - destruct Hin as [->|Hin]; [congruence|].
    destruct (IH Hin Hf) as [l' [E Hl]]. rewrite E. cbn.
    eexists; split; [reflexivity | cbn; lia].
Qed.

Section SetHandFields.
Variables (g : UnoGame) (p : nat) (h : list nat).
Lemma objects_set_hand : objects (set_hand g p h) = objects g.
Proof. unfold set_hand; destruct (nth_error (player_list g) p); reflexivity. Qed.
Lemma deck_set_hand : deck (set_hand g p h) = deck g.
Proof. unfold set_hand; destruct (nth_error (player_list g) p); reflexivity. Qed.
Lemma pile_set_hand : pile (set_hand g p h) = pile g.
Proof. unfold set_hand; destruct (nth_error (player_list g) p); reflexivity. Qed.
Lemma turn_set_hand : turn (set_hand g p h) = turn g.
Proof. unfold set_hand; destruct (nth_error (player_list g) p); reflexivity. Qed.
Lemma spin_set_hand : spin (set_hand g p h) = spin g.
Proof. unfold set_hand; destruct (nth_error (player_list g) p); reflexivity. Qed.
Lemma asked_set_hand : asked (set_hand g p h) = asked g.
Proof. unfold set_hand; destruct (nth_error (player_list g) p); reflexivity. Qed.
Lemma console_set_hand : console (set_hand g p h) = console g.
Proof. unfold set_hand; destruct (nth_error (player_list g) p); reflexivity. Qed.
End SetHandFields.

(** What a successful [deal_card] does: some card [c] of the deck is
    picked, the first deck entry equal to it is taken out, [c] joins the
    hand, and an emptied deck is refilled from the pile. *)
Lemma deal_card_spec oracle g p pl :
  deck g <> [] ->
  nth_error (player_list g) p = Some pl ->
  exists c deck',
    In c (deck g)
    /\ remove_first (fun y => ref_eq g y c) (deck g) = Some deck'
    /\ deal_card oracle (Some p) g
       = Ok c (let g1 := set_hand (with_deck (with_asked g (S (asked g))) deck')
                                  p (hand pl ++ [c]) in
               match deck' with
               | [] => refilled g1
               | _ :: _ => g1
               end).
Proof.
  intros Hd Hpl.
  destruct (choice_nonempty oracle (deck g) g Hd) as [c [Hin Hc]].
  destruct (remove_first_In (fun y => ref_eq g y c) (deck g) c Hin (ref_eq_refl g c))
    as [deck' [Hrem _]].
  exists c, deck'. split; [exact Hin|]. split; [exact Hrem|].
  unfold deal_card.
  unfold bind at 1. unfold get at 1. cbv beta iota.
  unfold bind at 1. rewrite Hc.
  unfold bind at 1. unfold list_remove.
  change (remove_first (fun y => ref_eq (with_asked g (S (asked g))) y c) (deck g))
    with (remove_first (fun y => ref_eq g y c) (deck g)).
  rewrite Hrem.
  unfold bind at 1. unfold modify at 1. cbv beta iota.
  unfold bind at 1. unfold deref, ret.
  unfold bind at 1. unfold modify at 1. cbv beta iota.
  unfold bind at 1. unfold get at 1. cbv beta iota.
  change (hand_of (with_deck (with_asked g (S (asked g))) deck') p) with (hand_of g p).
  replace (hand_of g p) with (hand pl) by (unfold hand_of; rewrite Hpl; reflexivity).
  set (g1 := set_hand _ p _).
  assert (Hdeck : deck g1 = deck') by (unfold g1; rewrite deck_set_hand; reflexivity).
  unfold bind. rewrite Hdeck.
  destruct deck' as [|d ds].
  - rewrite refill_all. reflexivity.
  - reflexivity.
Qed.

(** C7 (amended). When the deck holds a single card and the pile is
    [older ++ [top]], dealing that card leaves the deck holding exactly
    [older], in order, and the pile holding [top] alone; when [older] is
    not empty (a pile of at least two cards) a further draw returns a card
    for any player. *)
Theorem deal_last_card_refills (oracle : nat -> nat) (g : UnoGame)
        (p c top : nat) (older : list nat) (pl : Player) :
  deck g = [c] ->
  pile g = older ++ [top] ->
  nth_error (player_list g) p = Some pl ->
  exists g',
    deal_card oracle (Some p) g = Ok c g'
    /\ deck g' = older
    /\ pile g' = [top]
    /\ hand_of g' p = hand pl ++ [c]
    /\ (older <> [] -> forall q pl', nth_error (player_list g') q = Some pl' ->
        exists c' g'', deal_card oracle (Some q) g' = Ok c' g'').
Proof.
  intros Hd Hp Hpl.
  destruct (deal_card_spec oracle g p pl) as [c0 [deck' [Hin [Hrem Hdc]]]];
    [rewrite Hd; discriminate | exact Hpl |].
  rewrite Hd in Hin, Hrem. destruct Hin as [<-|[]].
  cbn [remove_first] in Hrem. rewrite ref_eq_refl in Hrem. injection Hrem as <-.
  cbv zeta iota in Hdc.
  set (g1 := set_hand (with_deck (with_asked g (S (asked g))) []) p (hand pl ++ [c])) in *.
  assert (Hp1 : pile g1 = older ++ [top]) by (unfold g1; rewrite pile_set_hand; exact Hp).
  assert (Hd1 : deck g1 = []) by (unfold g1; rewrite deck_set_hand; reflexivity).
  assert (Hr : refilled g1 = with_deck (with_pile g1 [top]) older).
  { unfold refilled. rewrite Hp1, rev_app_distr. cbn [rev app].
    rewrite Hd1, rev_involutive. reflexivity. }
  rewrite Hr in Hdc.
  exists (with_deck (with_pile g1 [top]) older).
  split; [exact Hdc|]. split; [reflexivity|]. split; [reflexivity|].
  split.
  - change (hand_of g1 p = hand pl ++ [c]). unfold g1.
    apply (hand_of_set_hand_same _ _ _ pl). exact Hpl.
  - intros Hne q pl' Hq.
    destruct (deal_card_spec oracle (with_deck (with_pile g1 [top]) older) q pl')
      as [c' [deck'' [_ [_ Hdc']]]]; [exact Hne | exact Hq |].
    eauto.
Qed.

Lemma deal_last_card_refills_witness :
  deck refill_game = [3]
  /\ pile refill_game = [0; 1] ++ [2]
  /\ nth_error (player_list refill_game) 0 = Some (mkPlayer "Player 1" false [4])
  /\ exists g',
      deal_card first_option (Some 0) refill_game = Ok 3 g'
      /\ deck g' = [0; 1]
      /\ pile g' = [2]
      /\ hand_of g' 0 = hand (mkPlayer "Player 1" false [4]) ++ [3]
      /\ ([0; 1] <> [] -> forall q pl', nth_error (player_list g') q = Some pl' ->
          exists c' g'', deal_card first_option (Some q) g' = Ok c' g'').
Proof.
  repeat (split; [reflexivity|]).
  apply (deal_last_card_refills first_option refill_game 0 3 2 [0; 1]
                                (mkPlayer "Player 1" false [4]));
    reflexivity.
Defined.

(** C7 as stated fails on a pile of one card: the refill loop has nothing
    to move, the deck stays empty and the next draw raises [IndexError]. *)
Lemma refill_single_card_pile_fails :
  deck single_card_pile = [0]
  /\ pile single_card_pile = [1]
  /\ exists g',
      deal_card first_option (Some 0) single_card_pile = Ok 0 g'
      /\ deck g' = []
      /\ pile g' = [1]
      /\ deal_card first_option (Some 1) g' = Raise IndexError g'.
Proof.
  split; [reflexivity|]. split; [reflexivity|].
  eexists. split; [vm_compute; reflexivity|].
  vm_compute. auto.
Qed.

(** ** The zero rule: handing the hands round *)

Lemma for_each_modify {A} (xs : list A) (f : A -> UnoGame -> UnoGame) g :
  for_each xs (fun x => modify (f x)) g = Ok tt (fold_left (fun g x => f x g) xs g).
Proof.
  revert g. induction xs as [|x rest IH]; intros g; cbn; [reflexivity|].
  unfold bind, modify at 1. apply IH.
Qed.

Lemma nth_hands g i : nth i (map hand (player_list g)) [] = hand_of g i.
Proof.
  unfold hand_of. generalize (player_list g). intros l. revert i.
  induction l as [|pl rest IH]; intros [|i]; cbn; auto.
Qed.

Lemma hand_of_set_hand g p h q :
  p < List.length (player_list g) ->
  hand_of (set_hand g p h) q = if Nat.eqb p q then h else hand_of g q.
Proof.
  intros Hp. destruct (Nat.eqb_spec p q) as [->|Hne].
  - destruct (nth_error (player_list g) q) as [pl|] eqn:E.
    + eapply hand_of_set_hand_same; eauto.
    + apply nth_error_None in E. lia.
  - apply hand_of_set_hand_other. assumption.
Qed.

Lemma names_list_set (l : list Player) p pl h :
  nth_error l p = Some pl ->
  map name (list_set l p (mkPlayer (name pl) (human pl) h)) = map name l.
Proof.
  revert p. induction l as [|x rest IH]; intros [|p] H; cbn in *; try discriminate.
  - injection H as ->. reflexivity.
  - f_equal. auto.
Qed.

Lemma names_set_hand g p h :
  map name (player_list (set_hand g p h)) = map name (player_list g).
Proof.
  unfold set_hand. destruct (nth_error (player_list g) p) as [pl|] eqn:E; [|reflexivity].
  cbn. apply names_list_set. exact E.
Qed.

Lemma table_set_hand g p h : table (set_hand g p h) = table g.
Proof.
  unfold table. rewrite names_set_hand.
  rewrite objects_set_hand, deck_set_hand, pile_set_hand, turn_set_hand, spin_set_hand.
  reflexivity.
Qed.

Section Rotation.
Variable g : UnoGame.
Let n := List.length (player_list g).

Lemma pass_forward_loop (m : nat) :
  m <= n - 1 ->
  let g2 := fold_left (pass_forward g) (seq 0 m) g in
  List.length (player_list g2) = n
  /\ table g2 = table g
  /\ forall j, hand_of g2 j =
               if (1 <=? j) && (j <=? m) then hand_of g (j - 1) else hand_of g j.
Proof.
  induction m as [|m IH]; intros Hm; cbn zeta.
  - split; [reflexivity|]. split; [reflexivity|]. intros j. cbn [seq fold_left].
    destruct (1 <=? j) eqn:E1; destruct (j <=? 0) eqn:E2; cbn [andb]; try reflexivity.
    apply Nat.leb_le in E1, E2. lia.
  - rewrite seq_S, fold_left_app. cbn [fold_left Nat.add].
    destruct IH as [Hlen [Htab Hh]]; [lia|].
    set (g2 := fold_left (pass_forward g) (seq 0 m) g) in *.
    assert (E : pass_forward g g2 m = set_hand g2 (m + 1) (hand_of g m))
      by (unfold pass_forward; rewrite nth_hands; reflexivity).
    rewrite E.
    split; [rewrite length_set_hand; exact Hlen|].
    split; [rewrite table_set_hand; exact Htab|].
    intros j. rewrite hand_of_set_hand by (rewrite Hlen; lia).
    rewrite Hh.
    destruct (Nat.eqb_spec (m + 1) j) as [<-|Hne].
    + replace (1 <=? m + 1) with true by (symmetry; apply Nat.leb_le; lia).
      replace (m + 1 <=? S m) with true by (symmetry; apply Nat.leb_le; lia).
      cbn. f_equal. lia.
    + destruct (1 <=? j) eqn:E1; cbn; [|reflexivity].
      destruct (j <=? m) eqn:E2; destruct (j <=? S m) eqn:E3; try reflexivity.
      * apply Nat.leb_le in E2. apply Nat.leb_gt in E3. lia.
      * apply Nat.leb_gt in E2. apply Nat.leb_le in E3. lia.
Qed.

Lemma pass_backward_loop (m : nat) :
  m <= n - 1 ->
  let g2 := fold_left (pass_backward g) (seq 0 m) g in
  List.length (player_list g2) = n
  /\ table g2 = table g
  /\ forall j, hand_of g2 j = if j <? m then hand_of g (j + 1) else hand_of g j.
Proof.
  induction m as [|m IH]; intros Hm; cbn zeta.
  - split; [reflexivity|]. split; [reflexivity|]. intros j. reflexivity.
  - rewrite seq_S, fold_left_app. cbn [fold_left Nat.add].
    destruct IH as [Hlen [Htab Hh]]; [lia|].
    set (g2 := fold_left (pass_backward g) (seq 0 m) g) in *.
    assert (E : pass_backward g g2 m = set_hand g2 m (hand_of g (m + 1)))
      by (unfold pass_backward; rewrite nth_hands; reflexivity).
    rewrite E.
    split; [rewrite length_set_hand; exact Hlen|].
    split; [rewrite table_set_hand; exact Htab|].
    intros j. rewrite hand_of_set_hand by (rewrite Hlen; lia).
    rewrite Hh.
    destruct (Nat.eqb_spec m j) as [<-|Hne].
    + replace (m <? S m) with true by (symmetry; apply Nat.ltb_lt; lia). reflexivity.
    + destruct (j <? m) eqn:E2; destruct (j <? S m) eqn:E3; try reflexivity.
      * apply Nat.ltb_lt in E2. apply Nat.ltb_ge in E3. lia.
      * apply Nat.ltb_ge in E2. apply Nat.ltb_lt in E3. lia.
Qed.
End Rotation.

Lemma last_opt_nth {A} (l : list A) (d : A) :
  l <> [] -> last_opt l = Some (nth (List.length l - 1) l d).
Proof.
  intros Hl. destruct (exists_last Hl) as [l' [x ->]].
  unfold last_opt. rewrite rev_app_distr. cbn.
  rewrite length_app. cbn. replace (List.length l' + 1 - 1) with (List.length l') by lia.
  rewrite app_nth2 by lia. rewrite Nat.sub_diag. reflexivity.
Qed.

Lemma rotate_hands_spec g :
  player_list g <> [] ->
  let n := List.length (player_list g) in
  exists g',
    rotate_hands g = Ok tt g'
    /\ table g' = table g
    /\ List.length (player_list g') = n
    /\ forall i, i < n ->
                 hand_of g' i =
                 if (spin g =? 1)%Z
                 then (if Nat.eqb i 0 then hand_of g (n - 1) else hand_of g (i - 1))
                 else (if Nat.eqb i (n - 1) then hand_of g 0 else hand_of g (i + 1)).
Proof.
  intros Hne n.
  assert (Hn : 0 < n) by (unfold n; destruct (player_list g); cbn; [congruence | lia]).
  unfold rotate_hands. unfold bind at 1. unfold get at 1. cbv beta iota zeta.
  rewrite length_map. fold n.
  destruct (spin g =? 1)%Z.
  - unfold bind at 1. unfold bind at 1.
    rewrite (for_each_modify (seq 0 (n - 1))
               (fun i g' => set_hand g' (i + 1) (nth i (map hand (player_list g)) []))).
    change (fold_left _ (seq 0 (n - 1)) g) with (fold_left (pass_forward g) (seq 0 (n - 1)) g).
    destruct (pass_forward_loop g (n - 1) (le_n _)) as [Hlen [Htab Hh]].
    set (g2 := fold_left (pass_forward g) (seq 0 (n - 1)) g) in *.
    rewrite (last_opt_nth _ []) by (destruct (player_list g); cbn; congruence).
    rewrite length_map, nth_hands. fold n.
    unfold modify at 1, print, modify.
    eexists. split; [reflexivity|].
    split; [change (table (set_hand g2 0 (hand_of g (n - 1))) = table g);
            rewrite table_set_hand; exact Htab|].
    split; [change (List.length (player_list (set_hand g2 0 (hand_of g (n - 1)))) = n);
            rewrite length_set_hand; exact Hlen|].
    intros i Hi.
    change (hand_of (set_hand g2 0 (hand_of g (n - 1))) i
            = if Nat.eqb i 0 then hand_of g (n - 1) else hand_of g (i - 1)).
    rewrite hand_of_set_hand by (fold n in Hlen; lia).
    rewrite Hh. destruct i as [|i]; cbn [Nat.eqb]; [reflexivity|].
    replace ((1 <=? S i) && (S i <=? n - 1)) with true; [reflexivity|].
    symmetry. apply andb_true_intro. split; apply Nat.leb_le; lia.
  - unfold bind at 1. unfold bind at 1.
    rewrite (for_each_modify (seq 0 (n - 1))
               (fun i g' => set_hand g' i (nth (i + 1) (map hand (player_list g)) []))).
    change (fold_left _ (seq 0 (n - 1)) g) with (fold_left (pass_backward g) (seq 0 (n - 1)) g).
    destruct (pass_backward_loop g (n - 1) (le_n _)) as [Hlen [Htab Hh]].
    set (g2 := fold_left (pass_backward g) (seq 0 (n - 1)) g) in *.
    destruct (map hand (player_list g)) as [|h0 hs] eqn:Ehands.
    { destruct (player_list g); [congruence | discriminate]. }
    assert (Hh0 : h0 = hand_of g 0).
    { rewrite <- nth_hands, Ehands. reflexivity. }
    unfold modify at 1, print, modify.
    eexists. split; [reflexivity|].
    split; [change (table (set_hand g2 (n - 1) h0) = table g);
            rewrite table_set_hand; exact Htab|].
    split; [change (List.length (player_list (set_hand g2 (n - 1) h0)) = n);
            rewrite length_set_hand; exact Hlen|].
    intros i Hi.
    change (hand_of (set_hand g2 (n - 1) h0) i
            = if Nat.eqb i (n - 1) then hand_of g 0 else hand_of g (i + 1)).
    rewrite hand_of_set_hand by (fold n in Hlen; lia).
    rewrite Hh, Hh0. rewrite (Nat.eqb_sym i).
    destruct (Nat.eqb_spec (n - 1) i) as [E|E]; [reflexivity|].
    replace (i <? n - 1) with true; [reflexivity|].
    symmetry. apply Nat.ltb_lt. lia.
Qed.

(** C8. With seven-zero on, playing a numbered 0 leaves everything but the
    hands as it is (the spin in particular) and hands the cards round: for
    spin [+1] the player at position [i] receives the hand held at
    [(i - 1) mod n] (player 0 the one of player [n - 1]), for spin [-1]
    the hand held at [(i + 1) mod n]. *)
Theorem zero_rotates_hands (oracle : nat -> nat) (g : UnoGame) (card : nat) (k : Colour) :
  seven_zero g = true ->
  card_at g card = NumberedCard k 0 ->
  player_list g <> [] ->
  let n := List.length (player_list g) in
  exists g',
    play oracle card g = Ok tt g'
    /\ table g' = table g
    /\ List.length (player_list g') = n
    /\ (spin g = 1%Z -> forall i, i < n ->
        hand_of g' i = hand_of g (Z.to_nat ((Z.of_nat i - 1) mod Z.of_nat n)))
    /\ (spin g = (-1)%Z -> forall i, i < n ->
        hand_of g' i = hand_of g (Z.to_nat ((Z.of_nat i + 1) mod Z.of_nat n))).
Proof.
  intros Hrule Hcard Hne n.
  destruct (rotate_hands_spec g Hne) as [g' [Hrun [Htab [Hlen Hh]]]].
  fold n in Hlen, Hh.
  exists g'.
  split.
  { unfold play, bind, get. rewrite Hcard. unfold NumberedCard_play, bind, get.
    rewrite Hrule. cbn [Z.eqb]. exact Hrun. }
  split; [exact Htab|]. split; [exact Hlen|].
  split; intros Hspin i Hi; rewrite (Hh i Hi), Hspin; cbn [Z.eqb Pos.eqb].
  - destruct i as [|i]; cbn [Nat.eqb].
    + f_equal.
      replace ((Z.of_nat 0 - 1) mod Z.of_nat n)%Z with (Z.of_nat n - 1)%Z; [lia|].
      apply Z.mod_unique with (q := (-1)%Z); lia.
    + f_equal. rewrite Z.mod_small by lia. lia.
  - destruct (Nat.eqb_spec i (n - 1)) as [E|E].
    + f_equal. replace (Z.of_nat i + 1)%Z with (Z.of_nat n) by lia.
      rewrite Z_mod_same_full. reflexivity.
    + f_equal. rewrite Z.mod_small by lia. lia.
Qed.

Lemma zero_rotates_hands_witness :
  seven_zero (zero_game 1) = true
  /\ card_at (zero_game 1) 0 = NumberedCard Red 0
  /\ player_list (zero_game 1) <> []
  /\ exists g',
      play first_option 0 (zero_game 1) = Ok tt g'
      /\ table g' = table (zero_game 1)
      /\ List.length (player_list g') = 4
      /\ (spin (zero_game 1) = 1%Z -> forall i, i < 4 ->
          hand_of g' i
          = hand_of (zero_game 1) (Z.to_nat ((Z.of_nat i - 1) mod Z.of_nat 4)))
      /\ (spin (zero_game 1) = (-1)%Z -> forall i, i < 4 ->
          hand_of g' i
          = hand_of (zero_game 1) (Z.to_nat ((Z.of_nat i + 1) mod Z.of_nat 4))).
Proof.
  split; [reflexivity|]. split; [reflexivity|]. split; [discriminate|].
  apply (zero_rotates_hands first_option (zero_game 1) 0 Red);
    [reflexivity | reflexivity | discriminate].
Defined.

(** The two directions on four players holding one card each. *)
Example zero_rotation_four_players :
  map hand (player_list (final (play first_option 0 (zero_game 1))))
  = [[4]; [1]; [2]; [3]]
  /\ map hand (player_list (final (play first_option 0 (zero_game (-1)))))
     = [[2]; [3]; [4]; [1]].
Proof. split; reflexivity. Qed.

(** ** Who is offered a jump-in *)

Section QuestionFacts.
Variable g : UnoGame.
Variable card : nat.
Lemma questioned_app (a b : list Line) :
  questioned (a ++ b) = questioned a ++ questioned b.
Proof. unfold questioned. apply flat_map_app. Qed.

Lemma questioned_hand_questions (p q : nat) (cards : list nat) :
  In q (questioned (hand_questions g card p cards)) <->
  q = p /\ never_jumped_on (card_at g card) = false
  /\ existsb (fun r => ref_eq g r card) cards = true.
Proof.
  unfold hand_questions.
  destruct (never_jumped_on (card_at g card)).
  - cbn. split; [intros [] | intros [_ [H _]]; discriminate].
  - induction cards as [|c rest IH]; cbn [filter existsb].
    + cbn. split; [intros [] | intros [_ [_ H]]; discriminate].
    + destruct (ref_eq g c card); cbn [map orb].
      * cbn. split; [intros [E|H] | intros [E _]; left; congruence].
        -- auto.
        -- apply IH in H. tauto.
      * exact IH.
Qed.

Lemma questioned_player_questions (players : list nat) (q : nat) :
  In q (questioned (player_questions g card players)) <->
  In q players /\ jump_in_eligible g card q = true.
Proof.
  unfold jump_in_eligible, holds_equal.
  induction players as [|p rest IH]; cbn [player_questions flat_map].
  - cbn. tauto.
  - rewrite questioned_app, in_app_iff. fold (player_questions g card rest). rewrite IH.
    cbn [In].
    destruct (is_next_player g p && isinstance (card_at g card) CSkip) eqn:Eguard.
    + cbn [questioned flat_map In]. split.
      * intros [[]|[H1 H2]]. tauto.
      * intros [[E|H1] H2]; [|tauto]. subst q. rewrite Eguard in H2.
        rewrite andb_false_r in H2. discriminate.
    + rewrite questioned_hand_questions. split.
      * intros [[E [H1 H2]]|[H1 H2]]; [|tauto]. subst q.
        split; [left; reflexivity|]. rewrite H1, H2, Eguard. reflexivity.
      * intros [[E|H1] H2]; [|tauto]. subst q. left.
        apply andb_prop in H2. destruct H2 as [H2 _].
        apply andb_prop in H2. destruct H2 as [H2 H3].
        apply negb_true_iff in H2. auto.
Qed.
End QuestionFacts.

Section Declined.
Variable oracle : nat -> nat.
Hypothesis declines : forall k, oracle k mod 2 = 1.
Variable play_card_rec : nat -> nat -> M unit.
Variable g : UnoGame.
Variable card : nat.

Lemma choice_declines (g1 : UnoGame) :
  choice oracle [true; false] g1 = Ok false (with_asked g1 (S (asked g1))).
Proof.
  unfold choice. cbn [List.length]. rewrite declines. reflexivity.
Qed.

Lemma jump_in_hand_declined (p : nat) (cards : list nat) :
  forall (L : list Line) (k : nat),
    jump_in_hand oracle play_card_rec card p cards (with_asked (with_console g L) k)
    = Ok tt (with_asked (with_console g (L ++ hand_questions g card p cards))
                        (k + List.length (hand_questions g card p cards))).
Proof.
  unfold hand_questions.
  induction cards as [|pc rest IH]; intros L k.
  - cbn. destruct (never_jumped_on (card_at g card)); cbn;
      rewrite app_nil_r, Nat.add_0_r; reflexivity.
  - cbn [jump_in_hand]. unfold bind at 1, get at 1. cbv beta.
    change (card_at (with_asked (with_console g L) k) card) with (card_at g card).
    change (ref_eq (with_asked (with_console g L) k) pc card) with (ref_eq g pc card).
    change (human_of (with_asked (with_console g L) k) p) with (human_of g p).
    fold (never_jumped_on (card_at g card)).
    destruct (never_jumped_on (card_at g card)) eqn:Ewild.
    + rewrite IH. reflexivity.
    + cbn [filter]. destruct (ref_eq g pc card) eqn:Eeq.
      * unfold bind at 1. unfold print at 1, modify at 1. cbv beta.
        unfold bind at 1.
        replace (if human_of g p then get_input oracle [true; false]
                 else choice oracle [true; false])
          with (choice oracle [true; false]) by (destruct (human_of g p); reflexivity).
        rewrite choice_declines. cbv beta iota.
        change (with_asked (with_console (with_asked (with_console g L) k)
                   (console (with_asked (with_console g L) k) ++ [LJumpQuestion p pc]))
                  (S (asked (with_console (with_asked (with_console g L) k)
                   (console (with_asked (with_console g L) k) ++ [LJumpQuestion p pc])))))
          with (with_asked (with_console g (L ++ [LJumpQuestion p pc])) (S k)).
        rewrite IH. cbn [map List.length]. rewrite <- app_assoc.
        cbn [app]. f_equal. f_equal. lia.
      * rewrite IH. reflexivity.
Qed.

Lemma jump_in_players_declined (players : list nat) :
  forall (L : list Line) (k : nat),
    jump_in_players oracle play_card_rec card players (with_asked (with_console g L) k)
    = Ok tt (with_asked (with_console g (L ++ player_questions g card players))
                        (k + List.length (player_questions g card players))).
Proof.
  unfold jump_in_players.
  induction players as [|p rest IH]; intros L k.
  - cbn. rewrite app_nil_r, Nat.add_0_r. reflexivity.
  - cbn [for_each player_questions flat_map].
    unfold bind at 1. unfold bind at 1, get at 1. cbv beta.
    change (match player_from_turn (with_asked (with_console g L) k)
                    (next_turn (with_asked (with_console g L) k)) with
            | Some p0 => Nat.eqb p p0
            | None => false
            end) with (is_next_player g p).
    change (card_at (with_asked (with_console g L) k) card) with (card_at g card).
    change (hand_of (with_asked (with_console g L) k) p) with (hand_of g p).
    destruct (is_next_player g p && isinstance (card_at g card) CSkip).
    + unfold ret. cbv beta iota. rewrite IH. reflexivity.
    + rewrite jump_in_hand_declined. cbv beta iota. rewrite IH.
      rewrite length_app, <- app_assoc. fold (player_questions g card rest).
      f_equal. f_equal. lia.
Qed.

End Declined.

(** C2 (amended). As long as every jump-in question is answered no, the
    players asked by the loop of [play_jump_in] are exactly those who hold
    a card equal to the played one, the played card being neither a wild
    card nor a draw four, except that the player about to take the next
    turn is left out when the played card is a skip.  The game object
    changes by the questions alone. *)
Theorem declined_jump_in_offers (oracle : nat -> nat)
        (play_card_rec : nat -> nat -> M unit) (g : UnoGame) (card : nat) :
  (forall k, oracle k mod 2 = 1) ->
  exists lines,
    jump_in_players oracle play_card_rec card
                    (seq 0 (List.length (player_list g))) g
    = Ok tt (with_asked (with_console g (console g ++ lines))
                        (asked g + List.length lines))
    /\ forall p, In p (questioned lines) <->
                 (p < List.length (player_list g)
                  /\ jump_in_eligible g card p = true).
Proof.
  intros Hdecl.
  exists (player_questions g card (seq 0 (List.length (player_list g)))).
  split.
  - pose proof (jump_in_players_declined oracle Hdecl play_card_rec g card
                  (seq 0 (List.length (player_list g))) (console g) (asked g)) as H.
    replace (with_asked (with_console g (console g)) (asked g)) with g in H
      by (destruct g; reflexivity).
    exact H.
  - intros p. rewrite questioned_player_questions, in_seq. intuition lia.
Qed.


Lemma declined_jump_in_offers_witness :
  (forall k, second_option k mod 2 = 1)
  /\ exists lines,
      jump_in_players second_option (fun _ _ => diverge) 0
                      (seq 0 (List.length (player_list red_five_window)))
                      red_five_window
      = Ok tt (with_asked (with_console red_five_window
                                        (console red_five_window ++ lines))
                          (asked red_five_window + List.length lines))
      /\ forall p, In p (questioned lines) <->
                   (p < List.length (player_list red_five_window)
                    /\ jump_in_eligible red_five_window 0 p = true).
Proof.
  split; [intros k; reflexivity|].
  apply (declined_jump_in_offers second_option (fun _ _ => diverge) red_five_window 0).
  intros k; reflexivity.
Defined.

(** C2 as stated fails both ways.  After a red 5 the next player, holding
    the other red 5, is asked, where the claim leaves the next player out;
    after a green skip the next player, holding the other green skip, is
    not asked, where the claim has that player asked. *)
Lemma jump_in_next_player_counterexample :
  is_next_player red_five_window 1 = true
  /\ questioned (console (final (play_jump_in second_option (fun _ _ => diverge)
                                              0 red_five_window))) = [1]
  /\ spec_jump_in_eligible red_five_window 0 1 = false
  /\ is_next_player green_skip_window 1 = true
  /\ questioned (console (final (play_jump_in second_option (fun _ _ => diverge)
                                              0 green_skip_window))) = []
  /\ spec_jump_in_eligible green_skip_window 0 1 = true.
Proof. repeat split; reflexivity. Qed.

(** ** Saving and loading *)

Lemma split_colon_no_colon s : no_colon s = true -> split_colon s = [s].
Proof.
  induction s as [|a rest IH]; cbn; [reflexivity|].
  intros H. apply andb_prop in H. destruct H as [Ha Hr].
  apply negb_true_iff in Ha. rewrite Ha, (IH Hr). reflexivity.
Qed.

Lemma split_colon_app a b :
  no_colon a = true ->
  split_colon (a ++ String ":"%char b)%string = a :: split_colon b.
Proof.
  induction a as [|x rest IH]; cbn; [reflexivity|].
  intros H. apply andb_prop in H. destruct H as [Hx Hr].
  apply negb_true_iff in Hx. rewrite Hx, (IH Hr). reflexivity.
Qed.

Lemma no_colon_uint d : no_colon (NilEmpty.string_of_uint d) = true.
Proof. induction d; cbn; auto. Qed.

Lemma no_colon_nilzero d : no_colon (NilZero.string_of_uint d) = true.
Proof.
  destruct d; try reflexivity;
    match goal with
    | |- no_colon (NilZero.string_of_uint ?x) = true => exact (no_colon_uint x)
    end.
Qed.

Lemma no_colon_str_of_int z : no_colon (str_of_int z) = true.
Proof.
  unfold str_of_int. destruct z as [|p|p]; cbn [Z.to_int NilZero.string_of_int].
  - reflexivity.
  - apply no_colon_nilzero.
  - cbn [no_colon]. rewrite no_colon_nilzero. reflexivity.
Qed.

Lemma int_of_str_of_int z : int_of_str (str_of_int z) = Some z.
Proof.
  unfold int_of_str, str_of_int.
  rewrite NilZero.isi.
  - cbn. rewrite DecimalZ.of_to. reflexivity.
  - destruct z; cbn; try discriminate.
    intros H. injection H as H. exact (DecimalPos.Unsigned.to_uint_nonnil _ H).
  - destruct z; cbn; try discriminate.
    intros H. injection H as H. exact (DecimalPos.Unsigned.to_uint_nonnil _ H).
Qed.

Lemma colour_of_name_name k : colour_of_name (colour_name k) = Some k.
Proof. destruct k; reflexivity. Qed.

Lemma no_colon_colour_name k : no_colon (colour_name k) = true.
Proof. destruct k; reflexivity. Qed.

Lemma string_app_assoc (a b c : string) : ((a ++ b) ++ c = a ++ (b ++ c))%string.
Proof. induction a as [|x a IH]; cbn; [reflexivity | rewrite IH; reflexivity]. Qed.

Lemma split_colon_three (a b c : string) :
  no_colon a = true -> no_colon b = true -> no_colon c = true ->
  split_colon ((a ++ ":" ++ b) ++ ":" ++ c)%string = [a; b; c].
Proof.
  intros Ha Hb Hc. rewrite string_app_assoc.
  change (a ++ (":" ++ b) ++ ":" ++ c)%string
    with (a ++ String ":"%char (b ++ String ":"%char c))%string.
  rewrite (split_colon_app a) by exact Ha.
  rewrite (split_colon_app b) by exact Hb.
  rewrite split_colon_no_colon by exact Hc. reflexivity.
Qed.

Lemma from_string_repr c : from_string (repr c) = Some (reloaded c).
Proof.
  destruct c as [k n|k|k|k|k|k].
  - unfold from_string, repr. cbn [class_name colour_of str_colour].
    rewrite split_colon_three
      by (reflexivity || apply no_colon_colour_name || apply no_colon_str_of_int).
    change (String.eqb "NumberedCard" "NumberedCard") with true. cbv beta iota.
    rewrite colour_of_name_name, int_of_str_of_int. reflexivity.
  - destruct k; reflexivity.
  - destruct k; reflexivity.
  - destruct k; reflexivity.
  - destruct k as [[]|]; reflexivity.
  - destruct k as [[]|]; reflexivity.
Qed.

Lemma dict_set_fresh {V : Type} (d : list (string * V)) (key : string) (v : V) :
  ~ In key (map fst d) -> dict_set d key v = d ++ [(key, v)].
Proof.
  induction d as [|[k w] rest IH]; cbn; intros H; [reflexivity|].
  destruct (String.eqb_spec k key) as [E|E]; [tauto|].
  rewrite IH by tauto. reflexivity.
Qed.

Lemma save_players_fresh (g : UnoGame) (players : list Player) :
  forall d : list (string * JSON),
    NoDup (map name players) ->
    (forall pl, In pl players -> ~ In (name pl) (map fst d)) ->
    fold_left (fun game_data player => dict_set game_data (name player) (player_data g player))
              players d
    = d ++ map (player_entry g) players.
Proof.
  induction players as [|pl rest IH]; intros d Hnd Hfresh; cbn [fold_left map].
  - rewrite app_nil_r. reflexivity.
  - rewrite dict_set_fresh by (apply Hfresh; left; reflexivity).
    inversion Hnd as [|x xs Hx Hnd']; subst.
    rewrite IH.
    + rewrite <- app_assoc. reflexivity.
    + exact Hnd'.
    + intros pl' Hin. rewrite map_app, in_app_iff. cbn [map fst In].
      intros [H|[H|[]]].
      * exact (Hfresh pl' (or_intror Hin) H).
      * apply Hx. rewrite H. apply in_map. exact Hin.
Qed.

Lemma save_game_entries (g : UnoGame) :
  NoDup (map name (player_list g)) ->
  (forall pl, In pl (player_list g) -> contains "Player" (name pl) = true) ->
  save_game g = base_data g ++ map (player_entry g) (player_list g).
Proof.
  intros Hnd Hnames. unfold save_game.
  apply (save_players_fresh g (player_list g) (base_data g) Hnd).
  intros pl Hin Hkey. specialize (Hnames pl Hin).
  cbn in Hkey.
  repeat (destruct Hkey as [Hkey|Hkey];
          [rewrite <- Hkey in Hnames; vm_compute in Hnames; discriminate|]).
  exact Hkey.
Qed.

Lemma load_cards_repr (cards : list Card) :
  forall objs,
    load_cards objs (map repr cards)
    = Some (objs ++ map reloaded cards, seq (List.length objs) (List.length cards)).
Proof.
  induction cards as [|c rest IH]; intros objs; cbn [map load_cards List.length seq].
  - rewrite app_nil_r. reflexivity.
  - rewrite from_string_repr, IH, <- app_assoc, length_app. cbn [app List.length].
    rewrite Nat.add_1_r. reflexivity.
Qed.

Lemma load_players_entries (g : UnoGame) (players : list Player) :
  forall objs,
    (forall pl, In pl players -> contains "Player" (name pl) = true) ->
    load_players objs (map (player_entry g) players)
    = Some (objs ++ flat_map (reloaded_hand g) players,
            loaded_players (List.length objs) players).
Proof.
  induction players as [|pl rest IH]; intros objs Hnames;
    cbn [map load_players flat_map loaded_players].
  - rewrite app_nil_r. reflexivity.
  - unfold player_entry at 1. rewrite (Hnames pl (or_introl eq_refl)).
    unfold player_data at 1.
    change (dict_get [("human", FBool (human pl));
                      ("cards", FStrings (map (fun r => repr (card_at g r)) (hand pl)))]
                     "human") with (Some (FBool (human pl))).
    change (dict_get [("human", FBool (human pl));
                      ("cards", FStrings (map (fun r => repr (card_at g r)) (hand pl)))]
                     "cards")
      with (Some (FStrings (map (fun r => repr (card_at g r)) (hand pl)))).
    cbv beta iota.
    rewrite <- (map_map (card_at g) repr), load_cards_repr.
    rewrite IH by (intros pl' H; apply Hnames; right; exact H).
    rewrite <- app_assoc, length_app, !length_map. reflexivity.
Qed.

Lemma nth_seq_middle {A : Type} (d : A) (l : list A) :
  forall pre post,
    map (fun r => nth r (pre ++ l ++ post) d) (seq (List.length pre) (List.length l)) = l.
Proof.
  induction l as [|x rest IH]; intros pre post; cbn [List.length seq map]; [reflexivity|].
  f_equal.
  - rewrite app_nth2 by lia. rewrite Nat.sub_diag. reflexivity.
  - specialize (IH (pre ++ [x]) post).
    rewrite length_app, Nat.add_1_r, <- app_assoc in IH. exact IH.
Qed.

Lemma nth_seq_within {A : Type} (d : A) (l pre post : list A) (start n : nat) :
  start = List.length pre -> n = List.length l ->
  map (fun r => nth r (pre ++ l ++ post) d) (seq start n) = l.
Proof. intros -> ->. apply nth_seq_middle. Qed.

Lemma nth_seq_end {A : Type} (d : A) (l pre : list A) (start n : nat) :
  start = List.length pre -> n = List.length l ->
  map (fun r => nth r (pre ++ l) d) (seq start n) = l.
Proof.
  intros Hs Hn. pose proof (nth_seq_within d l pre [] start n Hs Hn) as H.
  rewrite app_nil_r in H. exact H.
Qed.

Lemma loaded_players_snapshot (g : UnoGame) (players : list Player) :
  forall pre post,
    map (fun pl => (name pl, human pl,
                    map (fun r => nth r (pre ++ flat_map (reloaded_hand g) players ++ post)
                                      (WildCard None))
                        (hand pl)))
        (loaded_players (List.length pre) players)
    = map (fun pl => (name pl, human pl, reloaded_hand g pl)) players.
Proof.
  induction players as [|pl rest IH]; intros pre post;
    cbn [loaded_players map flat_map]; [reflexivity|].
  f_equal.
  - cbn [name human hand]. f_equal.
    rewrite <- app_assoc.
    replace (List.length (hand pl)) with (List.length (reloaded_hand g pl))
      by (unfold reloaded_hand; rewrite !length_map; reflexivity).
    apply nth_seq_middle.
  - assert (Hlen : List.length (reloaded_hand g pl) = List.length (hand pl))
      by (unfold reloaded_hand; rewrite !length_map; reflexivity).
    specialize (IH (pre ++ reloaded_hand g pl) post).
    rewrite length_app, Hlen in IH.
    rewrite <- !app_assoc in IH. rewrite <- app_assoc. exact IH.
Qed.

(** C9 (amended). For a game whose players have distinct names containing
    ["Player"] (as every game built or loaded by [__init__] has), loading
    what [save_game] wrote gives a game with the same players (name, human
    flag), turn, spin and rule flags, and with the same cards in every hand,
    in the deck and on the pile, except that every wild card and draw four
    comes back without a colour. *)
Theorem save_load_round_trip (g : UnoGame) :
  NoDup (map name (player_list g)) ->
  (forall pl, In pl (player_list g) -> contains "Player" (name pl) = true) ->
  exists g',
    load_game (save_game g) = Some g'
    /\ snapshot g' = reloaded_snapshot (snapshot g).
Proof.
  intros Hnd Hnames.
  rewrite (save_game_entries g Hnd Hnames).
  unfold load_game.
  change (load_players [] (base_data g ++ map (player_entry g) (player_list g)))
    with (load_players [] (map (player_entry g) (player_list g))).
  rewrite (load_players_entries g (player_list g) [] Hnames).
  cbn [app List.length].
  change (get_strings (base_data g ++ map (player_entry g) (player_list g)) "deck")
    with (Some (map (fun r => repr (card_at g r)) (deck g))).
  change (get_strings (base_data g ++ map (player_entry g) (player_list g)) "pile")
    with (Some (map (fun r => repr (card_at g r)) (pile g))).
  change (get_int (base_data g ++ map (player_entry g) (player_list g)) "turn" 1)
    with (Some (turn g)).
  change (get_int (base_data g ++ map (player_entry g) (player_list g)) "spin" 1)
    with (Some (spin g)).
  change (get_bool (base_data g ++ map (player_entry g) (player_list g)) "jump_in" false)
    with (Some (jump_in g)).
  change (get_bool (base_data g ++ map (player_entry g) (player_list g)) "stacking" false)
    with (Some (stacking g)).
  change (get_bool (base_data g ++ map (player_entry g) (player_list g)) "seven_zero" false)
    with (Some (seven_zero g)).
  rewrite <- !(map_map (card_at g) repr), !load_cards_repr.
  eexists. split; [reflexivity|].
  unfold snapshot, reloaded_snapshot.
  cbn [objects player_list deck pile turn spin jump_in stacking seven_zero
       snap_players snap_deck snap_pile snap_turn snap_spin snap_rules].
  unfold card_at. cbn [objects].
  f_equal.
  - rewrite <- app_assoc.
    match goal with
    | |- context [nth _ (flat_map (reloaded_hand g) (player_list g) ++ ?post) _] =>
        pose proof (loaded_players_snapshot g (player_list g) [] post) as H
    end.
    cbn [app List.length] in H. rewrite H, map_map.
    apply map_ext. intros pl. reflexivity.
  - rewrite <- app_assoc. apply nth_seq_within.
    + reflexivity.
    + rewrite !length_map. reflexivity.
  - apply nth_seq_end.
    + rewrite !length_app, !length_map. reflexivity.
    + rewrite !length_map. reflexivity.
Qed.

Lemma save_load_round_trip_witness :
  NoDup (map name (player_list coloured_wild_game))
  /\ (forall pl, In pl (player_list coloured_wild_game) ->
                 contains "Player" (name pl) = true)
  /\ exists g',
      load_game (save_game coloured_wild_game) = Some g'
      /\ snapshot g' = reloaded_snapshot (snapshot coloured_wild_game).
Proof.
  assert (Hnd : NoDup (map name (player_list coloured_wild_game))).
  { vm_compute. repeat constructor; cbn; intuition discriminate. }
  assert (Hnames : forall pl, In pl (player_list coloured_wild_game) ->
                              contains "Player" (name pl) = true).
  { intros pl H. vm_compute in H. destruct H as [<-|[<-|[]]]; reflexivity. }
  split; [exact Hnd|]. split; [exact Hnames|].
  exact (save_load_round_trip coloured_wild_game Hnd Hnames).
Defined.

(** C9 as stated fails for a wild card on the pile: saved as
    ['WildCard:Red'], it is rebuilt by [WildCard(game)] with no colour. *)
Lemma coloured_wild_not_restored :
  map (card_at coloured_wild_game) (pile coloured_wild_game)
  = [NumberedCard Blue 3; WildCard (Some Red)]
  /\ exists g',
      load_game (save_game coloured_wild_game) = Some g'
      /\ map (card_at g') (pile g') = [NumberedCard Blue 3; WildCard None]
      /\ snapshot g' <> snapshot coloured_wild_game.
Proof.
  split; [reflexivity|].
  eexists. split; [vm_compute; reflexivity|].
  split; [reflexivity|].
  intros H. apply (f_equal snap_pile) in H. vm_compute in H. discriminate.
Qed.

(** ** Counting the cards *)

Lemma card_total_eq g :
  card_total g = List.length (deck g) + List.length (pile g) + hands_total g.
Proof. unfold card_total, all_refs, hands_total. rewrite !length_app. lia. Qed.

Lemma flat_hand_list_set (l : list Player) p pl pl' :
  nth_error l p = Some pl ->
  List.length (flat_map hand (list_set l p pl')) + List.length (hand pl)
  = List.length (flat_map hand l) + List.length (hand pl').
Proof.
  revert p. induction l as [|x rest IH]; intros [|p] H; cbn in *; try discriminate.
  - injection H as ->. rewrite !length_app. lia.
  - specialize (IH p H). rewrite !length_app. lia.
Qed.

Lemma hands_total_set_hand g p h :
  p < List.length (player_list g) ->
  hands_total (set_hand g p h) + List.length (hand_of g p) = hands_total g + List.length h.
Proof.
  intros Hp. unfold hands_total, set_hand, hand_of.
  destruct (nth_error (player_list g) p) as [pl|] eqn:E.
  - cbn. apply (flat_hand_list_set _ _ pl). exact E.
  - apply nth_error_None in E. lia.
Qed.

Lemma card_total_set_hand g p h :
  p < List.length (player_list g) ->
  card_total (set_hand g p h) + List.length (hand_of g p) = card_total g + List.length h.
Proof.
  intros Hp. rewrite !card_total_eq, deck_set_hand, pile_set_hand.
  pose proof (hands_total_set_hand g p h Hp). lia.
Qed.

Lemma remove_first_length f l l' :
  remove_first f l = Some l' -> List.length l = S (List.length l').
Proof.
  revert l'. induction l as [|y rest IH]; intros l' H; cbn in H; [discriminate|].
  destruct (f y).
  - injection H as <-. reflexivity.
  - destruct (remove_first f rest) as [r|]; [|discriminate].
    injection H as <-. cbn. f_equal. apply IH. reflexivity.
Qed.

Lemma find_index_bound {A} (f : A -> bool) l i :
  find_index f l = Some i -> i < List.length l.
Proof.
  revert i. induction l as [|x rest IH]; intros i H; cbn in H; [discriminate|].
  destruct (f x).
  - injection H as <-. cbn. lia.
  - destruct (find_index f rest) as [j|]; [|discriminate].
    injection H as <-. cbn. specialize (IH j eq_refl). lia.
Qed.

Lemma player_from_turn_bound g t p :
  player_from_turn g t = Some p -> p < List.length (player_list g).
Proof. apply find_index_bound. Qed.

Lemma sized_refilled N n g : sized N n g -> sized N n (refilled g).
Proof.
  intros [Ht Hn]. unfold refilled.
  destruct (rev (pile g)) as [|top older] eqn:E; [split; assumption|].
  split; [|exact Hn].
  rewrite card_total_eq in *. cbn [deck pile with_deck with_pile List.length].
  change (hands_total (with_deck (with_pile g [top]) (deck g ++ rev older)))
    with (hands_total g).
  assert (Hp : List.length (pile g) = S (List.length older)).
  { rewrite <- (length_rev (pile g)), E. reflexivity. }
  rewrite length_app, length_rev. lia.
Qed.

Lemma flat_hand_sum (l : list Player) :
  List.length (flat_map hand l)
  = list_sum (map (fun i => List.length (match nth_error l i with
                                         | Some pl => hand pl
                                         | None => []
                                         end))
                  (seq 0 (List.length l))).
Proof.
  induction l as [|pl rest IH]; [reflexivity|].
  cbn [flat_map List.length seq map list_sum nth_error].
  rewrite length_app, IH, <- seq_shift, map_map. reflexivity.
Qed.

Lemma hands_total_sum g :
  hands_total g
  = list_sum (map (fun i => List.length (hand_of g i))
                  (seq 0 (List.length (player_list g)))).
Proof. unfold hands_total, hand_of. apply flat_hand_sum. Qed.

Lemma sum_rotate_forward (f : nat -> nat) (m : nat) :
  list_sum (map (fun i => if Nat.eqb i 0 then f m else f (i - 1)) (seq 0 (S m)))
  = list_sum (map f (seq 0 (S m))).
Proof.
  rewrite seq_S at 2. rewrite map_app, list_sum_app. cbn [seq map list_sum Nat.eqb].
  rewrite <- seq_shift, map_map. cbn [Nat.add map list_sum].
  rewrite (map_ext (fun x => if Nat.eqb (S x) 0 then f m else f (S x - 1)) f)
    by (intros a; cbn; rewrite Nat.sub_0_r; reflexivity).
  unfold list_sum. cbn [fold_right]. lia.
Qed.

Lemma sum_rotate_backward (f : nat -> nat) (m : nat) :
  list_sum (map (fun i => if Nat.eqb i m then f 0 else f (i + 1)) (seq 0 (S m)))
  = list_sum (map f (seq 0 (S m))).
Proof.
  rewrite seq_S at 1. rewrite map_app, list_sum_app. cbn [Nat.add map list_sum].
  rewrite Nat.eqb_refl.
  cbn [seq map list_sum]. rewrite <- seq_shift, map_map.
  rewrite (map_ext_in (fun i => if Nat.eqb i m then f 0 else f (i + 1)) (fun x => f (S x))).
  - unfold list_sum. cbn [fold_right]. lia.
  - intros a Ha. apply in_seq in Ha.
    destruct (Nat.eqb_spec a m); [lia|]. rewrite Nat.add_1_r. reflexivity.
Qed.

Section Keeping.
Variable oracle : nat -> nat.
Variables N n : nat.

Lemma keeps_ret {A} (a : A) : keeps N n (ret a).
Proof. intros g Hg _. exact Hg. Qed.

Lemma keeps_raise {A} (e : Exn) : keeps N n (@raise A e).
Proof. intros g Hg _. exact Hg. Qed.

Lemma keeps_diverge {A} : keeps N n (@diverge A).
Proof. intros g Hg _. exact Hg. Qed.

Lemma keeps_bind {A B} (m : M A) (k : A -> M B) :
  keeps N n m -> (forall a, keeps N n (k a)) -> keeps N n (bind m k).
Proof.
  intros Hm Hk g Hg Hc. unfold bind in *. specialize (Hm g Hg).
  destruct (m g) as [a g'|e g'|g']; cbn in *.
  - apply Hk; auto.
  - apply Hm; auto.
  - apply Hm; auto.
Qed.

(** Reading the game object first: the rest may rely on its size. *)
Lemma keeps_get_bind {B} (k : UnoGame -> M B) :
  (forall g0, sized N n g0 -> keeps N n (k g0)) -> keeps N n (bind get k).
Proof. intros H g Hg. unfold bind, get. exact (H g Hg g Hg). Qed.

Lemma keeps_modify (f : UnoGame -> UnoGame) :
  (forall g, sized N n g -> sized N n (f g)) -> keeps N n (modify f).
Proof. intros H g Hg _. cbn. auto. Qed.

Lemma keeps_print l : keeps N n (print l).
Proof. apply keeps_modify. intros g Hg. exact Hg. Qed.

Lemma keeps_choice {A} (l : list A) : keeps N n (choice oracle l).
Proof.
  intros g Hg _. unfold choice.
  destruct (nth_error l (oracle (asked g) mod List.length l)); exact Hg.
Qed.

Lemma keeps_get_input {A} (l : list A) : keeps N n (get_input oracle l).
Proof. destruct l; [apply keeps_diverge | apply keeps_choice]. Qed.

Lemma keeps_list_remove l c : keeps N n (list_remove l c).
Proof.
  intros g Hg _. unfold list_remove.
  destruct (remove_first (fun y => ref_eq g y c) l); exact Hg.
Qed.

Lemma keeps_deref p : keeps N n (deref p).
Proof. destruct p; [apply keeps_ret | apply keeps_raise]. Qed.

Lemma keeps_for_each {A} (xs : list A) (body : A -> M unit) :
  (forall x, In x xs -> keeps N n (body x)) -> keeps N n (for_each xs body).
Proof.
  induction xs as [|x rest IH]; intros H; cbn [for_each].
  - apply keeps_ret.
  - apply keeps_bind.
    + apply H. left; reflexivity.
    + intros _. apply IH. intros y Hy. apply H. right; exact Hy.
Qed.

Lemma keeps_repeat_do k (body : M unit) :
  keeps N n body -> keeps N n (repeat_do k body).
Proof.
  intros H. induction k as [|k IH]; cbn [repeat_do].
  - apply keeps_ret.
  - apply keeps_bind; [exact H | intros _; exact IH].
Qed.

Lemma sized_assign_colour g r k : sized N n g -> sized N n (assign_colour g r k).
Proof. intros Hg. exact Hg. Qed.

Lemma sized_set_hand_same_length g p h :
  sized N n g -> List.length h = List.length (hand_of g p) ->
  sized N n (set_hand g p h).
Proof.
  intros [Ht Hn] Hl. split; [|rewrite length_set_hand; exact Hn].
  destruct (Nat.lt_ge_cases p (List.length (player_list g))) as [Hp|Hp].
  - pose proof (card_total_set_hand g p h Hp). lia.
  - unfold set_hand. apply nth_error_None in Hp. rewrite Hp. exact Ht.
Qed.

Lemma choice_empty {A} g : choice oracle (@nil A) g = Raise IndexError g.
Proof.
  unfold choice. destruct (oracle (asked g) mod List.length (@nil A)); reflexivity.
Qed.

Lemma keeps_deal_card (player : option nat) :
  (forall p, player = Some p -> p < n) -> keeps N n (deal_card oracle player).
Proof.
  intros Hvalid g Hg Hc.
  destruct (deck g) as [|d0 ds] eqn:Edeck.
  { assert (E : deal_card oracle player g = Raise IndexError g).
    { unfold deal_card, bind, get. rewrite Edeck, choice_empty. reflexivity. }
    rewrite E. exact Hg. }
  assert (Hne : deck g <> []) by (rewrite Edeck; discriminate).
  destruct Hg as [Ht Hn].
  destruct player as [p|].
  - assert (Hp : p < List.length (player_list g)) by (rewrite Hn; auto).
    destruct (nth_error (player_list g) p) as [pl|] eqn:Epl;
      [|apply nth_error_None in Epl; lia].
    destruct (deal_card_spec oracle g p pl Hne Epl) as [c [deck' [Hin [Hrem Hrun]]]].
    rewrite Hrun. cbn [final].
    apply remove_first_length in Hrem.
    set (g1 := set_hand (with_deck (with_asked g (S (asked g))) deck') p (hand pl ++ [c])).
    assert (Hg1 : sized N n g1).
    { split; [|unfold g1; rewrite length_set_hand; exact Hn].
      pose proof (card_total_set_hand (with_deck (with_asked g (S (asked g))) deck') p
                                      (hand pl ++ [c]) Hp) as H.
      fold g1 in H.
      change (hand_of (with_deck (with_asked g (S (asked g))) deck') p) with (hand_of g p) in H.
      assert (Hh : hand_of g p = hand pl) by (unfold hand_of; rewrite Epl; reflexivity).
      rewrite Hh, length_app in H. cbn [List.length] in H.
      rewrite card_total_eq in Ht.
      rewrite (card_total_eq (with_deck (with_asked g (S (asked g))) deck')) in H.
      cbn [deck pile with_deck with_asked] in H.
      change (hands_total (with_deck (with_asked g (S (asked g))) deck'))
        with (hands_total g) in H.
      lia. }
    cbv zeta. fold g1. destruct deck'; [apply sized_refilled|]; exact Hg1.
  - exfalso.
    destruct (choice_nonempty oracle (deck g) g Hne) as [c [Hin Hch]].
    destruct (remove_first_In (fun y => ref_eq g y c) (deck g) c Hin (ref_eq_refl g c))
      as [deck' [Hrem _]].
    assert (E : exists g', deal_card oracle None g = Raise AttributeError g').
    { unfold deal_card. unfold bind at 1. unfold get at 1. cbv beta iota.
      unfold bind at 1. rewrite Hch.
      unfold bind at 1. unfold list_remove.
      change (remove_first (fun y => ref_eq (with_asked g (S (asked g))) y c) (deck g))
        with (remove_first (fun y => ref_eq g y c) (deck g)).
      rewrite Hrem. eexists. reflexivity. }
    destruct E as [g' E]. rewrite E in Hc. discriminate.
Qed.

Lemma keeps_top_pile_card : keeps N n (top_pile_card oracle).
Proof.
  intros g Hg Hc. unfold top_pile_card, bind, get in *.
  destruct (last_opt (pile g)); [exact Hg|].
  destruct (deck g) as [|d0 ds] eqn:Edeck; [exact Hg|].
  rewrite <- Edeck in *. clear Edeck.
  destruct (filter (fun r => isinstance (card_at g r) CNumbered) (deck g))
    as [|c0 cs] eqn:Efil; [exact Hg|].
  rewrite <- Efil in *.
  assert (Hne : filter (fun r => isinstance (card_at g r) CNumbered) (deck g) <> [])
    by (rewrite Efil; discriminate).
  destruct (choice_nonempty oracle _ g Hne) as [c [Hin Hch]].
  rewrite Hch. cbv beta iota.
  apply filter_In in Hin. destruct Hin as [Hin _].
  destruct (remove_first_In (fun y => ref_eq g y c) (deck g) c Hin (ref_eq_refl g c))
    as [deck' [Hrem Hlen]].
  unfold list_remove.
  change (remove_first (fun y => ref_eq (with_asked g (S (asked g))) y c) (deck g))
    with (remove_first (fun y => ref_eq g y c) (deck g)).
  rewrite Hrem. cbn.
  destruct Hg as [Ht Hn]. split; [|exact Hn].
  rewrite card_total_eq in *. cbn [deck pile with_deck with_pile with_asked].
  change (hands_total _) with (hands_total g).
  rewrite length_app. cbn [List.length]. lia.
Qed.

Lemma keeps_playable_cards p : keeps N n (playable_cards oracle p).
Proof.
  unfold playable_cards. apply keeps_bind; [apply keeps_top_pile_card|].
  intros c. apply keeps_get_bind. intros g0 _. apply keeps_ret.
Qed.

Lemma keeps_set_turn (f : UnoGame -> Z) : keeps N n (modify (fun g => with_turn g (f g))).
Proof. apply keeps_modify. intros g Hg. exact Hg. Qed.

Lemma keeps_DrawTwoCard_activate player :
  (forall p, player = Some p -> p < n) -> keeps N n (DrawTwoCard_activate oracle player).
Proof.
  intros Hv. unfold DrawTwoCard_activate.
  apply keeps_get_bind. intros g0 _.
  apply keeps_bind; [apply keeps_print|]. intros _.
  apply keeps_bind; [|intros _; apply keeps_set_turn].
  apply keeps_repeat_do.
  apply keeps_bind; [apply keeps_deal_card; exact Hv | intros _; apply keeps_ret].
Qed.

Lemma keeps_DrawFourCard_activate player :
  (forall p, player = Some p -> p < n) -> keeps N n (DrawFourCard_activate oracle player).
Proof.
  intros Hv. unfold DrawFourCard_activate.
  apply keeps_get_bind. intros g0 _.
  apply keeps_bind; [apply keeps_print|]. intros _.
  apply keeps_bind; [|intros _; apply keeps_set_turn].
  apply keeps_repeat_do.
  apply keeps_bind; [apply keeps_deal_card; exact Hv | intros _; apply keeps_ret].
Qed.

Lemma keeps_unless_holding cls next_player activate :
  keeps N n (activate next_player) ->
  keeps N n (unless_holding cls next_player activate).
Proof.
  intros Ha. unfold unless_holding.
  apply keeps_get_bind. intros g0 _.
  destruct (negb (stacking g0)); [exact Ha|].
  apply keeps_bind; [apply keeps_deref|]. intros p.
  destruct (existsb _ _); [apply keeps_ret | exact Ha].
Qed.

Lemma valid_next_player g0 :
  sized N n g0 -> forall t p, player_from_turn g0 t = Some p -> p < n.
Proof. intros [_ Hn] t p H. rewrite <- Hn. eapply player_from_turn_bound; eauto. Qed.

Lemma keeps_DrawTwoCard_play : keeps N n (DrawTwoCard_play oracle).
Proof.
  unfold DrawTwoCard_play. apply keeps_get_bind. intros g0 Hg0.
  apply keeps_unless_holding. apply keeps_DrawTwoCard_activate.
  intros p. apply valid_next_player. exact Hg0.
Qed.

Lemma keeps_choose_colour self : keeps N n (choose_colour oracle self).
Proof.
  unfold choose_colour. apply keeps_get_bind. intros g0 _.
  apply keeps_bind; [apply keeps_deref|]. intros p.
  apply keeps_bind.
  - destruct (human_of g0 p); [apply keeps_get_input | apply keeps_choice].
  - intros k. apply keeps_bind; [|intros _; apply keeps_print].
    apply keeps_modify. intros g. apply sized_assign_colour.
Qed.

Lemma keeps_DrawFourCard_play self : keeps N n (DrawFourCard_play oracle self).
Proof.
  unfold DrawFourCard_play. apply keeps_bind; [apply keeps_choose_colour|]. intros _.
  apply keeps_get_bind. intros g0 Hg0.
  apply keeps_unless_holding. apply keeps_DrawFourCard_activate.
  intros p. apply valid_next_player. exact Hg0.
Qed.

Lemma keeps_SkipCard_play : keeps N n SkipCard_play.
Proof. apply keeps_set_turn. Qed.

Lemma keeps_ReverseCard_play : keeps N n ReverseCard_play.
Proof. apply keeps_modify. intros g Hg. exact Hg. Qed.

Lemma swap_sized g cur new :
  sized N n g -> cur < n -> new < n ->
  sized N n (set_hand (set_hand g cur (hand_of g new)) new (hand_of g cur)).
Proof.
  intros [Ht Hn] Hcur Hnew.
  split; [|rewrite !length_set_hand; exact Hn].
  assert (H1 := card_total_set_hand g cur (hand_of g new) ltac:(lia)).
  assert (H2 := card_total_set_hand (set_hand g cur (hand_of g new)) new (hand_of g cur)
                                    ltac:(rewrite length_set_hand; lia)).
  rewrite hand_of_set_hand in H2 by lia.
  destruct (Nat.eqb_spec cur new) as [->|Hne]; lia.
Qed.

Lemma swap_tail_sized g cur new l :
  sized N n g -> cur < n -> new < n ->
  sized N n
    (final ((modify (fun g' => set_hand g' cur (hand_of g new)) ;;
             modify (fun g' => set_hand g' new (hand_of g cur)) ;;
             print l) g)).
Proof. intros Hg Hc Hn. exact (swap_sized g cur new Hg Hc Hn). Qed.

Lemma keeps_swap_hands : keeps N n (swap_hands oracle).
Proof.
  intros g Hg Hc. unfold swap_hands in *.
  unfold bind at 1 in Hc. unfold bind at 1. unfold get at 1 in Hc. unfold get at 1.
  cbv beta iota zeta in *.
  destruct (player_from_turn g (turn g)) as [cur|] eqn:Ecur;
    [|cbn in Hc; discriminate].
  assert (Hcur : cur < n) by (eapply valid_next_player; eauto).
  unfold bind at 1. unfold deref, ret. cbv beta iota.
  set (others := filter _ (seq 0 (List.length (player_list g)))).
  assert (Hothers : forall i, In i others -> i < n).
  { intros i Hi. apply filter_In in Hi. destruct Hi as [Hi _].
    apply in_seq in Hi. destruct Hg as [_ Hn]. lia. }
  unfold bind at 1.
  destruct (human_of g cur).
  - unfold bind at 1. unfold get_input.
    destruct (map (name_of g) others) as [|nm nms] eqn:Enames; [exact Hg|].
    rewrite <- Enames.
    destruct (choice_nonempty oracle (map (name_of g) others) g
                              ltac:(rewrite Enames; discriminate)) as [x [_ Hx]].
    rewrite Hx. cbv beta iota.
    destruct (find_index (fun pl => String.eqb (name pl) x) (player_list g))
      as [new|] eqn:Efind; [|exact Hg].
    unfold ret. cbv beta iota.
    apply find_index_bound in Efind.
    apply (swap_tail_sized (with_asked g (S (asked g))) cur new).
    + exact Hg.
    + exact Hcur.
    + destruct Hg as [_ Hn]. lia.
  - destruct others as [|o os] eqn:Eo.
    + rewrite choice_empty. exact Hg.
    + rewrite <- Eo in *.
      destruct (choice_nonempty oracle others g ltac:(rewrite Eo; discriminate))
        as [new [Hin Hx]].
      rewrite Hx. cbv beta iota.
      apply (swap_tail_sized (with_asked g (S (asked g))) cur new).
      * exact Hg.
      * exact Hcur.
      * apply Hothers. exact Hin.
Qed.

Lemma keeps_rotate_hands : keeps N n rotate_hands.
Proof.
  intros g Hg Hc.
  destruct (player_list g) as [|pl0 pls] eqn:Epl.
  { unfold rotate_hands, bind, get. rewrite Epl. cbn.
    destruct (spin g =? 1)%Z; cbn; exact Hg. }
  assert (Hne : player_list g <> []) by (rewrite Epl; discriminate).
  destruct (rotate_hands_spec g Hne) as [g' [Hrun [Htab [Hlen Hh]]]].
  rewrite Hrun. cbn [final].
  destruct Hg as [Ht Hn]. split; [|rewrite Hlen; exact Hn].
  rewrite card_total_eq in *.
  assert (Hd : deck g' = deck g) by (unfold table in Htab; congruence).
  assert (Hp : pile g' = pile g) by (unfold table in Htab; congruence).
  rewrite Hd, Hp.
  assert (Hs : hands_total g' = hands_total g).
  { rewrite !hands_total_sum, Hlen.
    assert (Hm : List.length (player_list g) = S (List.length pls))
      by (rewrite Epl; reflexivity).
    erewrite map_ext_in;
      [|intros i Hi; apply in_seq in Hi; rewrite Hh by lia; reflexivity].
    rewrite Hm. replace (S (List.length pls) - 1) with (List.length pls) by lia.
    destruct (spin g =? 1)%Z.
    - rewrite (map_ext _ (fun i => if Nat.eqb i 0
                                   then List.length (hand_of g (List.length pls))
                                   else List.length (hand_of g (i - 1))))
        by (intros a; destruct (Nat.eqb a 0); reflexivity).
      apply (sum_rotate_forward (fun i => List.length (hand_of g i))).
    - rewrite (map_ext _ (fun i => if Nat.eqb i (List.length pls)
                                   then List.length (hand_of g 0)
                                   else List.length (hand_of g (i + 1))))
        by (intros a; destruct (Nat.eqb a (List.length pls)); reflexivity).
      apply (sum_rotate_backward (fun i => List.length (hand_of g i))). }
  lia.
Qed.

Lemma keeps_NumberedCard_play number : keeps N n (NumberedCard_play oracle number).
Proof.
  unfold NumberedCard_play. apply keeps_get_bind. intros g0 _.
  destruct (seven_zero g0); [|apply keeps_ret].
  destruct (number =? 7)%Z; [apply keeps_swap_hands|].
  destruct (number =? 0)%Z; [apply keeps_rotate_hands | apply keeps_ret].
Qed.

Lemma keeps_play card : keeps N n (play oracle card).
Proof.
  unfold play. apply keeps_get_bind. intros g0 _.
  destruct (card_at g0 card).
  - apply keeps_NumberedCard_play.
  - apply keeps_SkipCard_play.
  - apply keeps_DrawTwoCard_play.
  - apply keeps_ReverseCard_play.
  - apply keeps_DrawFourCard_play.
  - unfold WildCard_play. apply keeps_choose_colour.
Qed.

Lemma keeps_turn_of_name nm : keeps N n (turn_of_name nm).
Proof.
  unfold turn_of_name. destruct (last_char nm); [|apply keeps_raise].
  destruct (int_of_str _); [apply keeps_ret | apply keeps_raise].
Qed.

Section JumpInKeeps.
Variable play_card_rec : nat -> nat -> M unit.
Hypothesis keeps_rec : forall p c, keeps N n (play_card_rec p c).
Variable card : nat.

Lemma keeps_jump_in_hand player cards :
  keeps N n (jump_in_hand oracle play_card_rec card player cards).
Proof.
  induction cards as [|pc rest IH]; cbn [jump_in_hand]; [apply keeps_ret|].
  apply keeps_get_bind. intros g0 _.
  destruct (isinstance (card_at g0 card) CWild || isinstance (card_at g0 card) CDrawFour);
    [exact IH|].
  destruct (ref_eq g0 pc card); [|exact IH].
  apply keeps_bind; [apply keeps_print|]. intros _.
  apply keeps_bind.
  - destruct (human_of g0 player); [apply keeps_get_input | apply keeps_choice].
  - intros [|]; [|exact IH].
    apply keeps_bind; [apply keeps_print|]. intros _.
    apply keeps_bind; [apply keeps_turn_of_name|]. intros t.
    apply keeps_bind; [apply keeps_set_turn with (f := fun _ => t)|]. intros _.
    apply keeps_rec.
Qed.

Lemma keeps_jump_in_players players :
  keeps N n (jump_in_players oracle play_card_rec card players).
Proof.
  unfold jump_in_players. apply keeps_for_each. intros player _.
  apply keeps_get_bind. intros g0 _.
  destruct (_ && _); [apply keeps_ret | apply keeps_jump_in_hand].
Qed.

Lemma keeps_play_jump_in : keeps N n (play_jump_in oracle play_card_rec card).
Proof.
  unfold play_jump_in. apply keeps_get_bind. intros g0 _.
  apply keeps_bind; [apply keeps_jump_in_players | intros _; apply keeps_play].
Qed.
End JumpInKeeps.

(** Taking a card out of a hand and putting it on the pile. *)
Lemma sized_move_to_pile g player card hand' :
  sized N n g ->
  remove_first (fun y => ref_eq g y card) (hand_of g player) = Some hand' ->
  sized N n (with_pile (set_hand g player hand') (pile (set_hand g player hand') ++ [card])).
Proof.
  intros [Ht Hn] Hrem.
  assert (Hp : player < List.length (player_list g)).
  { unfold hand_of in Hrem.
    destruct (nth_error (player_list g) player) eqn:E; [|discriminate].
    apply nth_error_Some. congruence. }
  apply remove_first_length in Hrem.
  split; [|cbn [player_list with_pile]; rewrite length_set_hand; exact Hn].
  pose proof (card_total_set_hand g player hand' Hp) as H.
  rewrite !card_total_eq in H. rewrite card_total_eq in Ht. rewrite card_total_eq.
  cbn [deck pile with_pile].
  change (hands_total (with_pile (set_hand g player hand')
                                 (pile (set_hand g player hand') ++ [card])))
    with (hands_total (set_hand g player hand')).
  rewrite length_app. cbn [List.length]. lia.
Qed.

Lemma keeps_play_card_body (play_card_rec : nat -> nat -> M unit) player card :
  (forall p c, keeps N n (play_card_rec p c)) ->
  keeps N n
    (g <- get ;;
     print (LPlayed (name_of g player) (card_at g card)) ;;
     hand' <- list_remove (hand_of g player) card ;;
     modify (fun g => set_hand g player hand') ;;
     modify (fun g => with_pile g (pile g ++ [card])) ;;
     g <- get ;;
     (match List.length (hand_of g player) with
      | 0 => print (LWon (name_of g player)) ;; raise SystemExit
      | 1 => print (LOneLeft (name_of g player))
      | _ => ret tt
      end) ;;
     if jump_in g
     then play_jump_in oracle play_card_rec card
     else play oracle card).
Proof.
  intros Hrec g Hg.
  unfold bind at 1. unfold get at 1. cbv beta iota.
  unfold bind at 1. unfold print at 1, modify at 1. cbv beta iota.
  set (g1 := with_console g _).
  assert (Hg1 : sized N n g1) by exact Hg.
  unfold bind at 1. unfold list_remove at 1.
  change (hand_of g player) with (hand_of g1 player).
  destruct (remove_first (fun y => ref_eq g1 y card) (hand_of g1 player))
    as [hand'|] eqn:Erem; [|intros _; exact Hg1].
  pose proof (sized_move_to_pile g1 player card hand' Hg1 Erem) as Hg2.
  unfold bind at 1. unfold modify at 1. cbv beta iota.
  unfold bind at 1. unfold modify at 1. cbv beta iota.
  set (g2 := with_pile _ _) in *.
  match goal with
  | |- fine N n (?m g2) =>
      assert (Hk : keeps N n m); [|exact (Hk g2 Hg2)]
  end.
  apply keeps_get_bind; intros g0 _.
  apply keeps_bind.
  - destruct (List.length (hand_of g0 player)) as [|[|k]].
    + apply keeps_bind; [apply keeps_print | intros _; apply keeps_raise].
    + apply keeps_print.
    + apply keeps_ret.
  - intros _. destruct (jump_in g0).
    + apply keeps_play_jump_in. exact Hrec.
    + apply keeps_play.
Qed.

Lemma keeps_play_card depth : forall player card,
  keeps N n (play_card oracle depth player card).
Proof.
  induction depth as [|d IH]; intros player card; rewrite play_card_unfold;
    apply keeps_play_card_body.
  - intros p c. apply keeps_diverge.
  - exact IH.
Qed.

Lemma keeps_bind_ret {A B} (a : A) (k : A -> M B) :
  keeps N n (k a) -> keeps N n (bind (ret a) k).
Proof. intros H g Hg. exact (H g Hg). Qed.

Lemma keeps_bind_raise {A B} (e : Exn) (k : A -> M B) :
  keeps N n (bind (raise e) k).
Proof. intros g Hg Hc. exact Hg. Qed.

Lemma keeps_get_played_card p : keeps N n (get_played_card oracle p).
Proof.
  unfold get_played_card. apply keeps_get_bind. intros g0 _.
  destruct (human_of g0 p).
  - apply keeps_bind; [apply keeps_playable_cards|]. intros playable.
    apply keeps_get_bind. intros g1 _. apply keeps_get_input.
  - apply keeps_bind; [apply keeps_playable_cards|]. intros playable.
    apply keeps_choice.
Qed.

Lemma keeps_take_turn depth : keeps N n (take_turn oracle depth).
Proof.
  unfold take_turn. apply keeps_get_bind. intros g0 Hg0.
  destruct (player_from_turn g0 (turn g0)) as [current_player|] eqn:Ecur;
    cbn [deref]; [|apply keeps_bind_raise].
  assert (Hcur : current_player < n) by (eapply valid_next_player; eauto).
  apply keeps_bind_ret.
  apply keeps_bind.
  { apply keeps_for_each. intros card _. apply keeps_get_bind. intros g1 _.
    destruct (_ || _); [|apply keeps_ret].
    apply keeps_modify. intros g. apply sized_assign_colour. }
  intros _. apply keeps_bind; [apply keeps_print|]. intros _.
  apply keeps_bind; [apply keeps_playable_cards|]. intros playable.
  apply keeps_bind.
  { destruct (is_nil playable).
    - apply keeps_bind; [apply keeps_print|]. intros _.
      apply keeps_bind.
      + apply keeps_deal_card. intros p [= <-]. exact Hcur.
      + intros new_card. apply keeps_get_bind. intros g1 _.
        apply keeps_bind.
        * destruct (human_of g1 current_player); [apply keeps_print | apply keeps_ret].
        * intros _. destruct playable; [apply keeps_ret | apply keeps_play_card].
    - apply keeps_bind; [apply keeps_get_played_card|]. intros card.
      apply keeps_play_card. }
  intros _. apply keeps_bind; [apply keeps_set_turn|]. intros _.
  apply keeps_bind; [apply keeps_top_pile_card|]. intros top.
  apply keeps_get_bind. intros g1 _. apply keeps_print.
Qed.

Lemma keeps_start_game : keeps N n (start_game oracle).
Proof.
  unfold start_game.
  apply keeps_bind; [apply keeps_top_pile_card|]. intros top.
  apply keeps_get_bind. intros g0 _.
  apply keeps_bind.
  { destruct (colour_of (card_at g0 top)); [apply keeps_ret|].
    apply keeps_bind; [apply keeps_choice|]. intros k.
    apply keeps_bind; [apply keeps_top_pile_card|]. intros top'.
    apply keeps_modify. intros g. apply sized_assign_colour. }
  intros _. apply keeps_bind; [apply keeps_top_pile_card|]. intros top'.
  apply keeps_get_bind. intros g1 _. apply keeps_print.
Qed.

Lemma keeps_play_turns depth turns : keeps N n (play_turns oracle depth turns).
Proof.
  induction turns as [|k IH]; cbn [play_turns]; [apply keeps_ret|].
  apply keeps_bind; [apply keeps_take_turn | intros _; exact IH].
Qed.
End Keeping.

Lemma no_cards_in_new_hands (names : list string) (h : bool) :
  flat_map hand (map (fun nm => mkPlayer nm h []) names) = [].
Proof. induction names as [|x rest IH]; cbn; [reflexivity | exact IH]. Qed.

Lemma new_players_hands pc hc : flat_map hand (new_players pc hc) = [].
Proof.
  unfold new_players. rewrite flat_map_app.
  rewrite <- (map_map (fun count => ("Player " ++ str_of_int (Z.of_nat count))%string)
                      (fun nm => mkPlayer nm true [])).
  rewrite <- (map_map (fun count => ("Player " ++ str_of_int (Z.of_nat count))%string)
                      (fun nm => mkPlayer nm false [])).
  rewrite !no_cards_in_new_hands. reflexivity.
Qed.

Lemma new_game_sized oracle pc hc j s z :
  fine 108 (List.length (new_players pc hc)) (new_game oracle pc hc j s z).
Proof.
  unfold new_game, init_cards.
  pose proof (new_players_hands pc hc) as Hempty.
  set (players := new_players pc hc) in *. clearbody players.
  unfold bind at 1.
  set (build := for_each COLOUR_LIST _).
  assert (E : build (mkGame [] players [] [] 1 1 j s z [] 0)
              = Ok tt (mkGame new_cards players (seq 0 108) [] 1 1 j s z [] 0)).
  { vm_compute. reflexivity. }
  rewrite E. cbv beta iota.
  set (g1 := mkGame new_cards players (seq 0 108) [] 1 1 j s z [] 0).
  assert (Hg1 : sized 108 (List.length players) g1).
  { split; [|reflexivity].
    unfold card_total, all_refs. cbn [deck pile player_list g1].
    rewrite Hempty, !length_app, length_seq. reflexivity. }
  match goal with
  | |- fine _ _ (?m g1) =>
      assert (Hk : keeps 108 (List.length players) m); [|exact (Hk g1 Hg1)]
  end.
  apply keeps_get_bind. intros g0 [_ Hn].
  apply keeps_repeat_do. apply keeps_for_each. intros p Hp.
  apply keeps_bind; [|intros _; apply keeps_ret].
  apply keeps_deal_card. intros q [= <-]. apply in_seq in Hp. lia.
Qed.

Lemma and_then_fine {A} N n (built : Result unit) (m : M A) :
  fine N n built -> keeps N n m -> fine N n (and_then built m).
Proof.
  intros Hb Hk. destruct built as [[] g|e g|g]; try exact Hb.
  apply Hk. apply Hb. reflexivity.
Qed.

(** Whatever the decisions, a new game that is built and run for any number
    of rounds holds 108 cards, counting deck, pile and hands, in the state
    it reaches, be it still running, won, or stopped by an exception other
    than the [AttributeError] of a missing player. *)
Theorem card_count_conserved (oracle : nat -> nat) (pc hc : nat) (j s z : bool)
        (depth turns : nat) :
  crashed (run_new_game oracle pc hc j s z depth turns) = false ->
  card_total (final (run_new_game oracle pc hc j s z depth turns)) = 108.
Proof.
  intros Hc.
  assert (H : fine 108 (List.length (new_players pc hc))
                   (run_new_game oracle pc hc j s z depth turns)).
  { unfold run_new_game. apply and_then_fine.
    - apply new_game_sized.
    - apply keeps_bind; [apply keeps_start_game | intros _; apply keeps_play_turns]. }
  destruct (H Hc) as [Ht _]. exact Ht.
Qed.

Lemma card_count_conserved_witness :
  crashed (run_new_game first_option 3 1 true true true 4 6) = false
  /\ card_total (final (run_new_game first_option 3 1 true true true 4 6)) = 108.
Proof.
  assert (H : crashed (run_new_game first_option 3 1 true true true 4 6) = false)
    by (vm_compute; reflexivity).
  split; [exact H|].
  exact (card_count_conserved first_option 3 1 true true true 4 6 H).
Defined.

(** C6, at a new game of two players whose first draw picks the second wild
    card of the deck (reference 27): [self.deck.remove(card)] takes out the
    first deck entry that compares equal, the wild card with reference 0,
    so the drawn object stays in the deck while it is also in the hand of
    player 1, and object 0 is in no list any more.  The count is still 108.
    Once player 1 has played the wild card and chosen red, the very same
    object lies on the pile and in the deck, coloured red in both. *)
Example dealt_card_stays_in_deck :
  let g := final (new_game second_wild_first 2 1 false false false) in
  let r := (start_game second_wild_first ;; take_turn second_wild_first 3) g in
  (exists g0, new_game second_wild_first 2 1 false false false = Ok tt g0)
  /\ card_total g = 108
  /\ hand_of g 0 = [27; 2; 4; 6; 8; 10; 12]
  /\ count_occ Nat.eq_dec (deck g) 27 = 1
  /\ count_occ Nat.eq_dec (all_refs g) 27 = 2
  /\ count_occ Nat.eq_dec (all_refs g) 0 = 0
  /\ (exists g1, r = Ok tt g1)
  /\ pile (final r) = [14; 27]
  /\ count_occ Nat.eq_dec (deck (final r)) 27 = 1
  /\ card_at (final r) 27 = WildCard (Some Red).
Proof.
  vm_compute. repeat split; eauto.
Qed.

(** ** Turn order, equality of cards *)

(** X2. [next_turn], for a turn between 1 and the number of players:
    forwards it is the following seat and 1 after the last one, backwards
    the seat before and the last one before seat 1; so it is again between
    1 and the number of players. *)
Theorem next_turn_wraps (g : UnoGame) :
  let n := Z.of_nat (List.length (player_list g)) in
  (1 <= turn g <= n)%Z ->
  (spin g = 1%Z -> next_turn g = if (turn g =? n)%Z then 1%Z else (turn g + 1)%Z)
  /\ (spin g = (-1)%Z -> next_turn g = if (turn g =? 1)%Z then n else (turn g - 1)%Z)
  /\ (spin g = 1%Z \/ spin g = (-1)%Z -> (1 <= next_turn g <= n)%Z).
Proof.
  intros n Hturn. unfold next_turn. fold n.
  assert (H1 : spin g = 1%Z ->
               (if (turn g + spin g >? n)%Z then 1%Z
                else if (turn g + spin g =? 0)%Z then n else (turn g + spin g)%Z)
               = if (turn g =? n)%Z then 1%Z else (turn g + 1)%Z).
  { intros ->. destruct (Z.eqb_spec (turn g) n) as [E|E].
    - rewrite E. replace (n + 1 >? n)%Z with true by (symmetry; apply Z.gtb_lt; lia).
      reflexivity.
    - destruct (Z.gtb_spec (turn g + 1) n); [lia|].
      destruct (Z.eqb_spec (turn g + 1) 0); [lia | reflexivity]. }
  assert (H2 : spin g = (-1)%Z ->
               (if (turn g + spin g >? n)%Z then 1%Z
                else if (turn g + spin g =? 0)%Z then n else (turn g + spin g)%Z)
               = if (turn g =? 1)%Z then n else (turn g - 1)%Z).
  { intros ->. destruct (Z.gtb_spec (turn g + -1) n); [lia|].
    destruct (Z.eqb_spec (turn g) 1) as [E|E].
    - rewrite E. reflexivity.
    - destruct (Z.eqb_spec (turn g + -1) 0); [lia|]. lia. }
  split; [exact H1|]. split; [exact H2|].
  intros [Hs|Hs].
  - rewrite (H1 Hs). destruct (Z.eqb_spec (turn g) n); lia.
  - rewrite (H2 Hs). destruct (Z.eqb_spec (turn g) 1); lia.
Qed.

Lemma next_turn_wraps_witness :
  (1 <= turn (zero_game (-1)) <= 4)%Z
  /\ next_turn (zero_game (-1)) = 4%Z
  /\ (1 <= next_turn (zero_game (-1)) <= 4)%Z.
Proof.
  assert (H : (1 <= turn (zero_game (-1))
               <= Z.of_nat (List.length (player_list (zero_game (-1)))))%Z)
    by (vm_compute; split; discriminate).
  split; [exact H|].
  destruct (next_turn_wraps (zero_game (-1)) H) as [_ [Hback Hin]].
  split; [exact (Hback eq_refl) | exact (Hin (or_intror eq_refl))].
Defined.

(** X3. [ReverseCard.play] twice in a row leaves the game as it was: the
    spin is multiplied by -1 and nothing else is touched. *)
Theorem reverse_twice_restores (g : UnoGame) :
  (ReverseCard_play ;; ReverseCard_play) g = Ok tt g.
Proof.
  unfold ReverseCard_play, bind, modify. f_equal.
  destruct g as [o ps d p t s j st sz c a]. unfold with_spin. cbn.
  f_equal. lia.
Qed.

Lemma Colour_eqb_eq a b : Colour_eqb a b = true <-> a = b.
Proof. destruct a, b; cbn; split; congruence. Qed.

(** X4. [__eq__] holds between two cards exactly when they have the same
    class, the same colour and, for numbered cards, the same number. *)
Theorem card_eq_iff (c d : Card) : card_eq c d = true <-> c = d.
Proof.
  split.
  - destruct c as [k n|k|k|k|[k|]|[k|]], d as [k' n'|k'|k'|k'|[k'|]|[k'|]];
      cbn; try discriminate; try reflexivity;
      rewrite ?andb_true_iff, ?Colour_eqb_eq, ?Z.eqb_eq; intuition congruence.
  - intros <-. apply card_eq_refl.
Qed.

(** ** What may be played *)

Ltac matches_top_case :=
  split;
  [ intros Hin;
    first
      [ (left; reflexivity)
      | (right; left; do 3 eexists; split; reflexivity)
      | (right; right; left; split; [discriminate | reflexivity])
      | (right; right; right; split; [reflexivity | tauto])
      | (exfalso; cbn in Hin; tauto) ]
  | intros [H|[[a [b [m [H1 H2]]]]|[[H0 H]|[H H']]]];
    try discriminate; try congruence; try (left; reflexivity);
    try (exfalso; intuition discriminate) ].

Lemma first_loop_step_other {A : Type} (look : A -> Card) (st : bool)
      (current : Card) (x : A) :
  isinstance (look x) CDrawFour = false ->
  (In x (first_loop_step look st current x) <-> matches_top (look x) current).
Proof.
  intros Hdf. unfold first_loop_step, matches_top. cbv zeta.
  destruct (look x) as [k n|k|k|k|k|k] eqn:Ec; cbn in Hdf; try discriminate;
    destruct current as [k' n'|k'|k'|k'|k'|k'];
    try (destruct (Z.eqb_spec n n') as [->|Hn]);
    try (assert (Hz : (n =? n')%Z = false) by (apply Z.eqb_neq; exact Hn));
    first [destruct k as [[| | |]|] | destruct k as [| | |]];
    first [destruct k' as [[| | |]|] | destruct k' as [| | |]];
    cbn; rewrite ?Z.eqb_refl, ?Hz; cbn.
  all: try matches_top_case.
Qed.

(** X5. A card of the hand that is not a draw four is in the result of
    [playable_cards] exactly when it is a wild card, or a numbered card
    with the number of a numbered top card, or has the colour of the top
    card, or is a skip, reverse or draw two on a top card of its own
    class.  The stacking rule has no part in it. *)
Theorem playable_iff_matches {A : Type} (look : A -> Card) (st : bool)
        (current : Card) (hand : list A) (x : A) :
  isinstance (look x) CDrawFour = false ->
  (In x (playable_of look st current hand)
   <-> In x hand /\ matches_top (look x) current).
Proof.
  intros Hdf. unfold playable_of.
  set (F := flat_map (first_loop_step look st current) hand).
  assert (HF : In x F <-> In x hand /\ matches_top (look x) current).
  { unfold F. rewrite in_flat_map. split.
    - intros [y [Hy Hx]].
      pose proof (first_loop_step_self look st current y x Hx) as E. subst y.
      split; [exact Hy|]. apply (first_loop_step_other look st current x Hdf). exact Hx.
    - intros [Hx Hm]. exists x. split; [exact Hx|].
      apply (first_loop_step_other look st current x Hdf). exact Hm. }
  destruct F as [|f F'] eqn:EF.
  - rewrite second_loop_empty.
    destruct (find (fun c => isinstance (look c) CDrawFour) hand) as [d0|] eqn:Efind.
    + apply find_some in Efind. destruct Efind as [_ Hd0].
      rewrite <- HF. cbn. split; [intros [E|[]]; subst; congruence | tauto].
    + rewrite <- HF. reflexivity.
  - rewrite second_loop_nonempty by discriminate. exact HF.
Qed.

Lemma playable_iff_matches_witness :
  isinstance (id (SkipCard Blue)) CDrawFour = false
  /\ (In (SkipCard Blue)
          (playable_of id true (SkipCard Red) [NumberedCard Green 5; SkipCard Blue])
      <-> In (SkipCard Blue) [NumberedCard Green 5; SkipCard Blue]
          /\ matches_top (id (SkipCard Blue)) (SkipCard Red)).
Proof.
  split; [reflexivity|].
  exact (playable_iff_matches id true (SkipCard Red)
                              [NumberedCard Green 5; SkipCard Blue] (SkipCard Blue)
                              eq_refl).
Defined.

Lemma other_playable_iff {A : Type} (look : A -> Card) (st : bool)
      (current : Card) (hand : list A) (y : A) :
  isinstance (look y) CDrawFour = false ->
  In y hand ->
  (In y (playable_of look st current hand) <-> matches_top (look y) current).
Proof.
  intros Hdf Hy. unfold playable_of.
  set (F := flat_map (first_loop_step look st current) hand).
  assert (HF : In y F <-> matches_top (look y) current).
  { unfold F. rewrite in_flat_map. split.
    - intros [x [_ Hx]].
      pose proof (first_loop_step_self look st current x y Hx) as E. subst x.
      apply (first_loop_step_other look st current y Hdf). exact Hx.
    - intros Hm. exists y. split; [exact Hy|].
      apply (first_loop_step_other look st current y Hdf). exact Hm. }
  destruct F as [|f F'] eqn:EF.
  - rewrite second_loop_empty.
    destruct (find (fun c => isinstance (look c) CDrawFour) hand) as [d0|] eqn:Efind.
    + apply find_some in Efind. destruct Efind as [_ Hd0].
      rewrite <- HF. cbn. split; [intros [E|[]]; subst; congruence | tauto].
    + rewrite <- HF. reflexivity.
  - rewrite second_loop_nonempty by discriminate. exact HF.
Qed.

(** C5. For every hand, top card and stacking flag: when the hand holds a
    draw four, the playable list contains a draw four exactly when stacking
    is on and the top card is a draw four, or no other card of the hand
    matches the top card (wild, same number, same colour, or same class of
    skip, reverse and draw two).  In particular, when a card of the hand
    other than a draw four matches and the stacking condition does not
    hold, no draw four is in the result. *)
Theorem draw_four_playable_iff {A : Type} (look : A -> Card)
        (st : bool) (current : Card) (hand : list A) :
  (exists d, In d hand /\ isinstance (look d) CDrawFour = true) ->
  ((exists d, In d (playable_of look st current hand)
              /\ isinstance (look d) CDrawFour = true)
   <->
   ((st = true /\ isinstance current CDrawFour = true)
    \/ (forall y, In y hand -> isinstance (look y) CDrawFour = false ->
                  ~ matches_top (look y) current)))
  /\ ((exists y, In y hand /\ isinstance (look y) CDrawFour = false
                 /\ matches_top (look y) current) ->
      ~ (st = true /\ isinstance current CDrawFour = true) ->
      forall d, In d (playable_of look st current hand) ->
                isinstance (look d) CDrawFour = false).
Proof.
  intros Hheld.
  pose proof (draw_four_in_filter look st current hand Hheld) as Hfilter.
  assert (Hiff : (exists d, In d (playable_of look st current hand)
                            /\ isinstance (look d) CDrawFour = true)
                 <->
                 ((st = true /\ isinstance current CDrawFour = true)
                  \/ (forall y, In y hand -> isinstance (look y) CDrawFour = false ->
                                ~ matches_top (look y) current))).
  { rewrite Hfilter. split.
    - intros [Hs|Hall]; [left; exact Hs|]. right. intros y Hy Hdf Hm.
      apply (Hall y Hy Hdf).
      apply (other_playable_iff look st current hand y Hdf Hy). exact Hm.
    - intros [Hs|Hall]; [left; exact Hs|]. right. intros y Hy Hdf Hin.
      apply (Hall y Hy Hdf).
      apply (other_playable_iff look st current hand y Hdf Hy). exact Hin. }
  split; [exact Hiff|].
  intros [y [Hy [Hdf Hm]]] Hns d Hd.
  destruct (isinstance (look d) CDrawFour) eqn:Ed; [|reflexivity].
  exfalso.
  assert (Hex : exists d, In d (playable_of look st current hand)
                          /\ isinstance (look d) CDrawFour = true)
    by (exists d; split; assumption).
  apply Hiff in Hex. destruct Hex as [Hs|Hall]; [exact (Hns Hs)|].
  exact (Hall y Hy Hdf Hm).
Qed.

Lemma draw_four_playable_iff_witness :
  (exists d, In d [NumberedCard Red 5; DrawFourCard None]
             /\ isinstance (id d) CDrawFour = true)
  /\ ((exists d, In d (playable_of id false (NumberedCard Red 3)
                                   [NumberedCard Red 5; DrawFourCard None])
                 /\ isinstance (id d) CDrawFour = true)
      <->
      ((false = true /\ isinstance (NumberedCard Red 3) CDrawFour = true)
       \/ (forall y, In y [NumberedCard Red 5; DrawFourCard None] ->
                     isinstance (id y) CDrawFour = false ->
                     ~ matches_top (id y) (NumberedCard Red 3))))
  /\ ((exists y, In y [NumberedCard Red 5; DrawFourCard None]
                 /\ isinstance (id y) CDrawFour = false
                 /\ matches_top (id y) (NumberedCard Red 3)) ->
      ~ (false = true /\ isinstance (NumberedCard Red 3) CDrawFour = true) ->
      forall d, In d (playable_of id false (NumberedCard Red 3)
                                  [NumberedCard Red 5; DrawFourCard None]) ->
                isinstance (id d) CDrawFour = false).
Proof.
  assert (H : exists d, In d [NumberedCard Red 5; DrawFourCard None]
                        /\ isinstance (id d) CDrawFour = true).
  { exists (DrawFourCard None). split; [right; left; reflexivity | reflexivity]. }
  split; [exact H|].
  exact (draw_four_playable_iff id false (NumberedCard Red 3)
                                [NumberedCard Red 5; DrawFourCard None] H).
Defined.

(** ** Dealing and forced draws *)

Lemma same_seats_refl g : same_seats g g.
Proof. repeat split. Qed.

Lemma same_seats_trans g1 g2 g3 :
  same_seats g1 g2 -> same_seats g2 g3 -> same_seats g1 g3.
Proof.
  unfold same_seats. intros H1 H2.
  repeat match goal with H : _ /\ _ |- _ => destruct H end.
  repeat split; congruence.
Qed.

Lemma humans_list_set (l : list Player) p pl h :
  nth_error l p = Some pl ->
  map human (list_set l p (mkPlayer (name pl) (human pl) h)) = map human l.
Proof.
  revert p. induction l as [|x rest IH]; intros [|p] H; cbn in *; try discriminate.
  - injection H as ->. reflexivity.
  - f_equal. auto.
Qed.

Lemma same_seats_set_hand g p h : same_seats g (set_hand g p h).
Proof.
  unfold same_seats, set_hand.
  destruct (nth_error (player_list g) p) as [pl|] eqn:E; [|repeat split].
  cbn. rewrite (names_list_set _ _ _ _ E), (humans_list_set _ _ _ _ E). repeat split.
Qed.

Lemma same_seats_refilled g : same_seats g (refilled g).
Proof. unfold refilled. destruct (rev (pile g)); repeat split. Qed.

Lemma hand_of_refilled g q : hand_of (refilled g) q = hand_of g q.
Proof. unfold refilled. destruct (rev (pile g)); reflexivity. Qed.

Lemma player_list_refilled g : player_list (refilled g) = player_list g.
Proof. unfold refilled. destruct (rev (pile g)); reflexivity. Qed.

Lemma stock_refilled g :
  List.length (deck (refilled g)) + List.length (pile (refilled g))
  = List.length (deck g) + List.length (pile g)
  /\ List.length (deck g) <= List.length (deck (refilled g)).
Proof.
  unfold refilled. destruct (rev (pile g)) as [|top older] eqn:E; [lia|].
  cbn [deck pile with_deck with_pile List.length].
  assert (Hp : List.length (pile g) = S (List.length older))
    by (rewrite <- (length_rev (pile g)), E; reflexivity).
  rewrite length_app, length_rev. lia.
Qed.

(** X6. [deal_card] on an empty deck stops on the [IndexError] of
    [random.choice], with the game untouched, whoever the player is. *)
Theorem deal_card_empty_deck (oracle : nat -> nat) (player : option nat) (g : UnoGame) :
  deck g = [] -> deal_card oracle player g = Raise IndexError g.
Proof.
  intros E. unfold deal_card, bind, get. rewrite E, choice_empty. reflexivity.
Qed.

Lemma deal_card_empty_deck_witness :
  deck (zero_game 1) = []
  /\ deal_card first_option (Some 0) (zero_game 1) = Raise IndexError (zero_game 1).
Proof.
  split; [reflexivity|].
  exact (deal_card_empty_deck first_option (Some 0) (zero_game 1) eq_refl).
Defined.

Lemma deal_card_step (oracle : nat -> nat) (g : UnoGame) (p : nat) (pl : Player) :
  deck g <> [] ->
  nth_error (player_list g) p = Some pl ->
  exists c g',
    deal_card oracle (Some p) g = Ok c g'
    /\ In c (deck g)
    /\ hand_of g' p = hand pl ++ [c]
    /\ (forall q, q <> p -> hand_of g' q = hand_of g q)
    /\ same_seats g g'
    /\ List.length (deck g') + List.length (pile g') + 1
       = List.length (deck g) + List.length (pile g)
    /\ List.length (deck g) <= S (List.length (deck g')).
Proof.
  intros Hne Hpl.
  destruct (deal_card_spec oracle g p pl Hne Hpl) as [c [deck' [Hin [Hrem Hrun]]]].
  cbv zeta in Hrun.
  set (g1 := set_hand (with_deck (with_asked g (S (asked g))) deck') p (hand pl ++ [c])) in *.
  assert (Hh : hand_of g1 p = hand pl ++ [c])
    by (apply (hand_of_set_hand_same _ _ _ pl); exact Hpl).
  assert (Ho : forall q, q <> p -> hand_of g1 q = hand_of g q).
  { intros q Hq. unfold g1. rewrite hand_of_set_hand_other by congruence. reflexivity. }
  assert (Hs : same_seats g g1).
  { apply (same_seats_trans _ (with_deck (with_asked g (S (asked g))) deck')).
    - repeat split.
    - apply same_seats_set_hand. }
  apply remove_first_length in Hrem.
  assert (Hd : deck g1 = deck') by (unfold g1; rewrite deck_set_hand; reflexivity).
  assert (Hp : pile g1 = pile g) by (unfold g1; rewrite pile_set_hand; reflexivity).
  exists c. destruct deck' as [|d ds].
  - exists (refilled g1). split; [exact Hrun|]. split; [exact Hin|].
    split; [rewrite hand_of_refilled; exact Hh|].
    split; [intros q Hq; rewrite hand_of_refilled; auto|].
    split; [exact (same_seats_trans _ _ _ Hs (same_seats_refilled g1))|].
    destruct (stock_refilled g1) as [H1 H2]. rewrite Hd, Hp in *. cbn in *. lia.
  - exists g1. split; [exact Hrun|]. split; [exact Hin|].
    split; [exact Hh|]. split; [exact Ho|]. split; [exact Hs|].
    rewrite Hd, Hp. cbn in *. lia.
Qed.

(** X7. [deal_card] to a seated player with cards in the deck returns a
    card of the deck and appends it to the end of that player's hand; the
    other hands, the card objects, names, turn, spin, rules and console
    stay as they are; deck and pile together hold one card less, and the
    deck loses at most one. *)
Theorem deal_card_appends (oracle : nat -> nat) (g : UnoGame) (p : nat) (pl : Player) :
  deck g <> [] ->
  nth_error (player_list g) p = Some pl ->
  exists c g',
    deal_card oracle (Some p) g = Ok c g'
    /\ In c (deck g)
    /\ hand_of g' p = hand pl ++ [c]
    /\ (forall q, q <> p -> hand_of g' q = hand_of g q)
    /\ same_seats g g'
    /\ List.length (deck g') + List.length (pile g') + 1
       = List.length (deck g) + List.length (pile g)
    /\ List.length (deck g) <= S (List.length (deck g')).
Proof.
  intros Hne Hpl. exact (deal_card_step oracle g p pl Hne Hpl).
Qed.

Lemma deal_card_appends_witness :
  deck refill_game <> []
  /\ nth_error (player_list refill_game) 1 = Some (mkPlayer "Player 2" false [5])
  /\ exists c g',
      deal_card first_option (Some 1) refill_game = Ok c g'
      /\ In c (deck refill_game)
      /\ hand_of g' 1 = [5] ++ [c]
      /\ (forall q, q <> 1 -> hand_of g' q = hand_of refill_game q)
      /\ same_seats refill_game g'
      /\ List.length (deck g') + List.length (pile g') + 1
         = List.length (deck refill_game) + List.length (pile refill_game)
      /\ List.length (deck refill_game) <= S (List.length (deck g')).
Proof.
  assert (Hne : deck refill_game <> []) by (cbn; discriminate).
  assert (Hpl : nth_error (player_list refill_game) 1
                = Some (mkPlayer "Player 2" false [5])) by reflexivity.
  split; [exact Hne|]. split; [exact Hpl|].
  exact (deal_card_appends first_option refill_game 1 _ Hne Hpl).
Defined.

Lemma same_seats_players g g' :
  same_seats g g' -> List.length (player_list g') = List.length (player_list g).
Proof.
  intros [_ [Hn _]]. rewrite <- (length_map name (player_list g')), Hn, length_map.
  reflexivity.
Qed.

Lemma same_seats_next_turn g g' : same_seats g g' -> next_turn g' = next_turn g.
Proof.
  intros Hs. pose proof (same_seats_players g g' Hs) as Hl.
  destruct Hs as [_ [_ [_ [Ht [Hsp _]]]]].
  unfold next_turn. rewrite Ht, Hsp, Hl. reflexivity.
Qed.

Lemma same_seats_name_of g g' q : same_seats g g' -> name_of g' q = name_of g q.
Proof.
  intros [_ [Hn _]]. unfold name_of.
  pose proof (f_equal (fun l => nth_error l q) Hn) as H. cbn in H.
  rewrite !nth_error_map in H.
  destruct (nth_error (player_list g') q), (nth_error (player_list g) q);
    cbn in H; congruence.
Qed.

(** Dealing [k] cards in a row to one player. *)
Lemma deal_many (oracle : nat -> nat) (k : nat) :
  forall g p,
    p < List.length (player_list g) ->
    k <= List.length (deck g) ->
    exists g',
      repeat_do k (deal_card oracle (Some p) ;; ret tt) g = Ok tt g'
      /\ List.length (hand_of g' p) = List.length (hand_of g p) + k
      /\ (forall q, q <> p -> hand_of g' q = hand_of g q)
      /\ same_seats g g'
      /\ List.length (deck g') + List.length (pile g') + k
         = List.length (deck g) + List.length (pile g).
Proof.
  induction k as [|k IH]; intros g p Hp Hk.
  - exists g. cbn [repeat_do]. split; [reflexivity|].
    split; [lia|]. split; [auto|]. split; [apply same_seats_refl | lia].
  - destruct (nth_error (player_list g) p) as [pl|] eqn:Epl;
      [|apply nth_error_None in Epl; lia].
    destruct (deal_card_step oracle g p pl) as [c [g1 [Hrun [_ [Hh [Ho [Hs [Hst Hd]]]]]]]];
      [destruct (deck g); [cbn in Hk; lia | discriminate] | exact Epl |].
    destruct (IH g1 p) as [g' [Hrun' [Hh' [Ho' [Hs' Hst']]]]].
    + rewrite (same_seats_players g g1 Hs). exact Hp.
    + lia.
    + exists g'. cbn [repeat_do]. unfold bind at 1. unfold bind at 1.
      rewrite Hrun. unfold ret at 1. cbv beta iota.
      split; [exact Hrun'|].
      assert (Hhg : hand_of g p = hand pl) by (unfold hand_of; rewrite Epl; reflexivity).
      split; [rewrite Hh', Hh, Hhg, length_app; cbn; lia|].
      split; [intros q Hq; rewrite Ho', Ho by assumption; reflexivity|].
      split; [exact (same_seats_trans _ _ _ Hs Hs') | lia].
Qed.

Section ForcedDraws.
Variable oracle : nat -> nat.
Variables (g : UnoGame) (p : nat).
Hypothesis seated : p < List.length (player_list g).

Lemma activate_deals (amount : nat) :
  amount <= List.length (deck g) ->
  exists g',
    (print (LMustDraw (name_of g p) amount) ;;
     repeat_do amount (deal_card oracle (Some p) ;; ret tt) ;;
     modify (fun g => with_turn g (next_turn g))) g = Ok tt g'
    /\ List.length (hand_of g' p) = List.length (hand_of g p) + amount
    /\ (forall q, q <> p -> hand_of g' q = hand_of g q)
    /\ turn g' = next_turn g
    /\ spin g' = spin g
    /\ console g' = console g ++ [LMustDraw (name_of g p) amount]
    /\ objects g' = objects g.
Proof.
  intros Hk.
  set (g0 := with_console g (console g ++ [LMustDraw (name_of g p) amount])).
  destruct (deal_many oracle amount g0 p seated Hk) as [g1 [Hrun [Hh [Ho [Hs _]]]]].
  exists (with_turn g1 (next_turn g1)).
  split.
  { unfold bind at 1. unfold print, modify at 1. cbv beta iota. fold g0.
    unfold bind at 1. rewrite Hrun. reflexivity. }
  split; [exact Hh|]. split; [exact Ho|].
  split; [cbn [turn with_turn]; rewrite (same_seats_next_turn g0 g1 Hs); reflexivity|].
  destruct Hs as [Hobj [_ [_ [_ [Hsp [_ [_ [_ Hc]]]]]]]].
  split; [exact Hsp|]. split; [exact Hc | exact Hobj].
Qed.
End ForcedDraws.

(** X8. [DrawFourCard.activate] on a seated player, with enough cards in
    the deck: the player's hand grows by four cards for every draw four
    counted on the pile, the other hands stay, the turn moves on to
    [next_turn], and the number printed is the number dealt. *)
Theorem draw_four_penalty_is_four_per_card (oracle : nat -> nat) (g : UnoGame) (p : nat) :
  p < List.length (player_list g) ->
  4 * stack_count g CDrawFour <= List.length (deck g) ->
  exists g',
    DrawFourCard_activate oracle (Some p) g = Ok tt g'
    /\ List.length (hand_of g' p)
       = List.length (hand_of g p) + 4 * stack_count g CDrawFour
    /\ (forall q, q <> p -> hand_of g' q = hand_of g q)
    /\ turn g' = next_turn g
    /\ spin g' = spin g
    /\ console g' = console g ++ [LMustDraw (name_of g p) (4 * stack_count g CDrawFour)].
Proof.
  intros Hp Hk.
  destruct (activate_deals oracle g p Hp (4 * stack_count g CDrawFour) Hk)
    as [g' [H1 [H2 [H3 [H4 [H5 [H6 _]]]]]]].
  exists g'. repeat split; assumption.
Qed.

Lemma draw_four_penalty_is_four_per_card_witness :
  1 < List.length (player_list stacked_draw_four)
  /\ 4 * stack_count stacked_draw_four CDrawFour
     <= List.length (deck stacked_draw_four)
  /\ stack_count stacked_draw_four CDrawFour = 2
  /\ exists g',
      DrawFourCard_activate first_option (Some 1) stacked_draw_four = Ok tt g'
      /\ List.length (hand_of g' 1)
         = List.length (hand_of stacked_draw_four 1)
           + 4 * stack_count stacked_draw_four CDrawFour
      /\ (forall q, q <> 1 -> hand_of g' q = hand_of stacked_draw_four q)
      /\ turn g' = next_turn stacked_draw_four
      /\ spin g' = spin stacked_draw_four
      /\ console g'
         = console stacked_draw_four
           ++ [LMustDraw (name_of stacked_draw_four 1)
                         (4 * stack_count stacked_draw_four CDrawFour)].
Proof.
  assert (Hp : 1 < List.length (player_list stacked_draw_four)) by (cbn; lia).
  assert (Hk : 4 * stack_count stacked_draw_four CDrawFour
               <= List.length (deck stacked_draw_four)) by (cbn; lia).
  split; [exact Hp|]. split; [exact Hk|]. split; [reflexivity|].
  exact (draw_four_penalty_is_four_per_card first_option stacked_draw_four 1 Hp Hk).
Defined.

(** X9. [DrawTwoCard.activate] on a seated player, with two cards in
    the deck: whatever the number of draw twos counted on the pile, the
    hand grows by two cards, while the line printed announces two cards
    per draw two counted; the other hands stay and the turn moves on to
    [next_turn]. *)
Theorem draw_two_penalty_is_two_cards (oracle : nat -> nat) (g : UnoGame) (p : nat) :
  p < List.length (player_list g) ->
  2 <= List.length (deck g) ->
  exists g',
    DrawTwoCard_activate oracle (Some p) g = Ok tt g'
    /\ List.length (hand_of g' p) = List.length (hand_of g p) + 2
    /\ (forall q, q <> p -> hand_of g' q = hand_of g q)
    /\ turn g' = next_turn g
    /\ spin g' = spin g
    /\ console g' = console g ++ [LMustDraw (name_of g p) (2 * stack_count g CDrawTwo)].
Proof.
  intros Hp Hk.
  destruct (deal_many oracle 2 (with_console g (console g ++
              [LMustDraw (name_of g p) (2 * stack_count g CDrawTwo)])) p Hp Hk)
    as [g1 [Hrun [Hh [Ho [Hs _]]]]].
  exists (with_turn g1 (next_turn g1)).
  split.
  { unfold DrawTwoCard_activate. unfold bind at 1. unfold get at 1. cbv beta iota zeta.
    unfold show_player.
    unfold bind at 1. unfold print, modify at 1. cbv beta iota.
    unfold bind at 1. rewrite Hrun. reflexivity. }
  split; [exact Hh|]. split; [exact Ho|].
  split; [cbn [turn with_turn]; rewrite (same_seats_next_turn _ g1 Hs); reflexivity|].
  destruct Hs as [_ [_ [_ [_ [Hsp [_ [_ [_ Hc]]]]]]]].
  split; [exact Hsp | exact Hc].
Qed.

Lemma draw_two_penalty_is_two_cards_witness :
  1 < List.length (player_list draw_two_answerable)
  /\ 2 <= List.length (deck draw_two_answerable)
  /\ stack_count draw_two_answerable CDrawTwo = 2
  /\ exists g',
      DrawTwoCard_activate first_option (Some 1) draw_two_answerable = Ok tt g'
      /\ List.length (hand_of g' 1) = List.length (hand_of draw_two_answerable 1) + 2
      /\ (forall q, q <> 1 -> hand_of g' q = hand_of draw_two_answerable q)
      /\ turn g' = next_turn draw_two_answerable
      /\ spin g' = spin draw_two_answerable
      /\ console g'
         = console draw_two_answerable
           ++ [LMustDraw (name_of draw_two_answerable 1)
                         (2 * stack_count draw_two_answerable CDrawTwo)].
Proof.
  assert (Hp : 1 < List.length (player_list draw_two_answerable)) by (cbn; lia).
  assert (Hk : 2 <= List.length (deck draw_two_answerable)) by (cbn; lia).
  split; [exact Hp|]. split; [exact Hk|]. split; [reflexivity|].
  exact (draw_two_penalty_is_two_cards first_option draw_two_answerable 1 Hp Hk).
Defined.

(** ** Playing a card, the top card *)

(** X10. [play_card] with a card of which the player's hand holds no
    equal one stops on the [ValueError] of [list.remove]: the line
    announcing the play has been printed, no card has moved and the card's
    effect has not run. *)
Theorem play_card_not_held (oracle : nat -> nat) (depth : nat) (g : UnoGame)
        (player card : nat) :
  existsb (fun y => ref_eq g y card) (hand_of g player) = false ->
  play_card oracle depth player card g
  = Raise ValueError
          (with_console g (console g ++ [LPlayed (name_of g player) (card_at g card)])).
Proof.
  intros Hno.
  assert (Hrem : remove_first (fun y => ref_eq g y card) (hand_of g player) = None).
  { induction (hand_of g player) as [|y rest IH]; [reflexivity|].
    cbn in Hno |- *. apply orb_false_iff in Hno. destruct Hno as [Hy Hr].
    rewrite Hy, (IH Hr). reflexivity. }
  rewrite play_card_unfold.
  unfold bind at 1. unfold get at 1. cbv beta iota.
  unfold bind at 1. unfold print at 1, modify at 1. cbv beta iota.
  unfold bind at 1. unfold list_remove.
  change (remove_first
            (fun y => ref_eq (with_console g (console g ++
                        [LPlayed (name_of g player) (card_at g card)])) y card)
            (hand_of g player))
    with (remove_first (fun y => ref_eq g y card) (hand_of g player)).
  rewrite Hrem. reflexivity.
Qed.

Lemma play_card_not_held_witness :
  existsb (fun y => ref_eq drawn_card_playable y 3) (hand_of drawn_card_playable 0)
  = false
  /\ play_card first_option 2 0 3 drawn_card_playable
     = Raise ValueError
             (with_console drawn_card_playable
                           (console drawn_card_playable
                            ++ [LPlayed (name_of drawn_card_playable 0)
                                        (card_at drawn_card_playable 3)])).
Proof.
  split; [reflexivity|].
  exact (play_card_not_held first_option 2 drawn_card_playable 0 3 eq_refl).
Defined.

Section NoJumpIn.
Variable oracle : nat -> nat.
Variable play_card_rec : nat -> nat -> M unit.
Variable card : nat.

Lemma jump_in_hand_wild (player : nat) (cards : list nat) (g : UnoGame) :
  never_jumped_on (card_at g card) = true ->
  jump_in_hand oracle play_card_rec card player cards g = Ok tt g.
Proof.
  intros Hw. induction cards as [|pc rest IH]; [reflexivity|].
  cbn [jump_in_hand]. unfold bind at 1. unfold get at 1. cbv beta iota.
  unfold never_jumped_on in Hw. rewrite Hw. exact IH.
Qed.

Lemma jump_in_players_wild (players : list nat) (g : UnoGame) :
  never_jumped_on (card_at g card) = true ->
  jump_in_players oracle play_card_rec card players g = Ok tt g.
Proof.
  intros Hw. unfold jump_in_players.
  induction players as [|p rest IH]; [reflexivity|].
  cbn [for_each]. unfold bind at 1. unfold bind at 1. unfold get at 1. cbv beta iota.
  destruct (_ && _).
  - unfold ret at 1. cbv beta iota. exact IH.
  - rewrite jump_in_hand_wild by exact Hw. exact IH.
Qed.
End NoJumpIn.

(** X11. For a wild card or a draw four [play_jump_in] asks nobody and
    is [card.play()] alone, whatever the hands hold. *)
Theorem no_jump_in_on_wild_cards (oracle : nat -> nat)
        (play_card_rec : nat -> nat -> M unit) (card : nat) (g : UnoGame) :
  isinstance (card_at g card) CWild = true
  \/ isinstance (card_at g card) CDrawFour = true ->
  play_jump_in oracle play_card_rec card g = play oracle card g.
Proof.
  intros H.
  assert (Hw : never_jumped_on (card_at g card) = true).
  { unfold never_jumped_on. destruct H as [-> | ->]; [reflexivity | apply orb_true_r]. }
  unfold play_jump_in. unfold bind at 1. unfold get at 1. cbv beta iota.
  unfold bind at 1. rewrite jump_in_players_wild by exact Hw. reflexivity.
Qed.

Lemma no_jump_in_on_wild_cards_witness :
  (isinstance (card_at last_card_game 1) CWild = true
   \/ isinstance (card_at last_card_game 1) CDrawFour = true)
  /\ play_jump_in first_option (play_card first_option 1) 1 last_card_game
     = play first_option 1 last_card_game.
Proof.
  assert (H : isinstance (card_at last_card_game 1) CWild = true
              \/ isinstance (card_at last_card_game 1) CDrawFour = true)
    by (left; reflexivity).
  split; [exact H|].
  exact (no_jump_in_on_wild_cards first_option (play_card first_option 1) 1
                                  last_card_game H).
Defined.

(** The last element of a list ending in [x]. *)
Lemma last_opt_app {A} (l : list A) (x : A) : last_opt (l ++ [x]) = Some x.
Proof. unfold last_opt. rewrite rev_app_distr. reflexivity. Qed.

(** X12. With cards on the pile, [top_pile_card] is the last one and
    the game is not touched. *)
Theorem top_pile_card_reads_top (oracle : nat -> nat) (g : UnoGame)
        (older : list nat) (top : nat) :
  pile g = older ++ [top] -> top_pile_card oracle g = Ok top g.
Proof.
  intros Hp. unfold top_pile_card, bind, get. rewrite Hp, last_opt_app. reflexivity.
Qed.

Lemma top_pile_card_reads_top_witness :
  pile refill_game = [0; 1] ++ [2]
  /\ top_pile_card first_option refill_game = Ok 2 refill_game.
Proof.
  split; [reflexivity|].
  exact (top_pile_card_reads_top first_option refill_game [0; 1] 2 eq_refl).
Defined.

Lemma choice_picks {A} (oracle : nat -> nat) (l : list A) (g : UnoGame) (x : A) :
  nth_error l (oracle (asked g) mod List.length l) = Some x ->
  choice oracle l g = Ok x (with_asked g (S (asked g))).
Proof. intros H. unfold choice. rewrite H. reflexivity. Qed.

(** Rounds of the seeding loop that pick no numbered card only use up
    decisions. *)
Lemma seed_pile_retries (oracle : nat -> nat) (k : nat) :
  forall rounds g,
    (forall i, i < k ->
               exists r, picked oracle g i = Some r
                         /\ isinstance (card_at g r) CNumbered = false) ->
    seed_pile oracle (k + rounds) g
    = seed_pile oracle rounds (with_asked g (asked g + k)).
Proof.
  induction k as [|k IH]; intros rounds g H.
  - cbn [Nat.add]. f_equal. destruct g. unfold with_asked. cbn.
    rewrite Nat.add_0_r. reflexivity.
  - cbn [Nat.add seed_pile]. unfold bind at 1. unfold get at 1. cbv beta iota.
    destruct (H 0 ltac:(lia)) as [r [Hr Hn]].
    unfold picked in Hr. rewrite Nat.add_0_r in Hr.
    unfold bind at 1. rewrite (choice_picks oracle (deck g) g r Hr). cbv beta iota.
    rewrite Hn. rewrite IH.
    + f_equal. unfold with_asked. cbn. f_equal. lia.
    + intros i Hi. destruct (H (S i) ltac:(lia)) as [r' [Hr' Hn']].
      exists r'. split; [|exact Hn'].
      unfold picked in *. cbn [asked deck with_asked].
      replace (S (asked g) + i) with (asked g + S i) by lia. exact Hr'.
Qed.

(** X13. [top_pile_card] on an empty pile draws cards of the deck at
    random until one is numbered.  When the first [k] picks are not
    numbered: after [k] rounds the loop is still running and nothing but
    the decisions used has changed; and if the next pick is a numbered
    card, that card is moved from the deck onto the pile, which is then
    this single card, and returned, players and card objects being as
    before. *)
Theorem top_pile_card_seeds_numbered (oracle : nat -> nat) (rounds : nat)
        (g : UnoGame) (k : nat) :
  pile g = [] ->
  (forall i, i < k ->
             exists r, picked oracle g i = Some r
                       /\ isinstance (card_at g r) CNumbered = false) ->
  (k = rounds ->
   top_pile_card_loop oracle rounds g = Diverge (with_asked g (asked g + k)))
  /\ (forall c, k < rounds ->
                picked oracle g k = Some c ->
                isinstance (card_at g c) CNumbered = true ->
                exists g',
                  top_pile_card_loop oracle rounds g = Ok c g'
                  /\ pile g' = [c]
                  /\ remove_first (fun y => ref_eq g y c) (deck g) = Some (deck g')
                  /\ List.length (deck g) = S (List.length (deck g'))
                  /\ player_list g' = player_list g
                  /\ objects g' = objects g
                  /\ asked g' = asked g + k + 1).
Proof.
  intros Hp Hmiss.
  assert (Hloop : forall rest,
             top_pile_card_loop oracle (k + rest) g
             = (seed_pile oracle rest ;;
                g <- get ;;
                match last_opt (pile g) with
                | Some top => ret top
                | None => raise IndexError
                end) (with_asked g (asked g + k))).
  { intros rest. unfold top_pile_card_loop. unfold bind at 1. unfold get at 1.
    cbv beta iota. rewrite Hp. cbn [last_opt rev].
    unfold bind at 1. rewrite (seed_pile_retries oracle k rest g Hmiss).
    reflexivity. }
  split.
  - intros <-. rewrite <- (Nat.add_0_r k) at 1. rewrite Hloop. reflexivity.
  - intros c Hk Hc Hnum.
    replace rounds with (k + S (rounds - S k)) by lia. rewrite Hloop.
    set (g1 := with_asked g (asked g + k)).
    assert (Hc1 : nth_error (deck g1) (oracle (asked g1) mod List.length (deck g1)) = Some c)
      by exact Hc.
    assert (Hin : In c (deck g)) by (eapply nth_error_In; exact Hc).
    destruct (remove_first_In (fun y => ref_eq g y c) (deck g) c Hin (ref_eq_refl g c))
      as [deck' [Hrem Hlen]].
    unfold bind at 1. cbn [seed_pile].
    unfold bind at 1. unfold get at 1. cbv beta iota.
    unfold bind at 1. rewrite (choice_picks oracle (deck g1) g1 c Hc1). cbv beta iota.
    change (card_at g1 c) with (card_at g c). rewrite Hnum.
    unfold bind at 1. unfold list_remove.
    change (remove_first (fun y => ref_eq (with_asked g1 (S (asked g1))) y c) (deck g1))
      with (remove_first (fun y => ref_eq g y c) (deck g)).
    rewrite Hrem. cbn. rewrite Hp.
    change (last_opt ([] ++ [c])) with (Some c). cbv beta iota. unfold ret.
    eexists. split; [reflexivity|].
    cbn [pile deck player_list objects asked with_pile with_deck with_asked].
    split; [reflexivity|]. split; [reflexivity|]. split; [exact Hlen|].
    split; [reflexivity|]. split; [reflexivity | lia].
Qed.

Lemma top_pile_card_seeds_numbered_witness :
  pile unstarted_game = []
  /\ (forall i, i < 1 ->
                exists r, picked in_turn unstarted_game i = Some r
                          /\ isinstance (card_at unstarted_game r) CNumbered = false)
  /\ 1 < 3
  /\ picked in_turn unstarted_game 1 = Some 1
  /\ isinstance (card_at unstarted_game 1) CNumbered = true
  /\ exists g',
      top_pile_card_loop in_turn 3 unstarted_game = Ok 1 g'
      /\ pile g' = [1]
      /\ remove_first (fun y => ref_eq unstarted_game y 1) (deck unstarted_game)
         = Some (deck g')
      /\ List.length (deck unstarted_game) = S (List.length (deck g'))
      /\ player_list g' = player_list unstarted_game
      /\ objects g' = objects unstarted_game
      /\ asked g' = asked unstarted_game + 1 + 1.
Proof.
  assert (Hmiss : forall i, i < 1 ->
                    exists r, picked in_turn unstarted_game i = Some r
                              /\ isinstance (card_at unstarted_game r) CNumbered = false).
  { intros i Hi. assert (E : i = 0) by lia. subst i.
    exists 0. split; reflexivity. }
  assert (Hk : 1 < 3) by lia.
  split; [reflexivity|]. split; [exact Hmiss|]. split; [exact Hk|].
  split; [reflexivity|]. split; [reflexivity|].
  exact (proj2 (top_pile_card_seeds_numbered in_turn 3 unstarted_game 1 eq_refl Hmiss)
               1 Hk eq_refl eq_refl).
Defined.

(** X14. Under the stacking rule, a draw two played while the next
    player holds a draw two has no effect of its own: no card is dealt,
    nothing is printed and the turn is not moved by [play]. *)
Theorem held_draw_two_defers_penalty (oracle : nat -> nat) (g : UnoGame)
        (card : nat) (k : Colour) (p held : nat) :
  card_at g card = DrawTwoCard k ->
  stacking g = true ->
  player_from_turn g (next_turn g) = Some p ->
  In held (hand_of g p) ->
  isinstance (card_at g held) CDrawTwo = true ->
  play oracle card g = Ok tt g.
Proof.
  intros Hc Hst Hp Hin Hheld.
  unfold play, bind, get. rewrite Hc.
  unfold DrawTwoCard_play, bind, get, unless_holding, bind, get.
  rewrite Hst, Hp. cbn [negb deref ret].
  replace (existsb (fun r => isinstance (card_at g r) CDrawTwo) (hand_of g p))
    with true; [reflexivity|].
  symmetry. apply existsb_exists. exists held. split; assumption.
Qed.

Lemma held_draw_two_defers_penalty_witness :
  card_at draw_two_answerable 2 = DrawTwoCard Blue
  /\ stacking draw_two_answerable = true
  /\ player_from_turn draw_two_answerable (next_turn draw_two_answerable) = Some 1
  /\ In 4 (hand_of draw_two_answerable 1)
  /\ isinstance (card_at draw_two_answerable 4) CDrawTwo = true
  /\ play first_option 2 draw_two_answerable = Ok tt draw_two_answerable.
Proof.
  assert (Hin : In 4 (hand_of draw_two_answerable 1)) by (left; reflexivity).
  split; [reflexivity|]. split; [reflexivity|]. split; [reflexivity|].
  split; [exact Hin|]. split; [reflexivity|].
  exact (held_draw_two_defers_penalty first_option draw_two_answerable 2 Blue 1 4
                                      eq_refl eq_refl eq_refl Hin eq_refl).
Defined.

Lemma nth_list_set_same {A} (l : list A) (i : nat) (x d : A) :
  i < List.length l -> nth i (list_set l i x) d = x.
Proof.
  revert i. induction l as [|a l IH]; intros [|i] H; cbn in *; try lia; auto.
  apply IH. lia.
Qed.

Lemma nth_list_set_other {A} (l : list A) (i j : nat) (x d : A) :
  i <> j -> nth j (list_set l i x) d = nth j l d.
Proof.
  revert i j. induction l as [|a l IH]; intros [|i] [|j] H; cbn; try reflexivity; try lia.
  apply IH. lia.
Qed.

(** X15. [WildCard.play] for a robot found from the turn: the card
    object gets one of the four colours, whatever colour it had; no other
    object changes, nor do the players, deck, pile, turn or spin; the
    choice is announced with the player's name. *)
Theorem wild_card_takes_chosen_colour (oracle : nat -> nat) (g : UnoGame)
        (card cur : nat) (old : option Colour) :
  card_at g card = WildCard old ->
  card < List.length (objects g) ->
  player_from_turn g (turn g) = Some cur ->
  human_of g cur = false ->
  exists k g',
    play oracle card g = Ok tt g'
    /\ In k COLOUR_LIST
    /\ card_at g' card = WildCard (Some k)
    /\ (forall r, r <> card -> card_at g' r = card_at g r)
    /\ player_list g' = player_list g
    /\ deck g' = deck g /\ pile g' = pile g
    /\ turn g' = turn g /\ spin g' = spin g
    /\ console g' = console g ++ [LChose (name_of g cur) k].
Proof.
  intros Hc Hlt Hcur Hrobot.
  assert (Hpick : exists k,
             In k COLOUR_LIST
             /\ (if human_of g cur then get_input oracle COLOUR_LIST
                 else choice oracle COLOUR_LIST) g
                = Ok k (with_asked g (S (asked g)))).
  { assert (Hne : COLOUR_LIST <> []) by discriminate.
    destruct (choice_nonempty oracle COLOUR_LIST g Hne) as [k [Hin Hk]].
    exists k. split; [exact Hin|]. destruct (human_of g cur); exact Hk. }
  destruct Hpick as [k [Hin Hpick]].
  exists k. eexists.
  unfold play. unfold bind at 1. unfold get at 1. cbv beta iota. rewrite Hc.
  unfold WildCard_play, choose_colour.
  unfold bind at 1. unfold get at 1. cbv beta iota.
  rewrite Hcur. unfold bind at 1. unfold deref. unfold ret at 1. cbv beta iota.
  unfold bind at 1. rewrite Hpick. cbv beta iota.
  split; [reflexivity|]. split; [exact Hin|].
  unfold assign_colour, card_at. cbn.
  split.
  { rewrite nth_list_set_same by exact Hlt.
    unfold card_at in Hc. rewrite Hc. reflexivity. }
  split; [intros r Hr; apply nth_list_set_other; congruence|].
  repeat split.
Qed.

Lemma wild_card_takes_chosen_colour_witness :
  card_at coloured_wild_game 1 = WildCard (Some Red)
  /\ 1 < List.length (objects coloured_wild_game)
  /\ player_from_turn coloured_wild_game (turn coloured_wild_game) = Some 1
  /\ human_of coloured_wild_game 1 = false
  /\ exists k g',
      play first_option 1 coloured_wild_game = Ok tt g'
      /\ In k COLOUR_LIST
      /\ card_at g' 1 = WildCard (Some k)
      /\ (forall r, r <> 1 -> card_at g' r = card_at coloured_wild_game r)
      /\ player_list g' = player_list coloured_wild_game
      /\ deck g' = deck coloured_wild_game /\ pile g' = pile coloured_wild_game
      /\ turn g' = turn coloured_wild_game /\ spin g' = spin coloured_wild_game
      /\ console g'
         = console coloured_wild_game ++ [LChose (name_of coloured_wild_game 1) k].
Proof.
  assert (Hlt : 1 < List.length (objects coloured_wild_game)) by (cbn; lia).
  split; [reflexivity|]. split; [exact Hlt|]. split; [reflexivity|].
  split; [reflexivity|].
  exact (wild_card_takes_chosen_colour first_option coloured_wild_game 1 1 (Some Red)
                                       eq_refl Hlt eq_refl eq_refl).
Defined.

(** ** A new game *)

Lemma deal_card_empty_pile oracle g p pl :
  deck g <> [] -> nth_error (player_list g) p = Some pl -> pile g = [] ->
  forall c g', deal_card oracle (Some p) g = Ok c g' -> pile g' = [].
Proof.
  intros Hne Hpl Hp c g' Hrun.
  destruct (deal_card_spec oracle g p pl Hne Hpl) as [c0 [deck' [_ [_ Hrun0]]]].
  rewrite Hrun0 in Hrun. cbv zeta in Hrun. injection Hrun as _ <-.
  set (g1 := set_hand _ p _).
  assert (Hp1 : pile g1 = []) by (unfold g1; rewrite pile_set_hand; exact Hp).
  destruct deck'; [|exact Hp1].
  unfold refilled. rewrite Hp1. cbn. exact Hp1.
Qed.

(** One round of the dealing loop over the players [ps]. *)
Lemma deal_round (oracle : nat -> nat) (ps : list nat) :
  forall g,
    (forall p, In p ps -> p < List.length (player_list g)) ->
    List.length ps <= List.length (deck g) ->
    pile g = [] ->
    exists g',
      for_each ps (fun player => deal_card oracle (Some player) ;; ret tt) g = Ok tt g'
      /\ (forall q, List.length (hand_of g' q)
                    = List.length (hand_of g q) + count_occ Nat.eq_dec ps q)
      /\ same_seats g g'
      /\ pile g' = []
      /\ List.length (deck g') + List.length ps = List.length (deck g).
Proof.
  induction ps as [|p rest IH]; intros g Hv Hk Hp.
  - exists g. cbn. repeat split; auto.
  - assert (Hpv : p < List.length (player_list g)) by (apply Hv; left; reflexivity).
    destruct (nth_error (player_list g) p) as [pl|] eqn:Epl;
      [|apply nth_error_None in Epl; lia].
    assert (Hne : deck g <> []) by (destruct (deck g); [cbn in Hk; lia | discriminate]).
    destruct (deal_card_step oracle g p pl Hne Epl)
      as [c [g1 [Hrun [_ [Hh [Ho [Hs [Hst Hd]]]]]]]].
    pose proof (deal_card_empty_pile oracle g p pl Hne Epl Hp c g1 Hrun) as Hp1.
    rewrite Hp, Hp1 in Hst. cbn [List.length] in Hst, Hk.
    destruct (IH g1) as [g' [Hrun' [Hh' [Hs' [Hp' Hd']]]]].
    + intros q Hq. rewrite (same_seats_players g g1 Hs). apply Hv. right; exact Hq.
    + lia.
    + exact Hp1.
    + exists g'. cbn [for_each]. unfold bind at 1. unfold bind at 1.
      rewrite Hrun. unfold ret at 1. cbv beta iota.
      split; [exact Hrun'|].
      split.
      { intros q. rewrite Hh'. cbn [count_occ].
        assert (Hhg : hand_of g p = hand pl) by (unfold hand_of; rewrite Epl; reflexivity).
        destruct (Nat.eq_dec p q) as [<-|Hne'].
        - rewrite Hh, Hhg, length_app. cbn. lia.
        - rewrite Ho by congruence. lia. }
      split; [exact (same_seats_trans _ _ _ Hs Hs')|].
      split; [exact Hp'|]. cbn [List.length]. lia.
Qed.

Lemma count_occ_seq (n q : nat) :
  count_occ Nat.eq_dec (seq 0 n) q = if q <? n then 1 else 0.
Proof.
  induction n as [|n IH]; [reflexivity|].
  rewrite seq_S, count_occ_app, IH. cbn [count_occ Nat.add].
  destruct (Nat.eq_dec n q) as [<-|Hne].
  - rewrite Nat.ltb_irrefl. replace (n <? S n) with true by (symmetry; apply Nat.ltb_lt; lia).
    reflexivity.
  - destruct (Nat.ltb_spec q n), (Nat.ltb_spec q (S n)); lia.
Qed.

(** [k] rounds over all [n] players. *)
Lemma deal_rounds (oracle : nat -> nat) (n k : nat) :
  forall g,
    List.length (player_list g) = n ->
    k * n <= List.length (deck g) ->
    pile g = [] ->
    exists g',
      repeat_do k (for_each (seq 0 n)
                            (fun player => deal_card oracle (Some player) ;; ret tt)) g
      = Ok tt g'
      /\ (forall q, q < n -> List.length (hand_of g' q) = List.length (hand_of g q) + k)
      /\ same_seats g g'
      /\ pile g' = []
      /\ List.length (deck g') + k * n = List.length (deck g).
Proof.
  induction k as [|k IH]; intros g Hn Hk Hp.
  - exists g. cbn. repeat split; auto.
  - destruct (deal_round oracle (seq 0 n) g) as [g1 [Hrun [Hh [Hs [Hp1 Hd]]]]].
    + intros p Hin. apply in_seq in Hin. lia.
    + rewrite length_seq. cbn in Hk. lia.
    + exact Hp.
    + rewrite length_seq in Hd.
      destruct (IH g1) as [g' [Hrun' [Hh' [Hs' [Hp' Hd']]]]].
      * rewrite (same_seats_players g g1 Hs). exact Hn.
      * cbn in Hk. lia.
      * exact Hp1.
      * exists g'. cbn [repeat_do]. unfold bind at 1. rewrite Hrun.
        split; [exact Hrun'|].
        split.
        { intros q Hq. rewrite (Hh' q Hq), Hh, count_occ_seq.
          replace (q <? n) with true by (symmetry; apply Nat.ltb_lt; exact Hq). lia. }
        split; [exact (same_seats_trans _ _ _ Hs Hs')|].
        split; [exact Hp'|]. cbn. lia.
Qed.

Lemma new_players_empty_hand pc hc p :
  hand_of (mkGame [] (new_players pc hc) [] [] 1 1 false false false [] 0) p = [].
Proof.
  unfold hand_of. cbn [player_list].
  destruct (nth_error (new_players pc hc) p) as [pl|] eqn:E; [|reflexivity].
  apply nth_error_In in E. unfold new_players in E.
  apply in_app_iff in E. destruct E as [E|E];
    apply in_map_iff in E; destruct E as [x [<- _]]; reflexivity.
Qed.

(** X16. [__init__] for a new game with at most fifteen players always
    succeeds: every player holds seven cards, the deck holds the rest of
    the 108, the pile is empty, the players are named and typed as
    created, the turn is 1, the spin 1 and the rules as given. *)
Theorem new_game_deals_seven (oracle : nat -> nat) (pc hc : nat) (j s z : bool) :
  let n := List.length (new_players pc hc) in
  7 * n <= 108 ->
  exists g,
    new_game oracle pc hc j s z = Ok tt g
    /\ (forall p, p < n -> List.length (hand_of g p) = 7)
    /\ List.length (deck g) + 7 * n = 108
    /\ pile g = []
    /\ map name (player_list g) = map name (new_players pc hc)
    /\ map human (player_list g) = map human (new_players pc hc)
    /\ turn g = 1%Z /\ spin g = 1%Z
    /\ jump_in g = j /\ stacking g = s /\ seven_zero g = z.
Proof.
  intros n Hn. unfold new_game, init_cards.
  pose proof (new_players_empty_hand pc hc) as Hempty.
  unfold hand_of in Hempty. cbn [player_list] in Hempty.
  fold n. unfold n in *. clear n.
  set (players := new_players pc hc) in *. clearbody players.
  unfold bind at 1.
  set (build := for_each COLOUR_LIST _).
  assert (E : build (mkGame [] players [] [] 1 1 j s z [] 0)
              = Ok tt (mkGame new_cards players (seq 0 108) [] 1 1 j s z [] 0)).
  { vm_compute. reflexivity. }
  rewrite E. cbv beta iota.
  set (g1 := mkGame new_cards players (seq 0 108) [] 1 1 j s z [] 0).
  unfold bind at 1. unfold get at 1. cbv beta iota.
  destruct (deal_rounds oracle (List.length players) 7 g1)
    as [g' [Hrun [Hh [Hs [Hp Hd]]]]].
  - reflexivity.
  - cbn [deck g1]. rewrite length_seq. lia.
  - reflexivity.
  - exists g'. split; [exact Hrun|].
    split.
    { intros p Hp'. rewrite (Hh p Hp'). unfold hand_of. cbn [player_list g1].
      rewrite (Hempty p). reflexivity. }
    cbn [deck g1] in Hd. rewrite length_seq in Hd.
    split; [lia|]. split; [exact Hp|].
    destruct Hs as [_ [Hn1 [Hn2 [Ht [Hsp [Hj [Hst Hsz]]]]]]].
    destruct Hsz as [Hsz _].
    repeat split; assumption.
Qed.

Lemma new_game_deals_seven_witness :
  7 * List.length (new_players 3 1) <= 108
  /\ exists g,
      new_game first_option 3 1 true false true = Ok tt g
      /\ (forall p, p < List.length (new_players 3 1) -> List.length (hand_of g p) = 7)
      /\ List.length (deck g) + 7 * List.length (new_players 3 1) = 108
      /\ pile g = []
      /\ map name (player_list g) = map name (new_players 3 1)
      /\ map human (player_list g) = map human (new_players 3 1)
      /\ turn g = 1%Z /\ spin g = 1%Z
      /\ jump_in g = true /\ stacking g = false /\ seven_zero g = true.
Proof.
  assert (H : 7 * List.length (new_players 3 1) <= 108) by (cbn; lia).
  split; [exact H|].
  exact (new_game_deals_seven first_option 3 1 true false true H).
Defined.

(** ** The seven rule, seats and names *)

Lemma swap_hands_exchanges (oracle : nat -> nat) (g : UnoGame) (cur : nat) :
  player_from_turn g (turn g) = Some cur ->
  human_of g cur = false ->
  2 <= List.length (player_list g) ->
  exists other g',
    swap_hands oracle g = Ok tt g'
    /\ other <> cur
    /\ other < List.length (player_list g)
    /\ hand_of g' cur = hand_of g other
    /\ hand_of g' other = hand_of g cur
    /\ (forall q, q <> cur -> q <> other -> hand_of g' q = hand_of g q)
    /\ table g' = table g
    /\ console g' = console g ++ [LSwapped (name_of g cur) (name_of g other)].
Proof.
  intros Ecur Hrobot Hn.
  assert (Hcur : cur < List.length (player_list g))
    by (eapply player_from_turn_bound; eauto).
  unfold swap_hands.
  unfold bind at 1. unfold get at 1. cbv beta iota zeta. rewrite Ecur.
  unfold bind at 1. unfold deref. unfold ret at 1. cbv beta iota.
  set (others := filter _ (seq 0 (List.length (player_list g)))).
  assert (Hothers : forall i, In i others <-> i < List.length (player_list g) /\ i <> cur).
  { intros i. unfold others. rewrite filter_In, in_seq, negb_true_iff, Nat.eqb_neq. lia. }
  assert (Hne : others <> []).
  { intros E. assert (Hin : In (if Nat.eqb cur 0 then 1 else 0) others).
    { apply Hothers. destruct (Nat.eqb_spec cur 0); lia. }
    rewrite E in Hin. inversion Hin. }
  (* whoever chooses, the partner is one of the others *)
  assert (Hpick : exists other,
             In other others
             /\ (if human_of g cur
                 then
                   new_player_name <- get_input oracle (map (name_of g) others) ;;
                   match find_index (fun pl => String.eqb (name pl) new_player_name)
                                    (player_list g) with
                   | Some i => ret i
                   | None => raise IndexError
                   end
                 else choice oracle others) g
                = Ok other (with_asked g (S (asked g)))).
  { rewrite Hrobot.
    destruct (choice_nonempty oracle others g Hne) as [o [Hin Hch]].
    exists o. split; [exact Hin | exact Hch]. }
  destruct Hpick as [other [Hin Hpick]].
  apply Hothers in Hin. destruct Hin as [Hlt Hneq].
  exists other. eexists.
  unfold bind at 1. rewrite Hpick. cbv beta iota.
  split; [reflexivity|].
  split; [exact Hneq|]. split; [exact Hlt|].
  set (g0 := with_asked g (S (asked g))).
  set (g1 := set_hand g0 cur (hand_of g other)).
  set (g2 := set_hand g1 other (hand_of g cur)).
  change (hand_of g2 cur = hand_of g other
          /\ hand_of g2 other = hand_of g cur
          /\ (forall q, q <> cur -> q <> other -> hand_of g2 q = hand_of g q)
          /\ table g2 = table g
          /\ console g2 ++ [LSwapped (name_of g cur) (name_of g other)]
             = console g ++ [LSwapped (name_of g cur) (name_of g other)]).
  assert (Hl1 : List.length (player_list g1) = List.length (player_list g))
    by (unfold g1; rewrite length_set_hand; reflexivity).
  split.
  { unfold g2. rewrite hand_of_set_hand_other by exact Hneq.
    unfold g1. rewrite hand_of_set_hand by exact Hcur.
    rewrite Nat.eqb_refl. reflexivity. }
  split.
  { unfold g2. rewrite hand_of_set_hand by lia. rewrite Nat.eqb_refl. reflexivity. }
  split.
  { intros q Hq1 Hq2. unfold g2. rewrite hand_of_set_hand_other by congruence.
    unfold g1. rewrite hand_of_set_hand_other by congruence. reflexivity. }
  split.
  { unfold g2, g1. rewrite !table_set_hand. reflexivity. }
  { unfold g2, g1. rewrite !console_set_hand. reflexivity. }
Qed.

(** X17. A 7 played under the seven-zero rule by a robot found from the
    turn, among at least two players: the current player's hand and the
    hand of one other player are exchanged, every other hand stays, deck,
    pile, turn and spin are untouched, and the swap is announced with
    both names. *)
Theorem seven_swaps_two_hands (oracle : nat -> nat) (g : UnoGame)
        (card : nat) (k : Colour) (cur : nat) :
  seven_zero g = true ->
  card_at g card = NumberedCard k 7 ->
  player_from_turn g (turn g) = Some cur ->
  human_of g cur = false ->
  2 <= List.length (player_list g) ->
  exists other g',
    play oracle card g = Ok tt g'
    /\ other <> cur
    /\ other < List.length (player_list g)
    /\ hand_of g' cur = hand_of g other
    /\ hand_of g' other = hand_of g cur
    /\ (forall q, q <> cur -> q <> other -> hand_of g' q = hand_of g q)
    /\ table g' = table g
    /\ console g' = console g ++ [LSwapped (name_of g cur) (name_of g other)].
Proof.
  intros Hrule Hcard Ecur Hrobot Hn.
  destruct (swap_hands_exchanges oracle g cur Ecur Hrobot Hn) as [other [g' H]].
  exists other, g'.
  unfold play, bind, get. rewrite Hcard.
  unfold NumberedCard_play, bind, get. rewrite Hrule. exact H.
Qed.

Lemma seven_swaps_two_hands_witness :
  seven_zero seven_game = true
  /\ card_at seven_game 0 = NumberedCard Red 7
  /\ player_from_turn seven_game (turn seven_game) = Some 0
  /\ human_of seven_game 0 = false
  /\ 2 <= List.length (player_list seven_game)
  /\ exists other g',
      play first_option 0 seven_game = Ok tt g'
      /\ other <> 0
      /\ other < List.length (player_list seven_game)
      /\ hand_of g' 0 = hand_of seven_game other
      /\ hand_of g' other = hand_of seven_game 0
      /\ (forall q, q <> 0 -> q <> other -> hand_of g' q = hand_of seven_game q)
      /\ table g' = table seven_game
      /\ console g'
         = console seven_game
           ++ [LSwapped (name_of seven_game 0) (name_of seven_game other)].
Proof.
  assert (Hn : 2 <= List.length (player_list seven_game)) by (cbn; lia).
  split; [reflexivity|]. split; [reflexivity|]. split; [reflexivity|].
  split; [reflexivity|]. split; [exact Hn|].
  exact (seven_swaps_two_hands first_option seven_game 0 Red 0
                               eq_refl eq_refl eq_refl eq_refl Hn).
Defined.

Lemma find_index_map {A B} (f : B -> bool) (h : A -> B) (l : list A) :
  find_index (fun x => f (h x)) l = find_index f (map h l).
Proof.
  induction l as [|x rest IH]; cbn; [reflexivity|].
  destruct (f (h x)); [reflexivity | rewrite IH; reflexivity].
Qed.

Lemma new_players_names pc hc :
  map name (new_players pc hc) = map player_name (seq 1 (hc + (pc - hc))).
Proof.
  unfold new_players. rewrite map_app, !map_map, seq_app, map_app. reflexivity.
Qed.

(** X18. With the names [__init__] gives and at most ten players,
    [player_from_turn] of a turn between 1 and the number of players is
    the player at that seat. *)
Theorem turn_designates_seat (g : UnoGame) (pc hc t : nat) :
  map name (player_list g) = map name (new_players pc hc) ->
  List.length (player_list g) <= 10 ->
  1 <= t <= List.length (player_list g) ->
  player_from_turn g (Z.of_nat t) = Some (t - 1).
Proof.
  intros Hnames Hm Ht. rewrite new_players_names in Hnames.
  set (m := hc + (pc - hc)) in *.
  assert (Hlen : List.length (player_list g) = m).
  { rewrite <- (length_map name), Hnames, length_map, length_seq. reflexivity. }
  rewrite Hlen in Hm, Ht. unfold player_from_turn.
  rewrite (find_index_map (contains (str_of_int (Z.of_nat t))) name), Hnames.
  assert (Hall : forallb seats_found (seq 0 11) = true) by (vm_compute; reflexivity).
  rewrite forallb_forall in Hall.
  specialize (Hall m ltac:(apply in_seq; lia)).
  unfold seats_found in Hall. rewrite forallb_forall in Hall.
  specialize (Hall t ltac:(apply in_seq; lia)).
  destruct (find_index _ _) as [i|]; [|discriminate].
  apply Nat.eqb_eq in Hall. f_equal. lia.
Qed.

Lemma turn_designates_seat_witness :
  map name (player_list (zero_game 1)) = map name (new_players 4 0)
  /\ List.length (player_list (zero_game 1)) <= 10
  /\ 1 <= 3 <= List.length (player_list (zero_game 1))
  /\ player_from_turn (zero_game 1) (Z.of_nat 3) = Some (3 - 1).
Proof.
  assert (Hm : List.length (player_list (zero_game 1)) <= 10) by (cbn; lia).
  assert (Ht : 1 <= 3 <= List.length (player_list (zero_game 1))) by (cbn; lia).
  split; [reflexivity|]. split; [exact Hm|]. split; [exact Ht|].
  exact (turn_designates_seat (zero_game 1) 4 0 3 eq_refl Hm Ht).
Defined.

(** X19. The turn [play_jump_in] sets after a jump-in,
    [int(player.name[-1])], is the seat of the player for players 1 to 9
    and 0 for player 10. *)
Theorem jump_in_turn_is_last_digit (k : nat) (g : UnoGame) :
  1 <= k <= 10 ->
  turn_of_name (player_name k) g = Ok (Z.of_nat (k mod 10)) g.
Proof.
  intros Hk.
  assert (H : k = 1 \/ k = 2 \/ k = 3 \/ k = 4 \/ k = 5 \/ k = 6 \/ k = 7
              \/ k = 8 \/ k = 9 \/ k = 10) by lia.
  repeat (destruct H as [-> | H]; [reflexivity|]). subst k. reflexivity.
Qed.

Lemma jump_in_turn_is_last_digit_witness :
  1 <= 10 <= 10
  /\ turn_of_name (player_name 10) (zero_game 1) = Ok 0%Z (zero_game 1).
Proof.
  assert (H : 1 <= 10 <= 10) by lia.
  split; [exact H|].
  exact (jump_in_turn_is_last_digit 10 (zero_game 1) H).
Defined.

(** X20. [NumberedCard.play] does nothing at all when the seven-zero
    rule is off, or when the number is neither 7 nor 0. *)
Theorem numbered_card_without_effect (oracle : nat -> nat) (g : UnoGame)
        (card : nat) (k : Colour) (number : Z) :
  card_at g card = NumberedCard k number ->
  seven_zero g = false \/ (number <> 7%Z /\ number <> 0%Z) ->
  play oracle card g = Ok tt g.
Proof.
  intros Hc H. unfold play, bind, get. rewrite Hc.
  unfold NumberedCard_play, bind, get.
  destruct (seven_zero g); [|reflexivity].
  destruct H as [H|[H7 H0]]; [discriminate|].
  apply Z.eqb_neq in H7, H0. rewrite H7, H0. reflexivity.
Qed.

Lemma numbered_card_without_effect_witness :
  card_at seven_game 3 = NumberedCard Red 3
  /\ (seven_zero seven_game = false \/ (3 <> 7 /\ 3 <> 0)%Z)
  /\ play first_option 3 seven_game = Ok tt seven_game.
Proof.
  assert (H : seven_zero seven_game = false \/ (3 <> 7 /\ 3 <> 0)%Z)
    by (right; split; discriminate).
  split; [reflexivity|]. split; [exact H|].
  exact (numbered_card_without_effect first_option seven_game 3 Red 3 eq_refl H).
Defined.

(** ** Loading gives fresh objects *)

Lemma loaded_players_refs (players : list Player) (start : nat) :
  flat_map hand (loaded_players start players)
  = seq start (List.length (flat_map hand players)).
Proof.
  revert start. induction players as [|pl rest IH]; intros start;
    cbn [loaded_players flat_map hand]; [reflexivity|].
  rewrite IH, length_app, seq_app. reflexivity.
Qed.

Lemma load_game_saved (g : UnoGame) :
  NoDup (map name (player_list g)) ->
  (forall pl, In pl (player_list g) -> contains "Player" (name pl) = true) ->
  let h := List.length (flat_map hand (player_list g)) in
  exists objs,
    load_game (save_game g)
    = Some (mkGame objs (loaded_players 0 (player_list g))
                   (seq h (List.length (deck g)))
                   (seq (h + List.length (deck g)) (List.length (pile g)))
                   (turn g) (spin g) (jump_in g) (stacking g) (seven_zero g) [] 0)
    /\ List.length objs = h + List.length (deck g) + List.length (pile g).
Proof.
  intros Hnd Hnames h.
  rewrite (save_game_entries g Hnd Hnames).
  unfold load_game.
  change (load_players [] (base_data g ++ map (player_entry g) (player_list g)))
    with (load_players [] (map (player_entry g) (player_list g))).
  rewrite (load_players_entries g (player_list g) [] Hnames).
  cbn [app List.length].
  change (get_strings (base_data g ++ map (player_entry g) (player_list g)) "deck")
    with (Some (map (fun r => repr (card_at g r)) (deck g))).
  change (get_strings (base_data g ++ map (player_entry g) (player_list g)) "pile")
    with (Some (map (fun r => repr (card_at g r)) (pile g))).
  change (get_int (base_data g ++ map (player_entry g) (player_list g)) "turn" 1)
    with (Some (turn g)).
  change (get_int (base_data g ++ map (player_entry g) (player_list g)) "spin" 1)
    with (Some (spin g)).
  change (get_bool (base_data g ++ map (player_entry g) (player_list g)) "jump_in" false)
    with (Some (jump_in g)).
  change (get_bool (base_data g ++ map (player_entry g) (player_list g)) "stacking" false)
    with (Some (stacking g)).
  change (get_bool (base_data g ++ map (player_entry g) (player_list g)) "seven_zero" false)
    with (Some (seven_zero g)).
  rewrite <- !(map_map (card_at g) repr), !load_cards_repr.
  assert (Hh : List.length (flat_map (reloaded_hand g) (player_list g)) = h).
  { unfold h. induction (player_list g) as [|pl rest IH]; [reflexivity|].
    cbn [flat_map]. rewrite !length_app, IH.
    - unfold reloaded_hand. rewrite !length_map. reflexivity.
    - inversion Hnd; assumption.
    - intros pl' H. apply Hnames. right; exact H. }
  eexists. split.
  - rewrite !length_map, !length_app, !length_map, Hh. reflexivity.
  - rewrite !length_app, !length_map, Hh. reflexivity.
Qed.

(** X21. Saving and loading a game whose players have distinct names
    containing ["Player"] gives a game with as many cards as the saved one
    in which every card object lies in exactly one of deck, pile and
    hands: the references held are those of all objects, each once, even
    if the saved game held one object in two places. *)
Theorem loaded_cards_are_distinct (g : UnoGame) :
  NoDup (map name (player_list g)) ->
  (forall pl, In pl (player_list g) -> contains "Player" (name pl) = true) ->
  exists g',
    load_game (save_game g) = Some g'
    /\ card_total g' = card_total g
    /\ List.length (objects g') = card_total g
    /\ Permutation (all_refs g') (seq 0 (card_total g)).
Proof.
  intros Hnd Hnames.
  destruct (load_game_saved g Hnd Hnames) as [objs [Hload Hlen]].
  cbv zeta in Hload, Hlen.
  set (h := List.length (flat_map hand (player_list g))) in *.
  eexists. split; [exact Hload|].
  assert (Ht : card_total g = h + List.length (deck g) + List.length (pile g)).
  { unfold card_total, all_refs. rewrite !length_app. fold h. lia. }
  assert (Hrefs : Permutation
                    (seq h (List.length (deck g))
                     ++ seq (h + List.length (deck g)) (List.length (pile g))
                     ++ flat_map hand (loaded_players 0 (player_list g)))
                    (seq 0 (card_total g))).
  { rewrite loaded_players_refs. fold h. rewrite Ht.
    rewrite app_assoc, <- seq_app.
    rewrite <- Nat.add_assoc.
    rewrite (seq_app h (List.length (deck g) + List.length (pile g)) 0).
    apply Permutation_app_comm. }
  split.
  { unfold card_total at 1, all_refs. cbn [deck pile player_list].
    rewrite (Permutation_length Hrefs), length_seq. reflexivity. }
  split; [cbn [objects]; lia|].
  exact Hrefs.
Qed.

Lemma loaded_cards_are_distinct_witness :
  NoDup (map name (player_list coloured_wild_game))
  /\ (forall pl, In pl (player_list coloured_wild_game) ->
                 contains "Player" (name pl) = true)
  /\ exists g',
      load_game (save_game coloured_wild_game) = Some g'
      /\ card_total g' = card_total coloured_wild_game
      /\ List.length (objects g') = card_total coloured_wild_game
      /\ Permutation (all_refs g') (seq 0 (card_total coloured_wild_game)).
Proof.
  assert (Hnd : NoDup (map name (player_list coloured_wild_game))).
  { vm_compute. repeat constructor; cbn; intuition discriminate. }
  assert (Hnames : forall pl, In pl (player_list coloured_wild_game) ->
                              contains "Player" (name pl) = true).
  { intros pl H. vm_compute in H. destruct H as [<-|[<-|[]]]; reflexivity. }
  split; [exact Hnd|]. split; [exact Hnames|].
  exact (loaded_cards_are_distinct coloured_wild_game Hnd Hnames).
Defined.

(** ** The rounds of the game *)

Lemma bind_Ok {A B} (m : M A) (k : A -> M B) g a g1 :
  m g = Ok a g1 -> (x <- m ;; k x) g = k a g1.
Proof. intros H. unfold bind. rewrite H. reflexivity. Qed.

Section PlayableHand.
Context {A : Type}.
Variable look : A -> Card.
Variable st : bool.
Variable current : Card.

Lemma playable_of_in_hand (hand : list A) (x : A) :
  In x (playable_of look st current hand) -> In x hand.
Proof.
  unfold playable_of.
  destruct (flat_map (first_loop_step look st current) hand) as [|f F] eqn:EF.
  - rewrite second_loop_empty.
    destruct (find (fun c => isinstance (look c) CDrawFour) hand) as [d|] eqn:Ef;
      [|intros []].
    intros [<-|[]]. apply find_some in Ef. tauto.
  - rewrite second_loop_nonempty by discriminate. rewrite <- EF.
    intros H. apply (first_loop_in_hand look st current) in H. tauto.
Qed.

Lemma nothing_playable_no_wild (hand : list A) (x : A) :
  playable_of look st current hand = [] ->
  In x hand ->
  isinstance (look x) CWild || isinstance (look x) CDrawFour = false.
Proof.
  unfold playable_of. intros Hnone Hx.
  destruct (flat_map (first_loop_step look st current) hand) as [|f F] eqn:EF.
  - rewrite second_loop_empty in Hnone.
    destruct (find (fun c => isinstance (look c) CDrawFour) hand) as [d|] eqn:Ef;
      [discriminate|].
    rewrite (find_none _ _ Ef x Hx), orb_false_r.
    destruct (isinstance (look x) CWild) eqn:Ew; [|reflexivity].
    exfalso.
    assert (Hin : In x (flat_map (first_loop_step look st current) hand)).
    { apply in_flat_map. exists x. split; [exact Hx|].
      unfold first_loop_step. cbv zeta. rewrite Ew. left; reflexivity. }
    rewrite EF in Hin. inversion Hin.
  - rewrite second_loop_nonempty in Hnone by discriminate. discriminate.
Qed.
End PlayableHand.

Lemma top_pile_card_top oracle g top :
  last_opt (pile g) = Some top -> top_pile_card oracle g = Ok top g.
Proof. intros H. unfold top_pile_card, bind, get. rewrite H. reflexivity. Qed.

Lemma last_opt_refilled g : last_opt (pile (refilled g)) = last_opt (pile g).
Proof.
  unfold refilled. destruct (rev (pile g)) as [|top older] eqn:E; [reflexivity|].
  cbn [pile with_deck with_pile]. unfold last_opt. rewrite E. reflexivity.
Qed.

(** X22. For a robot with a card on the pile and something playable in
    the hand, [get_played_card] returns a member of [playable_cards]: a
    card of the robot's own hand that matches the top card or is a draw
    four; it changes nothing in the game. *)
Theorem played_card_is_playable (oracle : nat -> nat) (g : UnoGame) (p : nat)
        (older : list nat) (top : nat) :
  let playable :=
    playable_of (card_at g) (stacking g) (card_at g top) (hand_of g p) in
  human_of g p = false ->
  pile g = older ++ [top] ->
  playable <> [] ->
  exists c,
    get_played_card oracle p g = Ok c (with_asked g (S (asked g)))
    /\ In c playable
    /\ In c (hand_of g p)
    /\ (matches_top (card_at g c) (card_at g top)
        \/ isinstance (card_at g c) CDrawFour = true).
Proof.
  intros playable Hrobot Hpile Hne.
  assert (Htop : top_pile_card oracle g = Ok top g)
    by (apply top_pile_card_top; rewrite Hpile; apply last_opt_app).
  assert (Hplay : playable_cards oracle p g = Ok playable g).
  { unfold playable_cards. rewrite (bind_Ok _ _ _ _ _ Htop). reflexivity. }
  unfold get_played_card. unfold bind at 1. unfold get at 1. cbv beta iota.
  rewrite Hrobot. rewrite (bind_Ok _ _ _ _ _ Hplay).
  destruct (choice_nonempty oracle playable g Hne) as [c [Hc Hch]].
  assert (Hin : In c (hand_of g p)) by exact (playable_of_in_hand _ _ _ _ _ Hc).
  exists c. split; [exact Hch|]. split; [exact Hc|]. split; [exact Hin|].
  destruct (isinstance (card_at g c) CDrawFour) eqn:Edf; [right; reflexivity|].
  left. apply (other_playable_iff (card_at g) (stacking g) (card_at g top)
                                  (hand_of g p) c Edf Hin). exact Hc.
Qed.

Lemma played_card_is_playable_witness :
  human_of last_card_game 0 = false
  /\ pile last_card_game = [] ++ [0]
  /\ playable_of (card_at last_card_game) (stacking last_card_game)
                 (card_at last_card_game 0) (hand_of last_card_game 0) <> []
  /\ exists c,
      get_played_card first_option 0 last_card_game
      = Ok c (with_asked last_card_game (S (asked last_card_game)))
      /\ In c (playable_of (card_at last_card_game) (stacking last_card_game)
                           (card_at last_card_game 0) (hand_of last_card_game 0))
      /\ In c (hand_of last_card_game 0)
      /\ (matches_top (card_at last_card_game c) (card_at last_card_game 0)
          \/ isinstance (card_at last_card_game c) CDrawFour = true).
Proof.
  assert (Hne : playable_of (card_at last_card_game) (stacking last_card_game)
                            (card_at last_card_game 0) (hand_of last_card_game 0)
                <> []) by (vm_compute; discriminate).
  split; [reflexivity|]. split; [reflexivity|]. split; [exact Hne|].
  exact (played_card_is_playable first_option last_card_game 0 [] 0
                                 eq_refl eq_refl Hne).
Defined.

Lemma reset_colours_nothing (g : UnoGame) (cards : list nat) :
  (forall x, In x cards ->
             isinstance (card_at g x) CWild || isinstance (card_at g x) CDrawFour = false) ->
  for_each cards
    (fun card =>
       g <- get ;;
       if isinstance (card_at g card) CWild || isinstance (card_at g card) CDrawFour
       then modify (fun g => assign_colour g card None)
       else ret tt) g
  = Ok tt g.
Proof.
  induction cards as [|x rest IH]; intros H; [reflexivity|].
  cbn [for_each]. unfold bind at 1. unfold bind at 1. unfold get at 1. cbv beta iota.
  rewrite (H x (or_introl eq_refl)). unfold ret at 1. cbv beta iota.
  apply IH. intros y Hy. apply H. right; exact Hy.
Qed.

Lemma deal_card_keeps_top oracle g p pl c g' :
  deck g <> [] -> nth_error (player_list g) p = Some pl ->
  deal_card oracle (Some p) g = Ok c g' ->
  last_opt (pile g') = last_opt (pile g).
Proof.
  intros Hne Hpl Hrun.
  destruct (deal_card_spec oracle g p pl Hne Hpl) as [c0 [deck' [_ [_ Hrun0]]]].
  rewrite Hrun0 in Hrun. cbv zeta in Hrun. injection Hrun as _ <-.
  set (g1 := set_hand _ p _).
  assert (Hp1 : pile g1 = pile g) by (unfold g1; rewrite pile_set_hand; reflexivity).
  destruct deck'; [rewrite last_opt_refilled|]; rewrite Hp1; reflexivity.
Qed.

Lemma same_seats_human_of g g' q : same_seats g g' -> human_of g' q = human_of g q.
Proof.
  intros [_ [_ [Hh _]]]. unfold human_of.
  pose proof (f_equal (fun l => nth_error l q) Hh) as H. cbn in H.
  rewrite !nth_error_map in H.
  destruct (nth_error (player_list g') q), (nth_error (player_list g) q);
    cbn in H; congruence.
Qed.

(** X23. A round of [run_game] for a player who is found from the turn
    and has nothing playable, with cards in the deck: the player gets one
    card of the deck appended to the hand and plays nothing, whether the
    drawn card is playable or not; the other hands and the card objects
    stay, the top card is the same, deck and pile together hold one card
    less, and the turn moves on to [next_turn]. *)
Theorem no_playable_card_draws_one (oracle : nat -> nat) (depth : nat)
        (g : UnoGame) (cur : nat) (older : list nat) (top : nat) :
  player_from_turn g (turn g) = Some cur ->
  pile g = older ++ [top] ->
  playable_of (card_at g) (stacking g) (card_at g top) (hand_of g cur) = [] ->
  deck g <> [] ->
  exists c g',
    take_turn oracle depth g = Ok tt g'
    /\ In c (deck g)
    /\ hand_of g' cur = hand_of g cur ++ [c]
    /\ (forall q, q <> cur -> hand_of g' q = hand_of g q)
    /\ objects g' = objects g
    /\ last_opt (pile g') = Some top
    /\ List.length (deck g') + List.length (pile g') + 1
       = List.length (deck g) + List.length (pile g)
    /\ turn g' = next_turn g
    /\ spin g' = spin g.
Proof.
  intros Hcur Hpile Hnone Hdeck.
  assert (Hlt : cur < List.length (player_list g))
    by (eapply player_from_turn_bound; eauto).
  destruct (nth_error (player_list g) cur) as [pl|] eqn:Epl;
    [|apply nth_error_None in Epl; lia].
  assert (Hhand : hand_of g cur = hand pl) by (unfold hand_of; rewrite Epl; reflexivity).
  unfold take_turn.
  unfold bind at 1. unfold get at 1. cbv beta iota.
  rewrite Hcur. unfold bind at 1. unfold deref. unfold ret at 1. cbv beta iota.
  (* the colours of the wild cards held: there are none *)
  unfold bind at 1.
  rewrite reset_colours_nothing
    by (intros x Hx; exact (nothing_playable_no_wild _ _ _ _ x Hnone Hx)).
  cbv beta iota.
  unfold bind at 1. unfold print at 1. unfold modify at 1. cbv beta iota.
  set (g1 := with_console g (console g ++ [LTurn (name_of g cur)])).
  assert (Htop1 : top_pile_card oracle g1 = Ok top g1)
    by (apply top_pile_card_top; cbn [pile g1 with_console]; rewrite Hpile;
        apply last_opt_app).
  assert (Hplay : playable_cards oracle cur g1 = Ok [] g1).
  { unfold playable_cards. rewrite (bind_Ok _ _ _ _ _ Htop1).
    unfold bind, get, ret. f_equal. exact Hnone. }
  unfold bind at 1. rewrite Hplay. cbv beta iota. cbn [is_nil].
  unfold bind at 1. unfold bind at 1.
  unfold print at 1. unfold modify at 1. cbv beta iota.
  set (g2 := with_console g1 (console g1 ++ [LNoPlayable (name_of g cur)])).
  assert (Hdeck2 : deck g2 <> []) by exact Hdeck.
  assert (Hpl2 : nth_error (player_list g2) cur = Some pl) by exact Epl.
  destruct (deal_card_step oracle g2 cur pl Hdeck2 Hpl2)
    as [c [g3 [Hdeal [Hin [Hh [Ho [Hs [Hst Hd]]]]]]]].
  pose proof (deal_card_keeps_top oracle g2 cur pl c g3 Hdeck2 Hpl2 Hdeal) as Hkeep.
  exists c.
  unfold bind at 1. rewrite Hdeal. cbv beta iota.
  unfold bind at 1. unfold get at 1. cbv beta iota.
  assert (Hobj3 : objects g3 = objects g) by (destruct Hs as [H _]; exact H).
  assert (Htop3 : last_opt (pile g3) = Some top).
  { rewrite Hkeep. cbn [pile g2 g1 with_console]. rewrite Hpile. apply last_opt_app. }
  assert (Hnt : next_turn g3 = next_turn g)
    by (rewrite (same_seats_next_turn g2 g3 Hs); reflexivity).
  assert (Hsp : spin g3 = spin g) by (destruct Hs as [_ [_ [_ [_ [H _]]]]]; exact H).
  destruct (human_of g3 cur).
  - unfold bind at 1. unfold print at 1. unfold modify at 1. cbv beta iota.
    unfold bind at 1. unfold ret at 1. cbv beta iota.
    unfold bind at 1. unfold modify at 1. cbv beta iota.
    match goal with
    | |- context [top_pile_card oracle ?gg] => set (g5 := gg)
    end.
    assert (Htop5 : top_pile_card oracle g5 = Ok top g5)
      by (apply top_pile_card_top; exact Htop3).
    rewrite Htop5. cbv beta iota.
    eexists. split; [reflexivity|].
    split; [exact Hin|]. split; [rewrite Hhand; exact Hh|].
    split; [exact Ho|]. split; [exact Hobj3|]. split; [exact Htop3|].
    split; [exact Hst|]. split; [exact Hnt | exact Hsp].
  - unfold bind at 1. unfold ret at 1. cbv beta iota.
    unfold bind at 1. unfold ret at 1. cbv beta iota.
    unfold bind at 1. unfold modify at 1. cbv beta iota.
    match goal with
    | |- context [top_pile_card oracle ?gg] => set (g5 := gg)
    end.
    assert (Htop5 : top_pile_card oracle g5 = Ok top g5)
      by (apply top_pile_card_top; exact Htop3).
    rewrite Htop5. cbv beta iota.
    eexists. split; [reflexivity|].
    split; [exact Hin|]. split; [rewrite Hhand; exact Hh|].
    split; [exact Ho|]. split; [exact Hobj3|]. split; [exact Htop3|].
    split; [exact Hst|]. split; [exact Hnt | exact Hsp].
Qed.

Lemma no_playable_card_draws_one_witness :
  player_from_turn drawn_card_playable (turn drawn_card_playable) = Some 0
  /\ pile drawn_card_playable = [] ++ [0]
  /\ playable_of (card_at drawn_card_playable) (stacking drawn_card_playable)
                 (card_at drawn_card_playable 0) (hand_of drawn_card_playable 0) = []
  /\ deck drawn_card_playable <> []
  /\ exists c g',
      take_turn first_option 2 drawn_card_playable = Ok tt g'
      /\ In c (deck drawn_card_playable)
      /\ hand_of g' 0 = hand_of drawn_card_playable 0 ++ [c]
      /\ (forall q, q <> 0 -> hand_of g' q = hand_of drawn_card_playable q)
      /\ objects g' = objects drawn_card_playable
      /\ last_opt (pile g') = Some 0
      /\ List.length (deck g') + List.length (pile g') + 1
         = List.length (deck drawn_card_playable)
           + List.length (pile drawn_card_playable)
      /\ turn g' = next_turn drawn_card_playable
      /\ spin g' = spin drawn_card_playable.
Proof.
  assert (Hd : deck drawn_card_playable <> []) by (cbn; discriminate).
  split; [reflexivity|]. split; [reflexivity|]. split; [reflexivity|].
  split; [exact Hd|].
  exact (no_playable_card_draws_one first_option 2 drawn_card_playable 0 [] 0
                                    eq_refl eq_refl eq_refl Hd).
Defined.

(** X24. Before the first round [run_game], finding a card on the
    pile, makes sure that it has a colour: a top card without a colour
    gets one, a coloured one is left alone; no other card object changes,
    nor do the players, deck, pile, turn or spin. *)
Theorem start_game_colours_top (oracle : nat -> nat) (g : UnoGame)
        (older : list nat) (top : nat) :
  pile g = older ++ [top] ->
  top < List.length (objects g) ->
  exists g',
    start_game oracle g = Ok tt g'
    /\ colour_of (card_at g' top) <> None
    /\ (forall r, r <> top -> card_at g' r = card_at g r)
    /\ (colour_of (card_at g top) <> None -> objects g' = objects g)
    /\ player_list g' = player_list g
    /\ deck g' = deck g /\ pile g' = pile g
    /\ turn g' = turn g /\ spin g' = spin g.
Proof.
  intros Hpile Hlt.
  assert (Hlast : last_opt (pile g) = Some top)
    by (rewrite Hpile; apply last_opt_app).
  unfold start_game.
  rewrite (bind_Ok _ _ _ _ _ (top_pile_card_top oracle g top Hlast)).
  unfold bind at 1. unfold get at 1. cbv beta iota.
  destruct (colour_of (card_at g top)) as [k0|] eqn:Ecol.
  - unfold bind at 1. unfold ret at 1. cbv beta iota.
    rewrite (bind_Ok _ _ _ _ _ (top_pile_card_top oracle g top Hlast)).
    eexists. split; [reflexivity|]. cbn.
    split; [unfold card_at in *; cbn; rewrite Ecol; discriminate|].
    repeat split; auto.
  - assert (Hne : COLOUR_LIST <> []) by discriminate.
    destruct (choice_nonempty oracle COLOUR_LIST g Hne) as [k [_ Hk]].
    unfold bind at 1. unfold bind at 1. rewrite Hk. cbv beta iota.
    set (g1 := with_asked g (S (asked g))).
    assert (Hlast1 : last_opt (pile g1) = Some top) by exact Hlast.
    rewrite (bind_Ok _ _ _ _ _ (top_pile_card_top oracle g1 top Hlast1)).
    unfold modify at 1. cbv beta iota.
    set (g2 := assign_colour g1 top (Some k)).
    assert (Hlast2 : last_opt (pile g2) = Some top) by exact Hlast.
    rewrite (bind_Ok _ _ _ _ _ (top_pile_card_top oracle g2 top Hlast2)).
    eexists. split; [reflexivity|]. cbn.
    split.
    { unfold card_at, g2, assign_colour. cbn.
      rewrite nth_list_set_same by exact Hlt.
      unfold card_at in Ecol |- *. cbn.
      destruct (nth top (objects g) (WildCard None)); cbn in Ecol |- *;
        try discriminate. }
    split.
    { intros r Hr. unfold card_at, g2, assign_colour. cbn.
      apply nth_list_set_other. congruence. }
    split; [congruence|]. repeat split.
Qed.

Lemma start_game_colours_top_witness :
  pile colourless_top_game = [0] ++ [1]
  /\ 1 < List.length (objects colourless_top_game)
  /\ colour_of (card_at colourless_top_game 1) = None
  /\ exists g',
      start_game first_option colourless_top_game = Ok tt g'
      /\ colour_of (card_at g' 1) <> None
      /\ (forall r, r <> 1 -> card_at g' r = card_at colourless_top_game r)
      /\ (colour_of (card_at colourless_top_game 1) <> None ->
          objects g' = objects colourless_top_game)
      /\ player_list g' = player_list colourless_top_game
      /\ deck g' = deck colourless_top_game /\ pile g' = pile colourless_top_game
      /\ turn g' = turn colourless_top_game /\ spin g' = spin colourless_top_game.
Proof.
  assert (Hlt : 1 < List.length (objects colourless_top_game)) by (cbn; lia).
  split; [reflexivity|]. split; [exact Hlt|]. split; [reflexivity|].
  exact (start_game_colours_top first_option colourless_top_game [0] 1 eq_refl Hlt).
Defined.

(** X25. With two players, [SkipCard.play] followed by the advance of
    the turn that ends the round of [run_game] leaves the game as it was:
    the player who played the skip is on turn again. *)
Theorem skip_returns_turn_of_two (g : UnoGame) :
  List.length (player_list g) = 2 ->
  (turn g = 1 \/ turn g = 2)%Z ->
  (spin g = 1 \/ spin g = -1)%Z ->
  (SkipCard_play ;; modify (fun g => with_turn g (next_turn g))) g = Ok tt g.
Proof.
  intros Hn Ht Hs. unfold SkipCard_play, bind, modify. f_equal.
  destruct g as [o ps d p t s j st sz c a]. cbn in *.
  unfold with_turn, next_turn. cbn. rewrite Hn. cbn.
  f_equal.
  destruct Ht as [-> | ->], Hs as [-> | ->]; reflexivity.
Qed.

Lemma skip_returns_turn_of_two_witness :
  List.length (player_list drawn_card_playable) = 2
  /\ (turn drawn_card_playable = 1 \/ turn drawn_card_playable = 2)%Z
  /\ (spin drawn_card_playable = 1 \/ spin drawn_card_playable = -1)%Z
  /\ (SkipCard_play ;; modify (fun g => with_turn g (next_turn g))) drawn_card_playable
     = Ok tt drawn_card_playable.
Proof.
  assert (Ht : (turn drawn_card_playable = 1 \/ turn drawn_card_playable = 2)%Z)
    by (left; reflexivity).
  assert (Hs : (spin drawn_card_playable = 1 \/ spin drawn_card_playable = -1)%Z)
    by (left; reflexivity).
  split; [reflexivity|]. split; [exact Ht|]. split; [exact Hs|].
  exact (skip_returns_turn_of_two drawn_card_playable eq_refl Ht Hs).
Defined.

Lemma choose_colour_spec (oracle : nat -> nat) (g : UnoGame) (self cur : nat) :
  player_from_turn g (turn g) = Some cur ->
  exists k,
    In k COLOUR_LIST
    /\ choose_colour oracle self g
       = Ok tt (with_console (assign_colour (with_asked g (S (asked g))) self (Some k))
                             (console g ++ [LChose (name_of g cur) k])).
Proof.
  intros Hcur.
  assert (Hne : COLOUR_LIST <> []) by discriminate.
  destruct (choice_nonempty oracle COLOUR_LIST g Hne) as [k [Hin Hk]].
  assert (Hpick : (if human_of g cur then get_input oracle COLOUR_LIST
                   else choice oracle COLOUR_LIST) g
                  = Ok k (with_asked g (S (asked g))))
    by (destruct (human_of g cur); exact Hk).
  exists k. split; [exact Hin|].
  unfold choose_colour.
  unfold bind at 1. unfold get at 1. cbv beta iota.
  rewrite Hcur. unfold bind at 1. unfold deref. unfold ret at 1. cbv beta iota.
  unfold bind at 1. rewrite Hpick. reflexivity.
Qed.

(** X26. [DrawFourCard.play] without the stacking rule, played by a
    robot, current and next player being found from the turn and four
    cards being in the deck: the card object gets one of the four colours
    and no other object changes, the next player's hand grows by four
    cards, the other hands stay, and the turn moves on to [next_turn]. *)
Theorem draw_four_colours_and_deals (oracle : nat -> nat) (g : UnoGame)
        (card cur p : nat) (old : option Colour) :
  card_at g card = DrawFourCard old ->
  card < List.length (objects g) ->
  player_from_turn g (turn g) = Some cur ->
  human_of g cur = false ->
  player_from_turn g (next_turn g) = Some p ->
  stacking g = false ->
  4 <= List.length (deck g) ->
  exists k g',
    play oracle card g = Ok tt g'
    /\ In k COLOUR_LIST
    /\ card_at g' card = DrawFourCard (Some k)
    /\ (forall r, r <> card -> card_at g' r = card_at g r)
    /\ List.length (hand_of g' p) = List.length (hand_of g p) + 4
    /\ (forall q, q <> p -> hand_of g' q = hand_of g q)
    /\ turn g' = next_turn g
    /\ spin g' = spin g.
Proof.
  intros Hc Hlt Hcur Hrobot Hnext Hst Hdeck.
  assert (Hp : p < List.length (player_list g))
    by (eapply player_from_turn_bound; eauto).
  destruct (choose_colour_spec oracle g card cur Hcur) as [k [Hin Hcol]].
  set (g1 := with_console (assign_colour (with_asked g (S (asked g))) card (Some k))
                          (console g ++ [LChose (name_of g cur) k])) in *.
  assert (Hp1 : p < List.length (player_list g1)) by exact Hp.
  assert (Hcount : stack_count g1 CDrawFour = 1)
    by (unfold stack_count; cbn [stacking g1 with_console assign_colour with_objects
                                  with_asked]; rewrite Hst; reflexivity).
  assert (Hk : 4 * 1 <= List.length (deck g1)) by exact Hdeck.
  destruct (activate_deals oracle g1 p Hp1 (4 * 1) Hk)
    as [g' [Hrun [Hh [Ho [Ht [Hs [_ Hobj]]]]]]].
  exists k, g'.
  split.
  { unfold play. unfold bind at 1. unfold get at 1. cbv beta iota. rewrite Hc.
    unfold DrawFourCard_play. unfold bind at 1. rewrite Hcol. cbv beta iota.
    unfold bind at 1. unfold get at 1. cbv beta iota.
    change (player_from_turn g1 (next_turn g1)) with (player_from_turn g (next_turn g)).
    rewrite Hnext.
    unfold unless_holding. unfold bind at 1. unfold get at 1. cbv beta iota.
    change (stacking g1) with (stacking g). rewrite Hst. cbn [negb].
    unfold DrawFourCard_activate. unfold bind at 1. unfold get at 1. cbv beta iota zeta.
    rewrite Hcount. exact Hrun. }
  split; [exact Hin|].
  assert (Hat : forall r, card_at g' r = nth r (objects g1) (WildCard None))
    by (intros r; unfold card_at; rewrite Hobj; reflexivity).
  split.
  { rewrite Hat. unfold g1, assign_colour. cbn.
    rewrite nth_list_set_same by exact Hlt.
    unfold card_at in Hc |- *. cbn. rewrite Hc. reflexivity. }
  split.
  { intros r Hr. rewrite Hat. unfold g1, assign_colour. cbn.
    apply nth_list_set_other. congruence. }
  split; [exact Hh|]. split; [exact Ho|]. split; [exact Ht | exact Hs].
Qed.

Lemma draw_four_colours_and_deals_witness :
  card_at draw_four_game 1 = DrawFourCard None
  /\ 1 < List.length (objects draw_four_game)
  /\ player_from_turn draw_four_game (turn draw_four_game) = Some 0
  /\ human_of draw_four_game 0 = false
  /\ player_from_turn draw_four_game (next_turn draw_four_game) = Some 1
  /\ stacking draw_four_game = false
  /\ 4 <= List.length (deck draw_four_game)
  /\ exists k g',
      play first_option 1 draw_four_game = Ok tt g'
      /\ In k COLOUR_LIST
      /\ card_at g' 1 = DrawFourCard (Some k)
      /\ (forall r, r <> 1 -> card_at g' r = card_at draw_four_game r)
      /\ List.length (hand_of g' 1) = List.length (hand_of draw_four_game 1) + 4
      /\ (forall q, q <> 1 -> hand_of g' q = hand_of draw_four_game q)
      /\ turn g' = next_turn draw_four_game
      /\ spin g' = spin draw_four_game.
Proof.
  assert (Hlt : 1 < List.length (objects draw_four_game)) by (cbn; lia).
  assert (Hd : 4 <= List.length (deck draw_four_game)) by (cbn; lia).
  split; [reflexivity|]. split; [exact Hlt|]. split; [reflexivity|].
  split; [reflexivity|]. split; [reflexivity|]. split; [reflexivity|].
  split; [exact Hd|].
  exact (draw_four_colours_and_deals first_option draw_four_game 1 0 1 None
                                     eq_refl Hlt eq_refl eq_refl eq_refl eq_refl Hd).
Defined.
